(** * Terminal window support (src/terminal.c): a shallow embedding

    The generic part of terminal.c, the code that connects a job, the
    libvterm emulator and a Vim buffer, is embedded as Rocq functions.
    C [int] values are integers of [Z]; the values that occur here (row
    and column numbers, colour components, line counts) stay far inside
    the 32-bit range, so no wrap-around is written out.  Bytes are
    [Byte.byte].  Functions that change the terminal, its buffer or the
    emulator are written in a state monad over [world]; a dereference of
    a NULL pointer or an access outside an array ends a run in [Fault]. *)

From Stdlib Require Import ZArith List Bool Lia Permutation Sorted.
From Stdlib.Strings Require Import Byte.
Import ListNotations.
Open Scope Z_scope.

(** ** Macros and constants *)

(** [MIN(x,y)] and [MAX(x,y)] as the macros are written. *)
Definition MIN (x y : Z) : Z := if x <? y then x else y.
Definition MAX (x y : Z) : Z := if x >? y then x else y.

(** [#define MAX_ROW 999999] and [#define KEY_BUF_LEN 200]. *)
Definition MAX_ROW : Z := 999999.
Definition KEY_BUF_LEN : Z := 200.

Definition NUL : Z := 0.
Definition NL : byte := x0a.

(** ** libvterm data, as terminal.c reads it *)

(** [VTermColor]: three [uint8_t] components. *)
Record VTermColor := mkColor { red : Z; green : Z; blue : Z }.

Definition valid_color (c : VTermColor) : Prop :=
  0 <= red c <= 255 /\ 0 <= green c <= 255 /\ 0 <= blue c <= 255.

(** The attribute bit-fields of a cell that [cell2attr] tests. *)
Record VTermScreenCellAttrs := mkAttrs {
  bold : bool; underline : bool; italic : bool; strike : bool; reverse : bool }.

(** [VTermScreenCell]: [chars] holds the code points of the cell, the
    unused entries of the C array being 0 (a list that ends early reads
    as 0 from there on). *)
Record VTermScreenCell := mkCell {
  chars : list Z;
  width : Z;
  attrs : VTermScreenCellAttrs;
  fg : VTermColor;
  bg : VTermColor }.

Definition chars0 (c : VTermScreenCell) : Z := hd 0 (chars c).

Definition no_attrs : VTermScreenCellAttrs := mkAttrs false false false false false.

(** What [vim_memset(&cell, 0, sizeof(cell))] leaves. *)
Definition zero_cell : VTermScreenCell :=
  mkCell [] 0 no_attrs (mkColor 0 0 0) (mkColor 0 0 0).

Record VTermPos := mkPos { row : Z; col : Z }.
Record VTermRect := mkRect { start_row : Z; end_row : Z; start_col : Z; end_col : Z }.

Inductive VTermModifier := VTERM_MOD_NONE | VTERM_MOD_SHIFT | VTERM_MOD_CTRL.

Inductive VTermKey :=
| VTERM_KEY_NONE | VTERM_KEY_ENTER | VTERM_KEY_TAB | VTERM_KEY_ESCAPE
| VTERM_KEY_UP | VTERM_KEY_DOWN | VTERM_KEY_LEFT | VTERM_KEY_RIGHT
| VTERM_KEY_INS | VTERM_KEY_DEL | VTERM_KEY_HOME | VTERM_KEY_END
| VTERM_KEY_PAGEUP | VTERM_KEY_PAGEDOWN
| VTERM_KEY_FUNCTION (n : Z)
| VTERM_KEY_KP_0 | VTERM_KEY_KP_1 | VTERM_KEY_KP_2 | VTERM_KEY_KP_3
| VTERM_KEY_KP_4 | VTERM_KEY_KP_5 | VTERM_KEY_KP_6 | VTERM_KEY_KP_7
| VTERM_KEY_KP_8 | VTERM_KEY_KP_9
| VTERM_KEY_KP_MULT | VTERM_KEY_KP_PLUS | VTERM_KEY_KP_MINUS
| VTERM_KEY_KP_PERIOD | VTERM_KEY_KP_DIVIDE | VTERM_KEY_KP_ENTER.

(** The calls terminal.c makes on the input side of the emulator. *)
Inductive vterm_call :=
| InputWrite (bytes : list byte)
| FlushDamage.

(** Modelled from the spec: the emulation engine (libvterm, not among the
    sources).  Of the engine the model keeps what the spec's interface
    names: the cell grid read by "get cell at (row, col)", the bytes fed
    by "feed(handle, bytes)" and the damage flushes, in call order, and
    the "internal output buffer drained via a read-output call". *)
Record VTerm := mkVTerm {
  vt_screen : list (list VTermScreenCell);
  vt_calls : list vterm_call;
  vt_outbuffer : list byte }.

(** Modelled from the spec: "get cell at (row, col)"; [None] is the 0 that
    the engine returns for a position outside its grid. *)
Definition vterm_screen_get_cell (vt : VTerm) (pos : VTermPos) : option VTermScreenCell :=
  if (row pos <? 0) || (col pos <? 0) then None
  else match nth_error (vt_screen vt) (Z.to_nat (row pos)) with
       | Some r => nth_error r (Z.to_nat (col pos))
       | None => None
       end.

(** Modelled from the spec: "feed(handle, bytes)", recorded in call order. *)
Definition vterm_input_write (vt : VTerm) (bytes : list byte) : VTerm :=
  mkVTerm (vt_screen vt) (vt_calls vt ++ [InputWrite bytes]) (vt_outbuffer vt).

(** Modelled from the spec: the request to flush pending damage. *)
Definition vterm_screen_flush_damage (vt : VTerm) : VTerm :=
  mkVTerm (vt_screen vt) (vt_calls vt ++ [FlushDamage]) (vt_outbuffer vt).

(** Modelled from the spec: the "read-output call" that drains the
    engine's output buffer: at most [len] bytes are copied out and
    removed from the buffer, and their number is returned. *)
Definition vterm_output_read (vt : VTerm) (len : Z) : VTerm * list byte * Z :=
  let n := Z.to_nat len in
  let out := firstn n (vt_outbuffer vt) in
  (mkVTerm (vt_screen vt) (vt_calls vt) (skipn n (vt_outbuffer vt)),
   out, Z.of_nat (length out)).

(** ** The data of terminal.c *)

(** [sb_line_T]: [sb_cells] is a pointer, [None] when it is NULL. *)
Record sb_line_T := mkLine {
  sb_cols : Z;
  sb_cells : option (list VTermScreenCell) }.

Inductive job_status := JOB_FAILED | JOB_STARTED | JOB_ENDED.

(** What terminal.c reads of a [job_T]: its status and whether its
    channel is open. *)
Record job_T := mkJob { jv_status : job_status; jv_channel_open : bool }.

(** [struct terminal_S].  [tl_scrollback] is the growarray of
    [sb_line_T]: its [ga_len] is the length of the list.  [tl_buffer] is
    the number of the buffer; the strings are kept as bytes. *)
Record term_T := mkTerm {
  tl_vterm : option VTerm;
  tl_job : option job_T;
  tl_buffer : Z;
  tl_terminal_mode : bool;
  tl_channel_closed : bool;
  tl_rows : Z;
  tl_cols : Z;
  tl_rows_fixed : bool;
  tl_cols_fixed : bool;
  tl_title : option (list byte);
  tl_status_text : option (list byte);
  tl_dirty_row_start : Z;
  tl_dirty_row_end : Z;
  tl_scrollback : list sb_line_T;
  tl_scrollback_scrolled : Z;
  tl_cursor_pos : VTermPos;
  tl_cursor_visible : bool }.

(** What terminal.c reads and writes of a [win_T]. *)
Record win_T := mkWin {
  w_buffer : Z;
  w_height : Z;
  w_width : Z;
  w_winrow : Z;
  w_wincol : Z;
  w_cursor_lnum : Z;
  w_cursor_col : Z;
  w_wrow : Z;
  w_wcol : Z }.

(** ** Key codes *)

(** The special key codes of keymap.h that terminal.c names in a [case].
    Their numbers are not among the sources; they are distinct from each
    other and from every character, which is all a [switch] needs. *)
Inductive special_key :=
| K_ZERO | K_BS | K_DEL | K_DOWN | K_S_DOWN | K_END | K_S_END | K_C_END
| K_F1 | K_F2 | K_F3 | K_F4 | K_F5 | K_F6 | K_F7 | K_F8 | K_F9 | K_F10
| K_F11 | K_F12 | K_F21
| K_HOME | K_S_HOME | K_C_HOME | K_INS
| K_K0 | K_K1 | K_K2 | K_K3 | K_K4 | K_K5 | K_K6 | K_K7 | K_K8 | K_K9
| K_KDEL | K_KDIVIDE | K_KEND | K_KENTER | K_KHOME | K_KINS | K_KMINUS
| K_KMULTIPLY | K_KPAGEDOWN | K_KPAGEUP | K_KPLUS | K_KPOINT
| K_LEFT | K_S_LEFT | K_C_LEFT | K_PAGEDOWN | K_PAGEUP
| K_RIGHT | K_S_RIGHT | K_C_RIGHT | K_UP | K_S_UP
| K_MOUSEUP | K_MOUSEDOWN | K_MOUSELEFT | K_MOUSERIGHT
| K_LEFTMOUSE | K_LEFTMOUSE_NM | K_LEFTDRAG | K_LEFTRELEASE | K_LEFTRELEASE_NM
| K_MIDDLEMOUSE | K_MIDDLEDRAG | K_MIDDLERELEASE
| K_RIGHTMOUSE | K_RIGHTDRAG | K_RIGHTRELEASE
| K_X1MOUSE | K_X1DRAG | K_X1RELEASE | K_X2MOUSE | K_X2DRAG | K_X2RELEASE
| K_IGNORE | K_NOP | K_UNDO | K_HELP | K_XF1 | K_XF2 | K_XF3 | K_XF4
| K_SELECT | K_VER_SCROLLBAR | K_HOR_SCROLLBAR | K_TABLINE | K_TABMENU
| K_DROP | K_CURSORHOLD | K_PS | K_PE.

(** The [int c] of a typed key: a character (its code point) or one of
    the special codes. *)
Inductive key := Char (c : Z) | Special (k : special_key).

Definition CAR : Z := 13.
Definition ESC : Z := 27.
Definition TAB : Z := 9.
Definition BS : Z := 8.

(** ** The world a terminal lives in *)

Inductive redraw_type := NOT_VALID.

Inductive log_message :=
| LogNotWriting (len : Z)      (* "NOT writing %d bytes to terminal" *)
| LogWriting (len : Z)         (* "writing %d bytes to terminal" *)
| LogResizing (rows : Z).      (* "Resizing terminal to %d lines" *)

(** The calls into the rest of Vim whose effect terminal.c does not read
    back: they are recorded in call order. *)
Inductive event :=
| redraw_buf_later (buf : Z) (type : redraw_type)
| redraw_buf_and_status_later (buf : Z) (type : redraw_type)
| redraw_win_later (type : redraw_type)
| maketitle
| setcursor
| cursor_on
| out_flush
| gui_update_cursor
| check_cursor
| update_screen
| ch_logn (msg : log_message)
| channel_send (bytes : list byte)
| stuffcharReadbuff (c : key)
| vterm_set_size (rows cols : Z)
| term_report_winsize (rows cols : Z).

(** [w_term] is the terminal and [w_lines] the lines of its buffer
    ([ml_line_count] is the length of the list); [w_wins] are the windows
    that [FOR_ALL_WINDOWS] visits and [w_curwin] the place of [curwin]
    among them; [w_alloc] holds the outcomes of the coming allocation
    requests, in order ([true]: memory was obtained), every request
    after the last one succeeding. *)
Record world := mkWorld {
  w_term : term_T;
  w_lines : list (list byte);
  w_wins : list win_T;
  w_curwin : nat;
  w_curbuf : Z;
  w_alloc : list bool;
  w_events : list event;
  mouse_row : Z;
  mouse_col : Z;
  mouse_was_outside : bool }.

Definition ml_line_count (w : world) : Z := Z.of_nat (length (w_lines w)).

Definition no_win : win_T := mkWin 0 0 0 0 0 0 0 0 0.
Definition curwin (w : world) : win_T := nth (w_curwin w) (w_wins w) no_win.

(** Outcome of running a piece of C: a value, an invalid memory access,
    or a loop that was cut off before it ended. *)
Inductive result (A : Type) :=
| Ok (a : A)
| Fault
| Timeout.
Arguments Ok {A} a.
Arguments Fault {A}.
Arguments Timeout {A}.

Definition M (A : Type) : Type := world -> result (A * world).

Definition ret {A} (a : A) : M A := fun w => Ok (a, w).
Definition bind {A B} (m : M A) (k : A -> M B) : M B :=
  fun w => match m w with
           | Ok (a, w') => k a w'
           | Fault => Fault
           | Timeout => Timeout
           end.
Definition fault {A} : M A := fun _ => Fault.
Definition timeout {A} : M A := fun _ => Timeout.
Definition get : M world := fun w => Ok (w, w).
Definition put (w : world) : M unit := fun _ => Ok (tt, w).

Notation "x <- m ;; k" := (bind m (fun x => k))
  (at level 61, m at next level, right associativity).
Notation "m ;;; k" := (bind m (fun _ => k))
  (at level 61, right associativity).

(** Field updates. *)
Definition with_term (w : world) (t : term_T) : world :=
  mkWorld t (w_lines w) (w_wins w) (w_curwin w) (w_curbuf w) (w_alloc w)
          (w_events w) (mouse_row w) (mouse_col w) (mouse_was_outside w).
Definition with_lines (w : world) (l : list (list byte)) : world :=
  mkWorld (w_term w) l (w_wins w) (w_curwin w) (w_curbuf w) (w_alloc w)
          (w_events w) (mouse_row w) (mouse_col w) (mouse_was_outside w).
Definition with_wins (w : world) (ws : list win_T) : world :=
  mkWorld (w_term w) (w_lines w) ws (w_curwin w) (w_curbuf w) (w_alloc w)
          (w_events w) (mouse_row w) (mouse_col w) (mouse_was_outside w).
Definition with_alloc (w : world) (a : list bool) : world :=
  mkWorld (w_term w) (w_lines w) (w_wins w) (w_curwin w) (w_curbuf w) a
          (w_events w) (mouse_row w) (mouse_col w) (mouse_was_outside w).
Definition with_events (w : world) (e : list event) : world :=
  mkWorld (w_term w) (w_lines w) (w_wins w) (w_curwin w) (w_curbuf w) (w_alloc w)
          e (mouse_row w) (mouse_col w) (mouse_was_outside w).
Definition with_mouse_was_outside (w : world) (b : bool) : world :=
  mkWorld (w_term w) (w_lines w) (w_wins w) (w_curwin w) (w_curbuf w) (w_alloc w)
          (w_events w) (mouse_row w) (mouse_col w) b.

Definition set_vterm (t : term_T) (v : option VTerm) : term_T :=
  mkTerm v (tl_job t) (tl_buffer t) (tl_terminal_mode t) (tl_channel_closed t)
    (tl_rows t) (tl_cols t) (tl_rows_fixed t) (tl_cols_fixed t) (tl_title t)
    (tl_status_text t) (tl_dirty_row_start t) (tl_dirty_row_end t)
    (tl_scrollback t) (tl_scrollback_scrolled t) (tl_cursor_pos t)
    (tl_cursor_visible t).
Definition set_mode_and_status (t : term_T) (on : bool) : term_T :=
  mkTerm (tl_vterm t) (tl_job t) (tl_buffer t) on (tl_channel_closed t)
    (tl_rows t) (tl_cols t) (tl_rows_fixed t) (tl_cols_fixed t) (tl_title t)
    None (tl_dirty_row_start t) (tl_dirty_row_end t)
    (tl_scrollback t) (tl_scrollback_scrolled t) (tl_cursor_pos t)
    (tl_cursor_visible t).
Definition set_dirty (t : term_T) (s e : Z) : term_T :=
  mkTerm (tl_vterm t) (tl_job t) (tl_buffer t) (tl_terminal_mode t)
    (tl_channel_closed t) (tl_rows t) (tl_cols t) (tl_rows_fixed t)
    (tl_cols_fixed t) (tl_title t) (tl_status_text t) s e
    (tl_scrollback t) (tl_scrollback_scrolled t) (tl_cursor_pos t)
    (tl_cursor_visible t).
Definition set_scrollback (t : term_T) (sb : list sb_line_T) (scrolled : Z) : term_T :=
  mkTerm (tl_vterm t) (tl_job t) (tl_buffer t) (tl_terminal_mode t)
    (tl_channel_closed t) (tl_rows t) (tl_cols t) (tl_rows_fixed t)
    (tl_cols_fixed t) (tl_title t) (tl_status_text t) (tl_dirty_row_start t)
    (tl_dirty_row_end t) sb scrolled (tl_cursor_pos t) (tl_cursor_visible t).

(** Monadic primitives. *)
Definition emit (e : event) : M unit :=
  fun w => Ok (tt, with_events w (w_events w ++ [e])).
Definition get_term : M term_T := fun w => Ok (w_term w, w).
Definition put_term (t : term_T) : M unit := fun w => Ok (tt, with_term w t).

(** One allocation request ([alloc] or [ga_grow]): [true] when memory
    was obtained. *)
Definition alloc_request : M bool :=
  fun w => match w_alloc w with
           | [] => Ok (true, w)
           | b :: rest => Ok (b, with_alloc w rest)
           end.

(** The engine of the terminal; using it when [tl_vterm] is NULL is an
    invalid access. *)
Definition the_vterm : M VTerm :=
  fun w => match tl_vterm (w_term w) with
           | Some vt => Ok (vt, w)
           | None => Fault
           end.

(** ** The host buffer *)

(** Modelled from the spec: "append-line(doc, after-line-index, text)"
    (memline.c is not among the sources): the text becomes the line after
    line [lnum]; a line number outside the buffer makes the call fail and
    leaves the buffer as it was. *)
Definition ml_append_buf (lnum : Z) (text : list byte) : M unit :=
  fun w =>
    if (lnum <? 0) || (lnum >? ml_line_count w) then Ok (tt, w)
    else Ok (tt, with_lines w (firstn (Z.to_nat lnum) (w_lines w) ++ text
                               :: skipn (Z.to_nat lnum) (w_lines w))).

(** Modelled from the spec: "delete-line(doc, line-index)".  A host
    document is never without a line: an empty document holds the
    "placeholder empty line" (in the source's words "the empty line that
    was in the empty buffer"), so deleting the only line leaves that
    empty line and the line count at 1. *)
Definition ml_delete (lnum : Z) : M unit :=
  fun w =>
    if (lnum <? 1) || (lnum >? ml_line_count w) then Ok (tt, w)
    else if ml_line_count w =? 1 then Ok (tt, with_lines w [[]])
    else Ok (tt, with_lines w (firstn (Z.to_nat (lnum - 1)) (w_lines w)
                               ++ skipn (Z.to_nat lnum) (w_lines w))).

(** ** Stand-ins for the collaborators

    Simple instances of the functions that terminal.c calls and that
    are not among the sources, for running the model on examples. *)

(** A character as one byte (a question mark above 255). *)
Definition one_byte_char (c : Z) : list byte :=
  match Byte.of_N (Z.to_N c) with
  | Some b => [b]
  | None => [x3f]
  end.

(** Every byte is a character of its own. *)
Definition one_byte_len (p : list byte) (size : nat) : nat := 1%nat.



(** An engine that answers a character with its byte, a key with ESC and
    a mouse event with nothing. *)
Definition echo_unichar (vt : VTerm) (c : Z) (md : VTermModifier) : VTerm :=
  mkVTerm (vt_screen vt) (vt_calls vt) (vt_outbuffer vt ++ one_byte_char c).
Definition echo_key (vt : VTerm) (k : VTermKey) (md : VTermModifier) : VTerm :=
  mkVTerm (vt_screen vt) (vt_calls vt) (vt_outbuffer vt ++ [x1b]).
Definition quiet_mouse_move (vt : VTerm) (r c : Z) (md : VTermModifier) : VTerm := vt.
Definition quiet_mouse_button (vt : VTerm) (button : Z) (pressed : bool)
    (md : VTermModifier) : VTerm := vt.
Definition quiet_paste (vt : VTerm) : VTerm := vt.

(** The attribute index of a terminal with colours: the attribute bits
    and both colours in one number. *)
Definition sample_attr_idx (attr fg bg : Z) : Z := attr + 64 * fg + 64 * 512 * bg.
Definition sample_rgb (r g b : Z) : Z := r * 65536 + g * 256 + b.
Definition sample_lookup_color (idx : Z) (foreground : bool) : Z := idx.

(** ** The functions of terminal.c *)

Section Terminal.

Set Default Proof Using "Type".

(** The parts of Vim and libvterm that terminal.c calls and that are not
    among the sources. *)
Variable t_colors : Z.
Variable lookup_color : Z -> bool -> Z.
Variables HL_BOLD HL_UNDERLINE HL_ITALIC HL_STANDOUT HL_INVERSE : Z.
(** [gui.in_use] and ['termguicolors']; false where the feature is not
    compiled in. *)
Variables gui_in_use p_tgc : bool.
Variables get_gui_attr_idx get_tgc_attr_idx get_cterm_attr_idx : Z -> Z -> Z -> Z.
Variables gui_mch_get_rgb_color gui_get_rgb_color_cmn : Z -> Z -> Z -> Z.
Variable mb_char2bytes : Z -> list byte.
(** [utf_ptr2len_len(p, size)]: the bytes from [p] on and the size. *)
Variable utf_ptr2len_len : list byte -> nat -> nat.
(** [PTR2CHAR(p)] and [MB_PTR2LEN(p)]. *)
Variable PTR2CHAR : list byte -> Z.
Variable MB_PTR2LEN : list byte -> nat.
(** The keyboard and mouse encoders of the engine: each may append to its
    output buffer. *)
Variable vterm_keyboard_key : VTerm -> VTermKey -> VTermModifier -> VTerm.
Variable vterm_keyboard_unichar : VTerm -> Z -> VTermModifier -> VTerm.
Variable vterm_mouse_move : VTerm -> Z -> Z -> VTermModifier -> VTerm.
Variable vterm_mouse_button : VTerm -> Z -> bool -> VTermModifier -> VTerm.
Variables vterm_keyboard_start_paste vterm_keyboard_end_paste : VTerm -> VTerm.
(** Compile-time features and the number of a special key. *)
Variables FEAT_GUI FEAT_GUI_TABLINE FEAT_NETBEANS_INTG FEAT_DND FEAT_AUTOCMD : bool.
Variable key_number : special_key -> Z.

(** *** Colours and attributes *)

(** The table of "standard" colours at the head of [color2index]: the
    argument of [lookup_color] when the triple is one of them. *)
Definition standard_color (red green blue : Z) : option Z :=
  if red =? 0 then
    if green =? 0 then
      if blue =? 0 then Some 0            (* black *)
      else if blue =? 224 then Some 1     (* dark blue *)
      else None
    else if green =? 224 then
      if blue =? 0 then Some 2            (* dark green *)
      else if blue =? 224 then Some 3     (* dark cyan *)
      else None
    else None
  else if red =? 224 then
    if green =? 0 then
      if blue =? 0 then Some 4            (* dark red *)
      else if blue =? 224 then Some 5     (* dark magenta *)
      else None
    else if green =? 224 then
      if blue =? 0 then Some 6            (* dark yellow / brown *)
      else if blue =? 224 then Some 8     (* white / light grey *)
      else None
    else None
  else if red =? 128 then
    if (green =? 128) && (blue =? 128) then Some 12  (* dark grey *)
    else None
  else if red =? 255 then
    if green =? 64 then
      if blue =? 64 then Some 20          (* light red *)
      else if blue =? 255 then Some 22    (* light magenta *)
      else None
    else if green =? 255 then
      if blue =? 64 then Some 24          (* yellow *)
      else if blue =? 255 then Some 26    (* white *)
      else None
    else None
  else if red =? 64 then
    if green =? 64 then
      if blue =? 255 then Some 14         (* light blue *)
      else None
    else if green =? 255 then
      if blue =? 64 then Some 16          (* light green *)
      else if blue =? 255 then Some 18    (* light cyan *)
      else None
    else None
  else None.

(** [static int cutoff[23]]. *)
Definition cutoff : list Z :=
  [0x05; 0x10; 0x1B; 0x26; 0x31; 0x3C; 0x47; 0x52;
   0x5D; 0x68; 0x73; 0x7F; 0x8A; 0x95; 0xA0; 0xAB;
   0xB6; 0xC1; 0xCC; 0xD7; 0xE2; 0xED; 0xF9].

(** [for (i = 0; i < 23; ++i) if (red < cutoff[i]) return i + 233;
    return 256;] from index [i] on. *)
Fixpoint greyscale (i : Z) (cut : list Z) (red : Z) : Z :=
  match cut with
  | [] => 256
  | c :: rest => if red <? c then i + 233 else greyscale (i + 1) rest red
  end.

Definition color2index (color : VTermColor) (foreground : bool) : Z :=
  let red := red color in
  let blue := blue color in
  let green := green color in
  match standard_color red green blue with
  | Some idx => lookup_color idx foreground + 1
  | None =>
      if t_colors >=? 256 then
        if (red =? blue) && (red =? green) then
          greyscale 0 cutoff red
        else
          17 + Z.quot (red + 25) 0x33 * 36
             + Z.quot (green + 25) 0x33 * 6
             + Z.quot (blue + 25) 0x33
      else 0
  end.

Definition cell2attr (cell : VTermScreenCell) : Z :=
  let attr := 0 in
  let attr := if bold (attrs cell) then Z.lor attr HL_BOLD else attr in
  let attr := if underline (attrs cell) then Z.lor attr HL_UNDERLINE else attr in
  let attr := if italic (attrs cell) then Z.lor attr HL_ITALIC else attr in
  let attr := if strike (attrs cell) then Z.lor attr HL_STANDOUT else attr in
  let attr := if reverse (attrs cell) then Z.lor attr HL_INVERSE else attr in
  if gui_in_use then
    get_gui_attr_idx attr
      (gui_mch_get_rgb_color (red (fg cell)) (green (fg cell)) (blue (fg cell)))
      (gui_mch_get_rgb_color (red (bg cell)) (green (bg cell)) (blue (bg cell)))
  else if p_tgc then
    get_tgc_attr_idx attr
      (gui_get_rgb_color_cmn (red (fg cell)) (green (fg cell)) (blue (fg cell)))
      (gui_get_rgb_color_cmn (red (bg cell)) (green (bg cell)) (blue (bg cell)))
  else
    get_cterm_attr_idx attr (color2index (fg cell) true) (color2index (bg cell) false).

(** [term_get_attr(buf, lnum, col)] on the terminal of the buffer. *)
Definition term_get_attr (term : term_T) (lnum : Z) (col : Z) : result Z :=
  if lnum >? Z.of_nat (length (tl_scrollback term)) then Ok 0
  else if lnum - 1 <? 0 then Fault
  else match nth_error (tl_scrollback term) (Z.to_nat (lnum - 1)) with
       | None => Fault
       | Some line =>
           if col >=? sb_cols line then Ok 0
           else if col <? 0 then Fault
           else match sb_cells line with
                | None => Fault
                | Some cells =>
                    match nth_error cells (Z.to_nat col) with
                    | None => Fault
                    | Some cell => Ok (cell2attr cell)
                    end
                end
       end.

(** *** Damage *)

(** The terminal as [ex_terminal] sets it up: [alloc_clear], then the two
    assignments and the empty growarray. *)
Definition alloc_clear_term : term_T :=
  mkTerm None None 0 false false 0 0 false false None None 0 0 [] 0
         (mkPos 0 0) false.

Definition ex_terminal_term : term_T :=
  let term := alloc_clear_term in
  mkTerm (tl_vterm term) (tl_job term) (tl_buffer term) (tl_terminal_mode term)
    (tl_channel_closed term) (tl_rows term) (tl_cols term) (tl_rows_fixed term)
    (tl_cols_fixed term) (tl_title term) (tl_status_text term)
    (tl_dirty_row_start term) MAX_ROW [] (tl_scrollback_scrolled term)
    (tl_cursor_pos term) true.

Definition handle_damage (rect : VTermRect) : M Z :=
  term <- get_term ;;
  put_term (set_dirty term
              (MIN (tl_dirty_row_start term) (start_row rect))
              (MAX (tl_dirty_row_end term) (end_row rect))) ;;;
  emit (redraw_buf_later (tl_buffer term) NOT_VALID) ;;;
  ret 1.

(** *** Job output *)

Definition is_NL (b : option byte) : bool :=
  match b with Some b => Byte.eqb b NL | None => false end.

(** The inner loop of [term_write_job_output]: from offset [p] of [msg],
    advance character by character up to a NL or the end; the result is
    the offset reached. *)
Fixpoint skip_to_NL (fuel : nat) (msg : list byte) (len p : nat) : result nat :=
  match fuel with
  | O => Timeout
  | S fuel' =>
      if Nat.ltb p len then
        match nth_error msg p with
        | None => Fault
        | Some b =>
            if Byte.eqb b NL then Ok p
            else skip_to_NL fuel' msg len
                   (p + utf_ptr2len_len (skipn p msg) (len - p))%nat
        end
      else Ok p
  end.

(** The outer loop, from offset [done].  A write that reaches past
    [msg + len] is an access outside the message. *)
Fixpoint write_chunks (fuel : nat) (vterm : VTerm) (msg : list byte)
    (len done : nat) : result VTerm :=
  match fuel with
  | O => Timeout
  | S fuel' =>
      if Nat.ltb done len then
        match skip_to_NL (S len) msg len done with
        | Ok p =>
            let len_now := (p - done)%nat in
            if Nat.ltb len p then Fault
            else
              let vterm := vterm_input_write vterm (firstn len_now (skipn done msg)) in
              if Nat.ltb p len && is_NL (nth_error msg p) then
                (* Convert NL to CR-NL, that appears to work best. *)
                write_chunks fuel' (vterm_input_write vterm [x0d; x0a]) msg len
                             (done + S len_now)%nat
              else write_chunks fuel' vterm msg len (done + len_now)%nat
        | Fault => Fault
        | Timeout => Timeout
        end
      else Ok vterm
  end.

Definition term_write_job_output (msg : list byte) (len : nat) : M unit :=
  vterm <- the_vterm ;;
  match write_chunks (S len) vterm msg len 0 with
  | Ok vterm =>
      (* this invokes the damage callbacks *)
      term <- get_term ;;
      put_term (set_vterm term (Some (vterm_screen_flush_damage vterm)))
  | Fault => fault
  | Timeout => timeout
  end.

Definition update_cursor (redraw : bool) : M unit :=
  emit setcursor ;;;
  w <- get ;;
  if redraw && (tl_buffer (w_term w) =? w_curbuf w) then
    (if tl_cursor_visible (w_term w) then emit cursor_on else ret tt) ;;;
    emit out_flush ;;;
    (if gui_in_use then emit gui_update_cursor else ret tt)
  else ret tt.

(** [write_to_term(buffer, msg, channel)] for the buffer of the terminal;
    [STRLEN(msg)] is the length of the list. *)
Definition write_to_term (msg : list byte) : M unit :=
  let len := length msg in
  term <- get_term ;;
  match tl_vterm term with
  | None => emit (ch_logn (LogNotWriting (Z.of_nat len)))
  | Some _ =>
      emit (ch_logn (LogWriting (Z.of_nat len))) ;;;
      term_write_job_output msg len ;;;
      emit update_screen ;;;
      update_cursor true
  end.

(** *** Keys *)

Definition put_vterm (vt : VTerm) : M unit :=
  term <- get_term ;; put_term (set_vterm term (Some vt)).

Definition term_send_mouse (button : Z) (pressed : bool) : M bool :=
  vterm <- the_vterm ;;
  w <- get ;;
  let vterm := vterm_mouse_move vterm (mouse_row w - w_winrow (curwin w))
                 (mouse_col w - w_wincol (curwin w)) VTERM_MOD_NONE in
  put_vterm (vterm_mouse_button vterm button pressed VTERM_MOD_NONE) ;;;
  ret true.

(** Where the [switch] of [term_convert_key] leaves: it has returned 0
    (after starting or ending a paste, for the two paste keys), or it goes
    on with a character, an engine key and a modifier; a mouse event is
    sent from inside the switch. *)
Inductive switch_exit :=
| Return0
| Paste (start : bool)
| Go (c : Z) (key : VTermKey) (md : VTermModifier)
| Mouse (button : Z) (pressed : bool).

Definition special_switch (k : special_key) : switch_exit :=
  let dflt := Go (key_number k) VTERM_KEY_NONE VTERM_MOD_NONE in
  let sym key := Go (key_number k) key VTERM_MOD_NONE in
  let shift key := Go (key_number k) key VTERM_MOD_SHIFT in
  let ctrl key := Go (key_number k) key VTERM_MOD_CTRL in
  match k with
  | K_BS => Go BS VTERM_KEY_NONE VTERM_MOD_NONE
  | K_DEL => sym VTERM_KEY_DEL
  | K_DOWN => sym VTERM_KEY_DOWN
  | K_S_DOWN => shift VTERM_KEY_DOWN
  | K_END => sym VTERM_KEY_END
  | K_S_END => shift VTERM_KEY_END
  | K_C_END => ctrl VTERM_KEY_END
  | K_F10 => sym (VTERM_KEY_FUNCTION 10)
  | K_F11 => sym (VTERM_KEY_FUNCTION 11)
  | K_F12 => sym (VTERM_KEY_FUNCTION 12)
  | K_F1 => sym (VTERM_KEY_FUNCTION 1)
  | K_F2 => sym (VTERM_KEY_FUNCTION 2)
  | K_F3 => sym (VTERM_KEY_FUNCTION 3)
  | K_F4 => sym (VTERM_KEY_FUNCTION 4)
  | K_F5 => sym (VTERM_KEY_FUNCTION 5)
  | K_F6 => sym (VTERM_KEY_FUNCTION 6)
  | K_F7 => sym (VTERM_KEY_FUNCTION 7)
  | K_F8 => sym (VTERM_KEY_FUNCTION 8)
  | K_F9 => sym (VTERM_KEY_FUNCTION 9)
  | K_HOME => sym VTERM_KEY_HOME
  | K_S_HOME => shift VTERM_KEY_HOME
  | K_C_HOME => ctrl VTERM_KEY_HOME
  | K_INS => sym VTERM_KEY_INS
  | K_K0 => sym VTERM_KEY_KP_0
  | K_K1 => sym VTERM_KEY_KP_1
  | K_K2 => sym VTERM_KEY_KP_2
  | K_K3 => sym VTERM_KEY_KP_3
  | K_K4 => sym VTERM_KEY_KP_4
  | K_K5 => sym VTERM_KEY_KP_5
  | K_K6 => sym VTERM_KEY_KP_6
  | K_K7 => sym VTERM_KEY_KP_7
  | K_K8 => sym VTERM_KEY_KP_8
  | K_K9 => sym VTERM_KEY_KP_9
  | K_KDEL => sym VTERM_KEY_DEL
  | K_KDIVIDE => sym VTERM_KEY_KP_DIVIDE
  | K_KEND => sym VTERM_KEY_KP_1
  | K_KENTER => sym VTERM_KEY_KP_ENTER
  | K_KHOME => sym VTERM_KEY_KP_7
  | K_KINS => sym VTERM_KEY_KP_0
  | K_KMINUS => sym VTERM_KEY_KP_MINUS
  | K_KMULTIPLY => sym VTERM_KEY_KP_MULT
  | K_KPAGEDOWN => sym VTERM_KEY_KP_3
  | K_KPAGEUP => sym VTERM_KEY_KP_9
  | K_KPLUS => sym VTERM_KEY_KP_PLUS
  | K_KPOINT => sym VTERM_KEY_KP_PERIOD
  | K_LEFT => sym VTERM_KEY_LEFT
  | K_S_LEFT => shift VTERM_KEY_LEFT
  | K_C_LEFT => ctrl VTERM_KEY_LEFT
  | K_PAGEDOWN => sym VTERM_KEY_PAGEDOWN
  | K_PAGEUP => sym VTERM_KEY_PAGEUP
  | K_RIGHT => sym VTERM_KEY_RIGHT
  | K_S_RIGHT => shift VTERM_KEY_RIGHT
  | K_C_RIGHT => ctrl VTERM_KEY_RIGHT
  | K_UP => sym VTERM_KEY_UP
  | K_S_UP => shift VTERM_KEY_UP
  | K_MOUSEUP => Mouse 5 true
  | K_MOUSEDOWN => Mouse 4 true
  | K_MOUSELEFT => Return0
  | K_MOUSERIGHT => Return0
  | K_LEFTMOUSE | K_LEFTMOUSE_NM => Mouse 1 true
  | K_LEFTDRAG => Mouse 1 true
  | K_LEFTRELEASE | K_LEFTRELEASE_NM => Mouse 1 false
  | K_MIDDLEMOUSE => Mouse 2 true
  | K_MIDDLEDRAG => Mouse 2 true
  | K_MIDDLERELEASE => Mouse 2 false
  | K_RIGHTMOUSE => Mouse 3 true
  | K_RIGHTDRAG => Mouse 3 true
  | K_RIGHTRELEASE => Mouse 3 false
  | K_X1MOUSE | K_X1DRAG | K_X1RELEASE => Return0
  | K_X2MOUSE | K_X2DRAG | K_X2RELEASE => Return0
  | K_IGNORE | K_NOP | K_UNDO | K_HELP => Return0
  | K_XF1 => sym (VTERM_KEY_FUNCTION 1)
  | K_XF2 => sym (VTERM_KEY_FUNCTION 2)
  | K_XF3 => sym (VTERM_KEY_FUNCTION 3)
  | K_XF4 => sym (VTERM_KEY_FUNCTION 4)
  | K_SELECT => Return0
  | K_VER_SCROLLBAR | K_HOR_SCROLLBAR => if FEAT_GUI then Return0 else dflt
  | K_TABLINE | K_TABMENU => if FEAT_GUI_TABLINE then Return0 else dflt
  | K_F21 => if FEAT_NETBEANS_INTG then sym (VTERM_KEY_FUNCTION 21) else dflt
  | K_DROP => if FEAT_DND then Return0 else dflt
  | K_CURSORHOLD => if FEAT_AUTOCMD then Return0 else dflt
  | K_PS => Paste true
  | K_PE => Paste false
  | K_ZERO => dflt
  end.

Definition convert_switch (c : key) : switch_exit :=
  match c with
  | Char c =>
      if c =? CAR then Go c VTERM_KEY_ENTER VTERM_MOD_NONE
      else if c =? ESC then Go c VTERM_KEY_ESCAPE VTERM_MOD_NONE
      else if c =? TAB then Go c VTERM_KEY_TAB VTERM_MOD_NONE
      else Go c VTERM_KEY_NONE VTERM_MOD_NONE
  | Special k => special_switch k
  end.

Definition is_VTERM_KEY_NONE (k : VTermKey) : bool :=
  match k with VTERM_KEY_NONE => true | _ => false end.

(** Read back the converted escape sequence:
    [return (int)vterm_output_read(vterm, buf, KEY_BUF_LEN)].  The result
    holds the bytes written to [buf] and the returned number. *)
Definition read_back : M (list byte * Z) :=
  vterm <- the_vterm ;;
  let '(vterm, buf, n) := vterm_output_read vterm KEY_BUF_LEN in
  put_vterm vterm ;;;
  ret (buf, n).

Definition term_convert_key (c : key) : M (list byte * Z) :=
  match convert_switch c with
  | Return0 => ret ([], 0)
  | Paste start =>
      vterm <- the_vterm ;;
      put_vterm (if start then vterm_keyboard_start_paste vterm
                 else vterm_keyboard_end_paste vterm) ;;;
      ret ([], 0)
  | Mouse button pressed =>
      term_send_mouse button pressed ;;;
      read_back
  | Go c key md =>
      vterm <- the_vterm ;;
      (if negb (is_VTERM_KEY_NONE key) then
         (* Special key, let vterm convert it. *)
         put_vterm (vterm_keyboard_key vterm key md)
       else
         (* Normal character, let vterm convert it. *)
         put_vterm (vterm_keyboard_unichar vterm c md)) ;;;
      read_back
  end.

Definition term_job_running (term : term_T) : bool :=
  match tl_job term with
  | None => false
  | Some job =>
      match jv_status job with
      | JOB_STARTED => jv_channel_open job
      | _ => false
      end
  end.

(** *** Scrollback *)

(** [for (i = 0; (c = chars[i]) > 0 || i == 0; ++i)] with
    [mb_char2bytes(c == NUL ? ' ' : c, ...)]: the bytes of one cell. *)
Fixpoint cell_bytes (i : nat) (chars : list Z) : list byte :=
  match chars with
  | [] => if Nat.eqb i 0 then mb_char2bytes 32 else []
  | c :: rest =>
      if (c >? 0) || Nat.eqb i 0
      then mb_char2bytes (if c =? NUL then 32 else c) ++ cell_bytes (S i) rest
      else []
  end.

(** The loop over the columns of [add_scrollback_line_to_buffer]: [None]
    is the jump to [failed]. *)
Fixpoint line_text (fuel : nat) (line : sb_line_T) (col : Z) (ga : list byte)
    : M (option (list byte)) :=
  if col <? sb_cols line then
    match fuel with
    | O => timeout
    | S fuel' =>
        grown <- alloc_request ;;
        if negb grown then ret None
        else
          match sb_cells line with
          | None => fault
          | Some cells =>
              if col <? 0 then fault
              else match nth_error cells (Z.to_nat col) with
                   | None => fault
                   | Some cell =>
                       line_text fuel' line (col + width cell)
                                 (ga ++ cell_bytes 0 (chars cell))
                   end
          end
    end
  else ret (Some ga).

(** Add the last line of the scrollback buffer to the buffer in the
    window. *)
Definition add_scrollback_line_to_buffer : M unit :=
  term <- get_term ;;
  let lnum := Z.of_nat (length (tl_scrollback term)) - 1 in
  match nth_error (tl_scrollback term) (Z.to_nat lnum) with
  | None => fault
  | Some line =>
      if lnum <? 0 then fault
      else
        text <- line_text (Z.to_nat (sb_cols line)) line 0 [] ;;
        match text with
        | None => ret tt
        | Some ga =>
            grown <- alloc_request ;;
            if negb grown then ret tt
            else
              ml_append_buf lnum ga ;;;
              if lnum =? 0 then
                (* Delete the empty line that was in the empty buffer. *)
                ml_delete 2
              else ret tt
        end
  end.

(** The columns [0 .. n-1] of a [for] loop. *)
Definition upto (n : Z) : list Z := map Z.of_nat (seq 0 (Z.to_nat n)).

(** [len] after the loop over the columns of a row of the screen. *)
Definition row_len (vterm : VTerm) (cols : Z) (r : Z) : Z :=
  fold_left
    (fun len c =>
       match vterm_screen_get_cell vterm (mkPos r c) with
       | Some cell => if negb (chars0 cell =? NUL) then c + 1 else len
       | None => len
       end)
    (upto cols) 0.

(** The cells copied to [p]. *)
Definition row_cells (vterm : VTerm) (r : Z) (len : Z) : list VTermScreenCell :=
  map (fun c => match vterm_screen_get_cell vterm (mkPos r c) with
                | None => zero_cell
                | Some cell => cell
                end)
      (upto len).

Definition push_scrollback (line : sb_line_T) (scrolled : Z) : M unit :=
  term <- get_term ;;
  put_term (set_scrollback term (tl_scrollback term ++ [line])
              (tl_scrollback_scrolled term + scrolled)).

(** [while (lines_skipped > 0)], the count being what is left to add. *)
Fixpoint add_skipped_lines (lines_skipped : nat) : M unit :=
  match lines_skipped with
  | O => ret tt
  | S n =>
      (* Line was skipped, add an empty line. *)
      grown <- alloc_request ;;
      (if grown then
         push_scrollback (mkLine 0 None) 0 ;;;
         add_scrollback_line_to_buffer
       else ret tt) ;;;
      add_skipped_lines n
  end.

(** The loop over the rows of [move_terminal_to_buffer]. *)
Fixpoint move_rows (vterm : VTerm) (rows : list Z) (lines_skipped : Z) : M unit :=
  match rows with
  | [] => ret tt
  | r :: rest =>
      term <- get_term ;;
      let len := row_len vterm (tl_cols term) r in
      if len =? 0 then move_rows vterm rest (lines_skipped + 1)
      else
        add_skipped_lines (Z.to_nat lines_skipped) ;;;
        p <- alloc_request ;;
        (if p then
           grown <- alloc_request ;;
           if grown then
             push_scrollback (mkLine len (Some (row_cells vterm r len))) 0 ;;;
             add_scrollback_line_to_buffer
           else ret tt
         else ret tt) ;;;
        move_rows vterm rest 0
  end.

Definition move_window_cursor (buf : Z) (lnum : Z) (wp : win_T) : win_T :=
  if w_buffer wp =? buf then
    mkWin (w_buffer wp) (w_height wp) (w_width wp) (w_winrow wp) (w_wincol wp)
          lnum 0 (w_wrow wp) (w_wcol wp)
  else wp.

(** Add the current lines of the terminal to scrollback and to the
    buffer. *)
Definition move_terminal_to_buffer : M unit :=
  vterm <- the_vterm ;;
  term <- get_term ;;
  move_rows vterm (upto (tl_rows term)) 0 ;;;
  w <- get ;;
  put (with_events
         (with_wins w (map (move_window_cursor (tl_buffer term) (ml_line_count w))
                           (w_wins w)))
         (w_events w
          ++ map (fun _ => redraw_win_later NOT_VALID)
                 (filter (fun wp => w_buffer wp =? tl_buffer term) (w_wins w)))).

Definition set_terminal_mode (on : bool) : M unit :=
  term <- get_term ;;
  put_term (set_mode_and_status term on) ;;;
  w <- get ;;
  if tl_buffer term =? w_curbuf w then emit maketitle else ret tt.

Definition term_free_vterm : M unit :=
  term <- get_term ;;
  put_term (set_vterm term None).

Definition cleanup_vterm : M unit :=
  move_terminal_to_buffer ;;;
  term_free_vterm ;;;
  set_terminal_mode false.

(** [term_T *term = curbuf->b_term]: using it when the current buffer is
    not the buffer of the terminal is a NULL dereference. *)
Definition curbuf_b_term : M term_T :=
  w <- get ;;
  if tl_buffer (w_term w) =? w_curbuf w then ret (w_term w) else fault.

Definition term_enter_terminal_mode : M unit :=
  curbuf_b_term ;;;
  (* Append the current terminal contents to the buffer. *)
  move_terminal_to_buffer ;;;
  set_terminal_mode true.

(** The loop of [term_leave_terminal_mode].  Reading the line before the
    first one of the scrollback is an invalid access. *)
Fixpoint remove_terminal_lines (fuel : nat) : M unit :=
  w <- get ;;
  if ml_line_count w >? tl_scrollback_scrolled (w_term w) then
    match fuel with
    | O => timeout
    | S fuel' =>
        ml_delete (ml_line_count w) ;;;
        term <- get_term ;;
        match tl_scrollback term with
        | [] => fault
        | _ :: _ =>
            put_term (set_scrollback term (removelast (tl_scrollback term))
                        (tl_scrollback_scrolled term)) ;;;
            term <- get_term ;;
            if Z.of_nat (length (tl_scrollback term)) =? 0 then ret tt
            else remove_terminal_lines fuel'
        end
    end
  else ret tt.

Definition term_leave_terminal_mode : M unit :=
  term <- curbuf_b_term ;;
  (* Remove the terminal contents from the scrollback and the buffer. *)
  remove_terminal_lines (S (length (tl_scrollback term))) ;;;
  emit check_cursor ;;;
  set_terminal_mode false ;;;
  term <- get_term ;;
  (if tl_channel_closed term then cleanup_vterm else ret tt) ;;;
  w <- get ;;
  emit (redraw_buf_and_status_later (w_curbuf w) NOT_VALID).

(** The line that [handle_pushline] stores: its width [len] and the copy
    [p] of the cells.  [cells] must hold [cols] cells. *)
Definition pushed_line (cols : Z) (cells : list VTermScreenCell) : M sb_line_T :=
  if cols >? Z.of_nat (length cells) then fault
  else
    (* do not store empty cells at the end *)
    let len :=
      fold_left (fun len i =>
                   if negb (chars0 (nth (Z.to_nat i) cells zero_cell) =? 0)
                   then i + 1 else len)
                (upto cols) 0 in
    p <- (if len >? 0 then
            got <- alloc_request ;;
            ret (if got then Some (firstn (Z.to_nat len) cells) else None)
          else ret None) ;;
    ret (mkLine len p).

(** Handle a line that is pushed off the top of the screen. *)
Definition handle_pushline (cols : Z) (cells : list VTermScreenCell) : M Z :=
  grown <- alloc_request ;;
  (if grown then
     line <- pushed_line cols cells ;;
     push_scrollback line 1 ;;;
     add_scrollback_line_to_buffer
   else ret tt) ;;;
  ret 0.

(** *** Sending keys *)

Definition is_drag (k : special_key) : bool :=
  match k with
  | K_LEFTDRAG | K_MIDDLEDRAG | K_RIGHTDRAG | K_X1DRAG | K_X2DRAG => true
  | _ => false
  end.

Definition is_click_or_release (k : special_key) : bool :=
  match k with
  | K_LEFTMOUSE | K_LEFTMOUSE_NM | K_LEFTRELEASE | K_LEFTRELEASE_NM
  | K_MIDDLEMOUSE | K_MIDDLERELEASE | K_RIGHTMOUSE | K_RIGHTRELEASE
  | K_X1MOUSE | K_X1RELEASE | K_X2MOUSE | K_X2RELEASE => true
  | _ => false
  end.

Definition mouse_outside (w : world) (dragging_outside : bool) : bool :=
  (mouse_row w <? w_winrow (curwin w))
  || (mouse_row w >=? w_winrow (curwin w) + w_height (curwin w))
  || (mouse_col w <? w_wincol (curwin w))
  || (mouse_col w >=? w_wincol (curwin w) + w_width (curwin w))
  || dragging_outside.

(** The keys that the first [switch] of [send_keys_to_term] catches:
    [Some r] when the function returns there ([false] is FAIL). *)
Definition catch_normal_mode_keys (c : key) (typed : bool) : M (option bool) :=
  match c with
  | Char 0 | Special K_ZERO =>
      (if typed then emit (stuffcharReadbuff c) else ret tt) ;;;
      ret (Some false)
  | Special K_IGNORE => ret (Some false)
  | Special k =>
      if is_drag k || is_click_or_release k then
        w <- get ;;
        let dragging_outside := if is_drag k then mouse_was_outside w else false in
        if mouse_outside w dragging_outside then
          (* click outside the current window *)
          (if typed then
             emit (stuffcharReadbuff c) ;;;
             w <- get ;; put (with_mouse_was_outside w true)
           else ret tt) ;;;
          ret (Some false)
        else ret None
      else ret None
  | Char _ => ret None
  end.

(** Send keys to terminal: [true] is OK. *)
Definition send_keys_to_term (c : key) (typed : bool) : M bool :=
  caught <- catch_normal_mode_keys c typed ;;
  match caught with
  | Some r => ret r
  | None =>
      (if typed then w <- get ;; put (with_mouse_was_outside w false) else ret tt) ;;;
      (* Convert the typed key to a sequence of bytes for the job. *)
      r <- term_convert_key c ;;
      let '(msg, len) := r in
      (if len >? 0 then
         term <- get_term ;;
         match tl_job term with
         | None => fault
         | Some _ => emit (channel_send msg)
         end
       else ret tt) ;;;
      ret true
  end.




(** *** Window update *)

(** The size that [term_update_window] hands to [vterm_set_size]: the
    start values taken from [wp] and the loop over all windows. *)
Definition negotiated_size (term : term_T) (wp : win_T) (wins : list win_T) : Z * Z :=
  let rows := if tl_rows_fixed term then tl_rows term else w_height wp in
  let cols := if tl_cols_fixed term then tl_cols term else w_width wp in
  fold_left
    (fun rc twp =>
       (* When more than one window shows the same terminal, use the
          smallest size. *)
       if w_buffer twp =? tl_buffer term then
         let rows := if negb (tl_rows_fixed term) && (fst rc >? w_height twp)
                     then w_height twp else fst rc in
         let cols := if negb (tl_cols_fixed term) && (snd rc >? w_width twp)
                     then w_width twp else snd rc in
         (rows, cols)
       else rc)
    wins (rows, cols).

Definition needs_resize (term : term_T) (wp : win_T) : bool :=
  (negb (tl_rows_fixed term) && negb (tl_rows term =? w_height wp))
  || (negb (tl_cols_fixed term) && negb (tl_cols term =? w_width wp)).

(** [term_update_window(wp)] up to the point where the cells are drawn;
    [true] is OK, [false] is FAIL.  The drawing of the cells into
    [ScreenLines] is not part of the model. *)
Definition term_update_window (wp : win_T) : M bool :=
  w <- get ;;
  let term := w_term w in
  if negb (w_buffer wp =? tl_buffer term) then ret false
  else match tl_vterm term with
       | None => ret false
       | Some _ =>
           if tl_terminal_mode term then ret false
           else
             (if needs_resize term wp then
                let '(rows, cols) := negotiated_size term wp (w_wins w) in
                emit (vterm_set_size rows cols) ;;;
                match tl_job term with
                | None => fault
                | Some _ => emit (ch_logn (LogResizing rows))
                end ;;;
                emit (term_report_winsize rows cols)
              else ret tt) ;;;
             ret true
       end.

(** *** Sequences of callbacks *)

(** The damage callbacks of [rects], delivered in order. *)
Fixpoint handle_damages (rects : list VTermRect) : M unit :=
  match rects with
  | [] => ret tt
  | rect :: rest => handle_damage rect ;;; handle_damages rest
  end.

(** The push-line callbacks of [lines] (the [cols] and [cells] of each),
    delivered in order. *)
Fixpoint handle_pushlines (lines : list (Z * list VTermScreenCell)) : M unit :=
  match lines with
  | [] => ret tt
  | (cols, cells) :: rest => handle_pushline cols cells ;;; handle_pushlines rest
  end.

Definition dirty_range (term : term_T) : Z * Z :=
  (tl_dirty_row_start term, tl_dirty_row_end term).

(** ** Notions of the specification *)

(** The smallest of [init] and the numbers of a list, and the largest. *)
Definition min_with (init : Z) (l : list Z) : Z := fold_right Z.min init l.
Definition max_with (init : Z) (l : list Z) : Z := fold_right Z.max init l.

(** [x / d] rounded to the nearest integer (halves upwards), for [d > 0]. *)
Definition round_div (x d : Z) : Z := (2 * x + d) / (2 * d).

(** How many of the breakpoints are at or below a grey level. *)
Definition breakpoints_below (red : Z) : Z :=
  Z.of_nat (length (filter (fun c => c <=? red) cutoff)).

(** The windows that show the terminal. *)
Definition observers (term : term_T) (wins : list win_T) : list win_T :=
  filter (fun twp => w_buffer twp =? tl_buffer term) wins.


(** The keys for which the [switch] of [term_convert_key] returns 0
    whatever the features compiled in. *)
Definition dropped_keys : list special_key :=
  [K_MOUSELEFT; K_MOUSERIGHT; K_X1MOUSE; K_X1DRAG; K_X1RELEASE;
   K_X2MOUSE; K_X2DRAG; K_X2RELEASE; K_IGNORE; K_NOP; K_UNDO; K_HELP;
   K_SELECT].

(** The writes that feeding [msg] is to make, [seg] being the bytes seen
    since the last line feed: the bytes up to a line feed in one write,
    the line feed as the two bytes CR NL in the next, and the bytes after
    the last line feed, when there are any, in a last write. *)
Fixpoint expected_writes (seg : list byte) (msg : list byte) : list vterm_call :=
  match msg with
  | [] => match seg with [] => [] | _ => [InputWrite seg] end
  | b :: rest =>
      if Byte.eqb b NL
      then InputWrite seg :: InputWrite [x0d; x0a] :: expected_writes [] rest
      else expected_writes (seg ++ [b]) rest
  end.

(** Every line feed replaced by carriage return, line feed. *)
Definition crlf (msg : list byte) : list byte :=
  flat_map (fun b => if Byte.eqb b NL then [x0d; x0a] else [b]) msg.

(** The bytes that a sequence of calls feeds to the engine. *)
Definition fed_bytes (calls : list vterm_call) : list byte :=
  flat_map (fun c => match c with InputWrite bytes => bytes | FlushDamage => [] end)
           calls.

(** The number of bytes before the first line feed. *)
Fixpoint first_NL (l : list byte) : nat :=
  match l with
  | [] => O
  | b :: rest => if Byte.eqb b NL then O else S (first_NL rest)
  end.

(** What the loop needs of [utf_ptr2len_len] on a message: at a byte that
    is no line feed it gives a length of at least 1 that stays inside the
    message and covers no line feed. *)
Definition utf_fits (msg : list byte) : Prop :=
  forall p b, nth_error msg p = Some b -> b <> NL ->
    (1 <= utf_ptr2len_len (skipn p msg) (length msg - p)
     <= first_NL (skipn p msg))%nat.

(** ** Conditions on the state *)

(** No allocation request that is still to come fails. *)
Definition alloc_ok (w : world) : Prop := Forall (fun b => b = true) (w_alloc w).

(** The engine gives every cell a width of at least 1. *)
Definition cells_ok (cells : list VTermScreenCell) : Prop :=
  Forall (fun cell => 1 <= width cell) cells.

Definition screen_ok (vt : VTerm) : Prop := Forall cells_ok (vt_screen vt).

(** A line of the scrollback that holds its cells, each at least 1 wide. *)
Definition line_ok (line : sb_line_T) : Prop :=
  match sb_cells line with
  | None => sb_cols line = 0
  | Some cells => sb_cols line = Z.of_nat (length cells) /\ cells_ok cells
  end.

(** The worlds agree except in the allocation outcomes to come. *)
Definition same_but_alloc (w w' : world) : Prop := with_alloc w' [] = with_alloc w [].

(** The buffer of a terminal and its scrollback in step: an empty
    scrollback with the one line of an empty buffer, or as many lines as
    the scrollback has. *)
Definition in_step (w : world) : Prop :=
  let g := Z.of_nat (length (tl_scrollback (w_term w))) in
  (g = 0 /\ ml_line_count w = 1) \/ (1 <= g /\ ml_line_count w = g).

(** ** The flush, as the specification words it *)

Definition empty_line : sb_line_T := mkLine 0 None.

(** The line stored for a row of the screen that is not empty. *)
Definition stored_row (vterm : VTerm) (cols : Z) (r : Z) : sb_line_T :=
  mkLine (row_len vterm cols r) (Some (row_cells vterm r (row_len vterm cols r))).

(** The lines that flushing the rows of the screen is to store: a row
    that is not empty gives its line; an empty row gives one zero-width
    line when a row that is not empty follows it, and nothing when only
    empty rows follow. *)
Fixpoint flushed_lines (vterm : VTerm) (cols : Z) (rows : list Z) : list sb_line_T :=
  match rows with
  | [] => []
  | r :: rest =>
      let later := flushed_lines vterm cols rest in
      if row_len vterm cols r =? 0 then
        match later with
        | [] => []
        | _ :: _ => empty_line :: later
        end
      else stored_row vterm cols r :: later
  end.

(** The world after one allocation request. *)
Definition after_alloc (w : world) : world :=
  match w_alloc w with
  | [] => w
  | _ :: rest => with_alloc w rest
  end.

(** The terminal with [new] lines added to its scrollback. *)
Definition grow_sb (t : term_T) (new : list sb_line_T) (scrolled : Z) : term_T :=
  set_scrollback t (tl_scrollback t ++ new) (tl_scrollback_scrolled t + scrolled).

(** What a row of the screen is stored as, when it is stored. *)
Definition capture (vterm : VTerm) (cols : Z) (r : Z) : sb_line_T :=
  if row_len vterm cols r =? 0 then empty_line else stored_row vterm cols r.

(** What a step of the flush may do to the terminal whatever the
    allocations give: add lines that hold their cells. *)
Definition adds_good_lines (w w' : world) : Prop :=
  exists new, w_term w' = grow_sb (w_term w) new 0 /\ Forall line_ok new.

(** The skipped lines that are pending before the lines [fl] of the
    rows still to come. *)
Definition pending (lines_skipped : Z) (fl : list sb_line_T) : list sb_line_T :=
  match fl with
  | [] => []
  | _ :: _ => repeat empty_line (Z.to_nat lines_skipped) ++ fl
  end.

(** A push-line event the engine can deliver: [cells] holds at least
    [cols] cells, each at least 1 wide. *)
Definition pushline_ok (ev : Z * list VTermScreenCell) : Prop :=
  fst ev <= Z.of_nat (length (snd ev)) /\ cells_ok (snd ev).

(** The number of cells the engine has in a row of its grid. *)
Definition row_width (vt : VTerm) (r : Z) : Z :=
  if r <? 0 then 0
  else match nth_error (vt_screen vt) (Z.to_nat r) with
       | Some cells => Z.of_nat (length cells)
       | None => 0
       end.

(** ** A terminal that has just been started *)

Definition blank_cell : VTermScreenCell :=
  mkCell [0] 1 no_attrs (mkColor 224 224 224) (mkColor 0 0 0).

Definition letter_cell (c : Z) : VTermScreenCell :=
  mkCell [c] 1 no_attrs (mkColor 224 224 224) (mkColor 0 0 0).

Definition blank_screen (rows cols : nat) : list (list VTermScreenCell) :=
  repeat (repeat blank_cell cols) rows.

(** The terminal of [ex_terminal] once the job runs: the buffer is
    number 1, the engine has the given screen and the size is stored. *)
Definition started_term (screen : list (list VTermScreenCell)) (rows cols : Z) : term_T :=
  let term := ex_terminal_term in
  mkTerm (Some (mkVTerm screen [] [])) (Some (mkJob JOB_STARTED true)) 1
    (tl_terminal_mode term) (tl_channel_closed term) rows cols
    (tl_rows_fixed term) (tl_cols_fixed term) (tl_title term)
    (tl_status_text term) (tl_dirty_row_start term) (tl_dirty_row_end term)
    (tl_scrollback term) (tl_scrollback_scrolled term) (tl_cursor_pos term)
    (tl_cursor_visible term).

(** Its world: the new buffer holds its one empty line and is shown in
    the current window. *)
Definition started_world (screen : list (list VTermScreenCell)) (rows cols : Z)
    (alloc : list bool) : world :=
  mkWorld (started_term screen rows cols) [[]]
          [mkWin 1 rows cols 0 0 1 0 0 0] 0 1 alloc [] 0 0 false.

(** A terminal of 30 rows shown in two windows of the given heights,
    the first being the current one. *)
Definition two_window_world (h1 h2 : Z) : world :=
  mkWorld (started_term (blank_screen 2 3) 30 80) [[]]
          [mkWin 1 h1 80 0 0 1 0 0 0; mkWin 1 h2 80 31 0 1 0 0 0]
          0 1 [] [] 0 0 false.

(** A screen whose first row starts with a letter. *)
Definition letter_screen : list (list VTermScreenCell) :=
  [[letter_cell 65; blank_cell; blank_cell]; [blank_cell; blank_cell; blank_cell]].

(** A terminal whose job has ended and whose engine is freed, with one
    line in the scrollback. *)
Definition finished_term : term_T :=
  mkTerm None (Some (mkJob JOB_ENDED false)) 1 false true 2 3 false false None None
         0 MAX_ROW [mkLine 1 (Some [letter_cell 65])] 0 (mkPos 0 0) true.

Definition finished_world : world :=
  mkWorld finished_term [[x41]] [mkWin 1 2 3 0 0 1 0 0 0] 0 1 [] [] 0 0 false.

(** ** The session: callbacks, the end of the job, status *)

(** More of Vim that terminal.c calls and that is not among the sources.
    [cursor_off], [redraw_statuslines] and [ins_char_typebuf] act on the
    screen and on the typeahead buffer, which [world] does not hold. *)
Variable cursor_off : M unit.
Variable redraw_statuslines : M unit.
Variable ins_char_typebuf : key -> M unit.
(** The flags [VALID_WCOL] and [VALID_WROW] of a window's [w_valid]. *)
Variables VALID_WCOL VALID_WROW : Z.
(** The macro [_()]: a message in the language of the user. *)
Variable gettext : list byte -> list byte.
(** [vim_snprintf(str, str_m, fmt, ...)]: from the size [str_m] and the
    text that the format gives, the string left in [str]. *)
Variable vim_snprintf : Z -> list byte -> list byte.
(** [MB_MAXBYTES], and [vterm_screen_get_text(screen, str, len, rect)]
    of the engine: the bytes it writes to [str]; their number is what it
    returns. *)
Variable MB_MAXBYTES : Z.
Variable vterm_screen_get_text : VTerm -> Z -> VTermRect -> list byte.

(** A call that returns and changes nothing but the record of calls. *)
Definition only_calls {A} (m : M A) : Prop :=
  forall w, exists a w', m w = Ok (a, w') /\ with_events w' [] = with_events w [].

(** [buf->b_term] for the buffer with number [buf]: NULL when the buffer
    is not the one of the terminal. *)
Definition b_term (w : world) (buf : Z) : option term_T :=
  if tl_buffer (w_term w) =? buf then Some (w_term w) else None.

Definition is_NULL {A} (p : option A) : bool :=
  match p with None => true | Some _ => false end.

(** [STRLEN] of a string kept as its bytes before the NUL. *)
Definition STRLEN (s : list byte) : Z := Z.of_nat (length s).

(** [vim_strsave(string)]: a copy in allocated memory, NULL when there is
    no memory. *)
Definition vim_strsave (s : list byte) : M (option (list byte)) :=
  p <- alloc_request ;;
  ret (if p then Some s else None).

(** *** The cursor *)

(** [position_cursor(wp, pos)].  [w_valid] is not among the fields of
    [win_T] kept above: it is passed and returned beside the window. *)
Definition position_cursor (wp : win_T) (w_valid : Z) (pos : VTermPos) : win_T * Z :=
  (mkWin (w_buffer wp) (w_height wp) (w_width wp) (w_winrow wp) (w_wincol wp)
         (w_cursor_lnum wp) (w_cursor_col wp)
         (MIN (row pos) (MAX 0 (w_height wp - 1)))
         (MIN (col pos) (MAX 0 (w_width wp - 1))),
   Z.lor w_valid (Z.lor VALID_WCOL VALID_WROW)).

Definition may_toggle_cursor : M unit :=
  w <- get ;;
  if w_curbuf w =? tl_buffer (w_term w) then
    if tl_cursor_visible (w_term w) then emit cursor_on else cursor_off
  else ret tt.

Definition set_cursor (t : term_T) (pos : VTermPos) (visible : bool) : term_T :=
  mkTerm (tl_vterm t) (tl_job t) (tl_buffer t) (tl_terminal_mode t)
    (tl_channel_closed t) (tl_rows t) (tl_cols t) (tl_rows_fixed t)
    (tl_cols_fixed t) (tl_title t) (tl_status_text t) (tl_dirty_row_start t)
    (tl_dirty_row_end t) (tl_scrollback t) (tl_scrollback_scrolled t)
    pos visible.

(** [FOR_ALL_WINDOWS(wp) if (wp->w_buffer == term->tl_buffer)
    position_cursor(wp, &pos);] over the windows from number [i] on;
    [w_valid j] is the [w_valid] of window [j]. *)
Fixpoint position_cursors (buf : Z) (pos : VTermPos) (i : nat) (wins : list win_T)
    (w_valid : nat -> Z) : list win_T * (nat -> Z) :=
  match wins with
  | [] => ([], w_valid)
  | wp :: rest =>
      if w_buffer wp =? buf then
        let '(wp', v) := position_cursor wp (w_valid i) pos in
        let '(rest', w_valid') :=
          position_cursors buf pos (S i) rest
            (fun j => if Nat.eqb j i then v else w_valid j) in
        (wp' :: rest', w_valid')
      else
        let '(rest', w_valid') := position_cursors buf pos (S i) rest w_valid in
        (wp :: rest', w_valid')
  end.

Definition handle_moverect (dest src : VTermRect) : M Z :=
  term <- get_term ;;
  (* TODO *)
  emit (redraw_buf_later (tl_buffer term) NOT_VALID) ;;;
  ret 1.

Definition handle_movecursor (pos oldpos : VTermPos) (visible : bool)
    (w_valid : nat -> Z) : M (Z * (nat -> Z)) :=
  term <- get_term ;;
  put_term (set_cursor term pos visible) ;;;
  w <- get ;;
  let '(wins, w_valid) := position_cursors (tl_buffer term) pos 0 (w_wins w) w_valid in
  put (with_wins w wins) ;;;
  (if tl_buffer term =? w_curbuf w then
     may_toggle_cursor ;;;
     term <- get_term ;;
     update_cursor (tl_cursor_visible term)
   else ret tt) ;;;
  ret (1, w_valid).

(** *** Title and status *)

(** The properties of the engine ([VTermProp]) and the value that comes
    with one ([VTermValue], a union). *)
Inductive VTermProp :=
| VTERM_PROP_CURSORVISIBLE | VTERM_PROP_CURSORBLINK | VTERM_PROP_ALTSCREEN
| VTERM_PROP_TITLE | VTERM_PROP_ICONNAME | VTERM_PROP_REVERSE
| VTERM_PROP_CURSORSHAPE | VTERM_PROP_MOUSE.

Inductive VTermValue :=
| boolean (b : bool)
| number (n : Z)
| string (s : list byte)
| color (c : VTermColor).

Definition set_title (t : term_T) (title : option (list byte)) : term_T :=
  mkTerm (tl_vterm t) (tl_job t) (tl_buffer t) (tl_terminal_mode t)
    (tl_channel_closed t) (tl_rows t) (tl_cols t) (tl_rows_fixed t)
    (tl_cols_fixed t) title None (tl_dirty_row_start t)
    (tl_dirty_row_end t) (tl_scrollback t) (tl_scrollback_scrolled t)
    (tl_cursor_pos t) (tl_cursor_visible t).

Definition set_status_text (t : term_T) (text : option (list byte)) : term_T :=
  mkTerm (tl_vterm t) (tl_job t) (tl_buffer t) (tl_terminal_mode t)
    (tl_channel_closed t) (tl_rows t) (tl_cols t) (tl_rows_fixed t)
    (tl_cols_fixed t) (tl_title t) text (tl_dirty_row_start t)
    (tl_dirty_row_end t) (tl_scrollback t) (tl_scrollback_scrolled t)
    (tl_cursor_pos t) (tl_cursor_visible t).

(** Reading a member of the union that the value does not hold is taken
    as an invalid access: the engine passes a string with the title and a
    boolean with the visibility of the cursor. *)
Definition handle_settermprop (prop : VTermProp) (value : VTermValue) : M Z :=
  match prop with
  | VTERM_PROP_TITLE =>
      match value with
      | string s =>
          title <- vim_strsave s ;;
          term <- get_term ;;
          put_term (set_title term title) ;;;
          w <- get ;;
          match b_term w (w_curbuf w) with
          | Some _ => emit maketitle
          | None => ret tt
          end
      | _ => fault
      end
  | VTERM_PROP_CURSORVISIBLE =>
      match value with
      | boolean b =>
          term <- get_term ;;
          put_term (set_cursor term (tl_cursor_pos term) b) ;;;
          may_toggle_cursor ;;;
          emit out_flush
      | _ => fault
      end
  | _ => ret tt
  end ;;;
  (* Always return 1, otherwise vterm doesn't store the value internally. *)
  ret 1.

Definition Terminal_text : list byte :=            (* "Terminal" *)
  [x54; x65; x72; x6d; x69; x6e; x61; x6c].
Definition Terminal_finished_text : list byte :=   (* "Terminal-finished" *)
  Terminal_text ++ [x2d; x66; x69; x6e; x69; x73; x68; x65; x64].
Definition running_text : list byte :=             (* "running" *)
  [x72; x75; x6e; x6e; x69; x6e; x67].
Definition finished_text : list byte :=            (* "finished" *)
  [x66; x69; x6e; x69; x73; x68; x65; x64].

(** The text that [term_get_status_text] puts between the brackets. *)
Definition status_txt (term : term_T) : list byte :=
  if tl_terminal_mode term then
    if term_job_running term then gettext Terminal_text
    else gettext Terminal_finished_text
  else match tl_title term with
       | Some title => title
       | None =>
           if term_job_running term then gettext running_text
           else gettext finished_text
       end.

(** What the format ["%s [%s]"] gives. *)
Definition status_format (fname txt : list byte) : list byte :=
  fname ++ [x20; x5b] ++ txt ++ [x5d].

(** Return the text to show for the buffer name and status; [b_fname] is
    [term->tl_buffer->b_fname]. *)
Definition term_get_status_text (b_fname : list byte) : M (option (list byte)) :=
  term <- get_term ;;
  match tl_status_text term with
  | None =>
      let txt := status_txt term in
      let len := 9 + STRLEN b_fname + STRLEN txt in
      p <- alloc_request ;;
      if p then
        let text := vim_snprintf len (status_format b_fname txt) in
        put_term (set_status_text term (Some text)) ;;;
        ret (Some text)
      else ret None
  | Some text => ret (Some text)
  end.

(** *** Which buffers show what *)


Definition term_is_finished (w : world) (buf : Z) : bool :=
  match b_term w buf with
  | Some term => is_NULL (tl_vterm term)
  | None => false
  end.


(** Free the scrollback buffer: [ga_clear] leaves a growarray without
    lines. *)
Definition free_scrollback : M unit :=
  term <- get_term ;;
  put_term (set_scrollback term [] (tl_scrollback_scrolled term)).

(** The current buffer is going to be changed.  If there is terminal
    highlighting remove it now. *)
Definition term_change_in_curbuf : M unit :=
  w <- get ;;
  if term_is_finished w (w_curbuf w)
     && (Z.of_nat (length (tl_scrollback (w_term w))) >? 0) then
    free_scrollback ;;;
    emit (redraw_buf_later (tl_buffer (w_term w)) NOT_VALID)
  else ret tt.

(** *** The end of the job *)

Definition close_channel (t : term_T) : term_T :=
  mkTerm (tl_vterm t) (tl_job t) (tl_buffer t) (tl_terminal_mode t)
    true (tl_rows t) (tl_cols t) (tl_rows_fixed t)
    (tl_cols_fixed t) None None (tl_dirty_row_start t)
    (tl_dirty_row_end t) (tl_scrollback t) (tl_scrollback_scrolled t)
    (tl_cursor_pos t) (tl_cursor_visible t).

(** The body of the loop of [term_channel_closed], for a terminal whose
    job is the job of the channel. *)
Definition close_terminal : M unit :=
  term <- get_term ;;
  put_term (close_channel term) ;;;
  (* Unless in Terminal-Normal mode: clear the vterm. *)
  (if negb (tl_terminal_mode term) then cleanup_vterm else ret tt) ;;;
  emit (redraw_buf_and_status_later (tl_buffer term) NOT_VALID).

(** Called when a channel has been closed.  The list [first_term] holds
    the terminal of [world]; [same_job] says that its job is the job of
    the channel, [term->tl_job == ch->ch_job]. *)
Definition term_channel_closed (same_job : bool) : M unit :=
  did_one <- (if same_job then close_terminal ;;; ret true else ret false) ;;
  if did_one then
    redraw_statuslines ;;;
    (* Need to break out of vgetc(). *)
    ins_char_typebuf (Special K_IGNORE) ;;;
    w <- get ;;
    match b_term w (w_curbuf w) with
    | Some term =>
        (if same_job then emit maketitle else ret tt) ;;;
        update_cursor (tl_cursor_visible term)
    | None => ret tt
    end
  else ret tt.

(** "term_gettitle(buf)": [has_term] says that [term_get_buf] found the
    buffer of the terminal; the result is [rettv->vval.v_string]. *)
Definition f_term_gettitle (has_term : bool) : M (option (list byte)) :=
  if negb has_term then ret None
  else
    term <- get_term ;;
    match tl_title term with
    | Some title => vim_strsave title
    | None => ret None
    end.

(** Modelled from the spec: "get-line-text(doc, index)", the text of
    line [lnum] of the buffer, lines counting from 1. *)
Definition ml_get_buf (w : world) (lnum : Z) : list byte :=
  nth (Z.to_nat (lnum - 1)) (w_lines w) [].

(** "term_getline(buf, row)": [row_arg] is [None] when the second
    argument is not given.  Writing the NUL after the text past the end
    of the allocated bytes is an invalid access. *)
Definition f_term_getline (has_term : bool) (row_arg : option Z) : M (option (list byte)) :=
  if negb has_term then ret None
  else
    term <- get_term ;;
    let row := match row_arg with
               | None => row (tl_cursor_pos term)
               | Some n => n
               end in
    match tl_vterm term with
    | None =>
        let lnum := row + tl_scrollback_scrolled term + 1 in
        (* vterm is finished, get the text from the buffer *)
        w <- get ;;
        if (lnum >? 0) && (lnum <=? ml_line_count w)
        then vim_strsave (ml_get_buf w lnum)
        else ret None
    | Some vterm =>
        let len := tl_cols term * MB_MAXBYTES + 1 in
        p <- alloc_request ;;
        if negb p then ret None
        else
          let rect := mkRect row (row + 1) 0 (tl_cols term) in
          let text := vterm_screen_get_text vterm len rect in
          if STRLEN text <? len then ret (Some text) else fault
    end.

(** *** What happens to a session *)

(** The events of a session, each with what the caller passes. *)
Inductive session_event :=
| JobOutput (msg : list byte)
| Damage (rect : VTermRect)
| MoveRect (dest src : VTermRect)
| MoveCursor (pos oldpos : VTermPos) (visible : bool)
| SetTermProp (prop : VTermProp) (value : VTermValue)
| PushLine (cols : Z) (cells : list VTermScreenCell)
| KeyTyped (c : key)
| EnterTerminalMode
| LeaveTerminalMode
| ChangeInCurbuf
| StatusText (b_fname : list byte)
| ChannelClosed (same_job : bool).

(** The function that an event runs. *)
Definition deliver (ev : session_event) (w_valid : nat -> Z) : M (nat -> Z) :=
  match ev with
  | JobOutput msg => write_to_term msg ;;; ret w_valid
  | Damage rect => handle_damage rect ;;; ret w_valid
  | MoveRect dest src => handle_moverect dest src ;;; ret w_valid
  | MoveCursor pos oldpos visible =>
      r <- handle_movecursor pos oldpos visible w_valid ;; ret (snd r)
  | SetTermProp prop value => handle_settermprop prop value ;;; ret w_valid
  | PushLine cols cells => handle_pushline cols cells ;;; ret w_valid
  | KeyTyped c => send_keys_to_term c true ;;; ret w_valid
  | EnterTerminalMode => term_enter_terminal_mode ;;; ret w_valid
  | LeaveTerminalMode => term_leave_terminal_mode ;;; ret w_valid
  | ChangeInCurbuf => term_change_in_curbuf ;;; ret w_valid
  | StatusText b_fname => term_get_status_text b_fname ;;; ret w_valid
  | ChannelClosed same_job => term_channel_closed same_job ;;; ret w_valid
  end.

Fixpoint deliver_all (evs : list session_event) (w_valid : nat -> Z) : M (nat -> Z) :=
  match evs with
  | [] => ret w_valid
  | ev :: rest => w_valid <- deliver ev w_valid ;; deliver_all rest w_valid
  end.

(** ** Conditions on a session *)

(** The engine is freed only after the channel has closed, and a terminal
    without engine is not in Terminal-Normal mode. *)
Definition finished_ok (t : term_T) : Prop :=
  tl_vterm t = None -> tl_terminal_mode t = false /\ tl_channel_closed t = true.

(** From [w] to [w'] the engine was neither freed nor created, and the
    mode and the state of the channel are what they were. *)
Definition engine_kept (w w' : world) : Prop :=
  (tl_vterm (w_term w') = None <-> tl_vterm (w_term w) = None)
  /\ tl_terminal_mode (w_term w') = tl_terminal_mode (w_term w)
  /\ tl_channel_closed (w_term w') = tl_channel_closed (w_term w).

(** A piece of code that keeps the engine whenever it returns, and one
    that does so when there is an engine. *)
Definition keeps_engine {A} (m : M A) : Prop :=
  forall w a w', m w = Ok (a, w') -> engine_kept w w'.

Definition keeps_live_engine {A} (m : M A) : Prop :=
  forall w a w', tl_vterm (w_term w) <> None -> m w = Ok (a, w') -> engine_kept w w'.

(** From [w] to [w'] the engine is kept, scrollback and buffer are what
    they were, and no failing allocation has come into view. *)
Definition quiet_step (w w' : world) : Prop :=
  engine_kept w w'
  /\ tl_scrollback (w_term w') = tl_scrollback (w_term w)
  /\ tl_scrollback_scrolled (w_term w') = tl_scrollback_scrolled (w_term w)
  /\ w_lines w' = w_lines w
  /\ (alloc_ok w -> alloc_ok w').

Definition keeps_quiet {A} (m : M A) : Prop :=
  forall w a w', m w = Ok (a, w') -> quiet_step w w'.

Definition keeps_live_quiet {A} (m : M A) : Prop :=
  forall w a w', tl_vterm (w_term w) <> None -> m w = Ok (a, w') -> quiet_step w w'.

(** An update of the terminal that leaves engine, mode, channel and
    scrollback. *)
Definition quiet_update (f : term_T -> term_T) : Prop :=
  forall t, tl_vterm (f t) = tl_vterm t
            /\ tl_terminal_mode (f t) = tl_terminal_mode t
            /\ tl_channel_closed (f t) = tl_channel_closed t
            /\ tl_scrollback (f t) = tl_scrollback t
            /\ tl_scrollback_scrolled (f t) = tl_scrollback_scrolled t.

(** The text that [add_scrollback_line_to_buffer] makes of a line, from
    column [col] on: the bytes of the cells, each cell as many columns
    wide as it says. *)
Fixpoint cells_text (fuel : nat) (line : sb_line_T) (col : Z) : list byte :=
  if col <? sb_cols line then
    match fuel with
    | O => []
    | S fuel' =>
        match sb_cells line with
        | None => []
        | Some cells =>
            match nth_error cells (Z.to_nat col) with
            | None => []
            | Some cell =>
                cell_bytes 0 (chars cell) ++ cells_text fuel' line (col + width cell)
            end
        end
    end
  else [].

Definition line_bytes (line : sb_line_T) : list byte :=
  cells_text (Z.to_nat (sb_cols line)) line 0.

(** The text of the scrollback as a buffer holds it: a buffer is never
    without a line. *)
Definition scrollback_text (sb : list sb_line_T) : list (list byte) :=
  match sb with
  | [] => [[]]
  | _ :: _ => map line_bytes sb
  end.

(** The buffer holds the text of the scrollback, line by line. *)
Definition mirrors (w : world) : Prop :=
  w_lines w = scrollback_text (tl_scrollback (w_term w)).

(** No allocation to come fails and the buffer holds the text of the
    scrollback. *)
Definition store_ok (w : world) : Prop := alloc_ok w /\ mirrors w.

Definition keeps_store {A} (m : M A) : Prop :=
  forall w a w', store_ok w -> m w = Ok (a, w') -> store_ok w'.

(** The events that add to the buffer of a terminal or take from it, or
    leave it alone: all but the change of the buffer by the user. *)
Definition keeps_buffer (ev : session_event) : bool :=
  match ev with
  | ChangeInCurbuf => false
  | _ => true
  end.

(** The width that [handle_pushline] finds for a row: the cells up to
    the last one that is not empty. *)
Definition trimmed_len (cols : Z) (cells : list VTermScreenCell) : Z :=
  fold_left (fun len i =>
               if negb (chars0 (nth (Z.to_nat i) cells zero_cell) =? 0)
               then i + 1 else len)
            (upto cols) 0.

(** The row that "term_getline(buf, row)" is about: the row of the
    cursor when none is given. *)
Definition asked_row (term : term_T) (row_arg : option Z) : Z :=
  match row_arg with
  | None => row (tl_cursor_pos term)
  | Some n => n
  end.

(** The cursor of a window lies inside the window. *)
Definition cursor_inside (wp : win_T) : Prop :=
  0 <= w_wrow wp < w_height wp /\ 0 <= w_wcol wp < w_width wp.

(** A [utf_ptr2len_len] for UTF-8: the length that the first byte
    announces when the bytes that follow it, as far as [size] reaches,
    are continuation bytes, and 1 otherwise.  For a sequence that is cut
    off by [size] this is a number above [size]. *)
Definition utf8len_tab (b : byte) : nat :=
  let n := Byte.to_N b in
  if (n <? 0xc0)%N then 1%nat
  else if (n <? 0xe0)%N then 2%nat
  else if (n <? 0xf0)%N then 3%nat
  else if (n <? 0xf8)%N then 4%nat
  else if (n <? 0xfc)%N then 5%nat
  else if (n <? 0xfe)%N then 6%nat
  else 1%nat.

Definition is_continuation (b : byte) : bool :=
  N.eqb (N.land (Byte.to_N b) 0xc0) 0x80.

Definition utf8_ptr2len_len (p : list byte) (size : nat) : nat :=
  match p with
  | [] => 1%nat
  | b :: rest =>
      let len := utf8len_tab b in
      if Nat.eqb len 1 then 1%nat
      else
        let m := if Nat.ltb size len then size else len in
        if forallb is_continuation (firstn (m - 1) rest) then len else 1%nat
  end.

(** ** More sample sessions *)

(** A line scrolls off, the user looks at the terminal in Terminal-Normal
    mode, the channel of the job closes meanwhile, and the user leaves
    the mode. *)
Definition sample_session : list session_event :=
  [PushLine 3 [letter_cell 66; blank_cell; blank_cell];
   EnterTerminalMode; ChannelClosed true; LeaveTerminalMode].



(** The mouse is three rows below the window of the terminal. *)
Definition mouse_away_world : world :=
  mkWorld (started_term letter_screen 2 3) [[]] [mkWin 1 2 3 0 0 1 0 0 0]
          0 1 [] [] 5 0 false.

(** An engine that gives no text. *)
Definition no_text (vt : VTerm) (len : Z) (rect : VTermRect) : list byte := [].

(** The stand-ins of the calls that act on the screen only. *)
Definition no_call : M unit := ret tt.
Definition no_key_call (c : key) : M unit := ret tt.
Definition whole_text (str_m : Z) (text : list byte) : list byte :=
  firstn (Z.to_nat (str_m - 1)) text.
Definition same_message (msg : list byte) : list byte := msg.

(** * Properties *)

(** ** Macros *)

Lemma MIN_min x y : MIN x y = Z.min x y.
Proof. unfold MIN. destruct (Z.ltb_spec x y); lia. Qed.

Lemma MAX_max x y : MAX x y = Z.max x y.
Proof. unfold MAX. rewrite Z.gtb_ltb. destruct (Z.ltb_spec y x); lia. Qed.

(** ** Colour mapping *)

Lemma quot51_round x : 0 <= x -> Z.quot (x + 25) 0x33 = round_div x 51.
Proof.
  intros Hx. unfold round_div.
  rewrite Z.quot_div_nonneg by lia.
  apply Z.div_unique with (r := 2 * ((x + 25) mod 51) + 1).
  - left. pose proof (Z.mod_pos_bound (x + 25) 51 ltac:(lia)). lia.
  - pose proof (Z.div_mod (x + 25) 51 ltac:(lia)). lia.
Qed.

Lemma greyscale_sorted cut : forall i red,
  StronglySorted Z.le cut ->
  greyscale i cut red =
    if Nat.eqb (length (filter (fun c => c <=? red) cut)) (length cut)
    then 256
    else i + 233 + Z.of_nat (length (filter (fun c => c <=? red) cut)).
Proof.
  induction cut as [|c rest IH]; intros i red Hs; simpl.
  - reflexivity.
  - inversion Hs as [|? ? Hrest Hall]; subst.
    destruct (Z.ltb_spec red c) as [Hlt|Hge].
    + assert (Hnone : filter (fun c0 => c0 <=? red) rest = []).
      { clear IH Hs Hrest. induction rest as [|d rest IHr]; simpl; auto.
        inversion Hall; subst.
        destruct (Z.leb_spec d red); [lia|]. auto. }
      destruct (Z.leb_spec c red); [lia|].
      rewrite Hnone. simpl. lia.
    + destruct (Z.leb_spec c red); [|lia].
      simpl. rewrite IH by assumption.
      destruct (Nat.eqb_spec (length (filter (fun c0 => c0 <=? red) rest)) (length rest)).
      * reflexivity.
      * lia.
Qed.

Lemma cutoff_sorted : StronglySorted Z.le cutoff.
Proof.
  unfold cutoff.
  repeat (apply SSorted_cons; [| repeat (apply Forall_cons; [lia|]); apply Forall_nil]).
  apply SSorted_nil.
Qed.

Lemma greyscale_breakpoints red :
  greyscale 0 cutoff red = 233 + breakpoints_below red
  /\ 233 <= greyscale 0 cutoff red <= 256.
Proof.
  rewrite (greyscale_sorted cutoff 0 red cutoff_sorted).
  unfold breakpoints_below.
  pose proof (filter_length_le (fun c => c <=? red) cutoff) as Hle.
  change (length cutoff) with 23%nat in *.
  destruct (Nat.eqb_spec (length (filter (fun c => c <=? red) cutoff)) 23) as [E|E].
  - rewrite E. simpl. lia.
  - lia.
Qed.

(** C5 (as amended).  On a host with at least 256 colours a triple that is
    none of the standard colours maps, when R=G=B, to one of the 24 grey
    indices 233..256 picked by the breakpoints, and otherwise to
    17 + 36*round(R/51) + 6*round(G/51) + round(B/51): one more than the
    number of the colour in the 6x6x6 cube, since the first colour is 1.
    On a host with fewer colours the result is 0. *)
Theorem color2index_unmatched (color : VTermColor) (foreground : bool)
    (Hvalid : valid_color color)
    (Hnone : standard_color (red color) (green color) (blue color) = None) :
  (256 <= t_colors ->
     (red color = blue color /\ red color = green color ->
        color2index color foreground = 233 + breakpoints_below (red color)
        /\ 233 <= color2index color foreground <= 256)
     /\ (~ (red color = blue color /\ red color = green color) ->
        color2index color foreground
        = 17 + 36 * round_div (red color) 51 + 6 * round_div (green color) 51
             + round_div (blue color) 51))
  /\ (t_colors < 256 -> color2index color foreground = 0).
Proof.
  destruct Hvalid as (Hr & Hg & Hb).
  unfold color2index. rewrite Hnone.
  split.
  - intros Ht.
    destruct (Z.geb_spec t_colors 256) as [_|]; [|lia].
    split.
    + intros [E1 E2].
      destruct (Z.eqb_spec (red color) (blue color)); [|contradiction].
      destruct (Z.eqb_spec (red color) (green color)); [|contradiction].
      simpl. apply greyscale_breakpoints.
    + intros Hne.
      assert (E : (red color =? blue color) && (red color =? green color) = false).
      { destruct (Z.eqb_spec (red color) (blue color));
          destruct (Z.eqb_spec (red color) (green color)); simpl; auto.
        exfalso; apply Hne; auto. }
      rewrite E.
      rewrite !quot51_round by lia. lia.
  - intros Ht.
    destruct (Z.geb_spec t_colors 256); [lia|reflexivity].
Qed.

(** ** Damage *)

Lemma handle_damage_run (rect : VTermRect) (w : world) :
  handle_damage rect w =
    Ok (1, with_events
             (with_term w (set_dirty (w_term w)
                (Z.min (tl_dirty_row_start (w_term w)) (start_row rect))
                (Z.max (tl_dirty_row_end (w_term w)) (end_row rect))))
             (w_events w ++ [redraw_buf_later (tl_buffer (w_term w)) NOT_VALID])).
Proof.
  unfold handle_damage, bind, get_term, put_term, emit, ret. simpl.
  rewrite MIN_min, MAX_max. reflexivity.
Qed.

Lemma handle_damages_run (rects : list VTermRect) : forall w,
  exists w',
    handle_damages rects w = Ok (tt, w')
    /\ tl_dirty_row_start (w_term w')
       = min_with (tl_dirty_row_start (w_term w)) (map start_row rects)
    /\ tl_dirty_row_end (w_term w')
       = max_with (tl_dirty_row_end (w_term w)) (map end_row rects).
Proof.
  induction rects as [|rect rest IH]; intros w; simpl.
  - exists w. auto.
  - unfold bind. rewrite handle_damage_run.
    destruct (IH (with_events
             (with_term w (set_dirty (w_term w)
                (Z.min (tl_dirty_row_start (w_term w)) (start_row rect))
                (Z.max (tl_dirty_row_end (w_term w)) (end_row rect))))
             (w_events w ++ [redraw_buf_later (tl_buffer (w_term w)) NOT_VALID])))
      as (w' & Hrun & Hs & He).
    exists w'. split; [exact Hrun|].
    rewrite Hs, He. simpl. clear.
    generalize (tl_dirty_row_start (w_term w)) (tl_dirty_row_end (w_term w)).
    intros s e. split.
    + revert s. induction (map start_row rest) as [|a l IHl]; intros s; simpl.
      * lia.
      * rewrite IHl. lia.
    + revert e. induction (map end_row rest) as [|a l IHl]; intros e; simpl.
      * lia.
      * rewrite IHl. lia.
Qed.

Lemma min_with_perm init l l' : Permutation l l' -> min_with init l = min_with init l'.
Proof.
  induction 1; simpl; unfold min_with in *; simpl; try lia; congruence.
Qed.

Lemma max_with_perm init l l' : Permutation l l' -> max_with init l = max_with init l'.
Proof.
  induction 1; simpl; unfold max_with in *; simpl; try lia; congruence.
Qed.

Lemma min_with_le init l : min_with init l <= init.
Proof. induction l; simpl; unfold min_with in *; simpl; lia. Qed.

Lemma max_with_ge init l : init <= max_with init l.
Proof. induction l; simpl; unfold max_with in *; simpl; lia. Qed.

(** C2 (as amended).  Damage callbacks with row ranges [a_i, b_i),
    delivered to a session whose dirty range is [s, e), leave the range
    [min(s, min a_i), max(e, max b_i)), in whatever order they come; a
    freshly created session starts from [0, MAX_ROW), so there the
    result is [min(0, min a_i), max(999999, max b_i)); no callback narrows
    the range: the start never grows and the end never shrinks. *)
Theorem handle_damage_union (w : world) (rects rects' : list VTermRect)
    (Hperm : Permutation rects rects') :
  (exists w1 w2,
      handle_damages rects w = Ok (tt, w1)
      /\ handle_damages rects' w = Ok (tt, w2)
      /\ dirty_range (w_term w1)
         = (min_with (tl_dirty_row_start (w_term w)) (map start_row rects),
            max_with (tl_dirty_row_end (w_term w)) (map end_row rects))
      /\ dirty_range (w_term w2) = dirty_range (w_term w1))
  /\ (exists w1,
      handle_damages rects (with_term w ex_terminal_term) = Ok (tt, w1)
      /\ dirty_range (w_term w1)
         = (min_with 0 (map start_row rects), max_with 999999 (map end_row rects)))
  /\ (forall rect, exists w1,
      handle_damage rect w = Ok (1, w1)
      /\ tl_dirty_row_start (w_term w1) <= tl_dirty_row_start (w_term w)
      /\ tl_dirty_row_end (w_term w) <= tl_dirty_row_end (w_term w1)).
Proof.
  split; [|split].
  - destruct (handle_damages_run rects w) as (w1 & H1 & Hs1 & He1).
    destruct (handle_damages_run rects' w) as (w2 & H2 & Hs2 & He2).
    exists w1, w2. repeat split; try assumption.
    + unfold dirty_range. congruence.
    + unfold dirty_range. rewrite Hs1, He1, Hs2, He2.
      rewrite (min_with_perm _ _ _ (Permutation_map start_row Hperm)).
      rewrite (max_with_perm _ _ _ (Permutation_map end_row Hperm)).
      reflexivity.
  - destruct (handle_damages_run rects (with_term w ex_terminal_term))
      as (w1 & H1 & Hs1 & He1).
    exists w1. split; [assumption|].
    unfold dirty_range. rewrite Hs1, He1. reflexivity.
  - intros rect. rewrite handle_damage_run. eexists. split; [reflexivity|].
    simpl. lia.
Qed.

(** ** Resize negotiation *)

Lemma min_with_fold_left init l :
  fold_left (fun r h => if r >? h then h else r) l init = min_with init l.
Proof.
  revert init. induction l as [|h l IH]; intros init; simpl.
  - reflexivity.
  - rewrite IH. rewrite Z.gtb_ltb.
    destruct (Z.ltb_spec h init).
    + clear IH. revert h init H. induction l as [|a l IHl]; intros h init H; simpl.
      * lia.
      * unfold min_with in *. simpl.
        specialize (IHl h init H). lia.
    + clear IH. revert h init H. induction l as [|a l IHl]; intros h init H; simpl.
      * lia.
      * unfold min_with in *. simpl.
        specialize (IHl h init H). lia.
Qed.

Lemma min_with_lower init l x : In x l -> min_with init l <= x.
Proof.
  induction l as [|a l IH]; simpl; [intros []|].
  unfold min_with in *. simpl. intros [->|Hin]; [lia|].
  specialize (IH Hin). lia.
Qed.

Lemma min_with_attained init l : min_with init l = init \/ In (min_with init l) l.
Proof.
  induction l as [|a l IH]; simpl; [auto|].
  unfold min_with in *. simpl.
  destruct (Z.min_spec a (fold_right Z.min init l)) as [[_ E]|[_ E]]; rewrite E.
  - auto.
  - destruct IH as [IH|IH]; auto.
Qed.

Lemma negotiated_rows (term : term_T) (wp : win_T) (wins : list win_T) :
  fst (negotiated_size term wp wins)
  = if tl_rows_fixed term then tl_rows term
    else min_with (w_height wp) (map w_height (observers term wins)).
Proof.
  unfold negotiated_size.
  generalize (if tl_cols_fixed term then tl_cols term else w_width wp) as c.
  destruct (tl_rows_fixed term); simpl.
  - generalize (tl_rows term) as r.
    induction wins as [|twp wins IH]; intros r c; simpl; [reflexivity|].
    destruct (w_buffer twp =? tl_buffer term); apply IH.
  - rewrite <- min_with_fold_left.
    generalize (w_height wp) as r.
    induction wins as [|twp wins IH]; intros r c; simpl; [reflexivity|].
    destruct (w_buffer twp =? tl_buffer term); simpl; apply IH.
Qed.

Lemma negotiated_cols (term : term_T) (wp : win_T) (wins : list win_T) :
  snd (negotiated_size term wp wins)
  = if tl_cols_fixed term then tl_cols term
    else min_with (w_width wp) (map w_width (observers term wins)).
Proof.
  unfold negotiated_size.
  generalize (if tl_rows_fixed term then tl_rows term else w_height wp) as r.
  destruct (tl_cols_fixed term); simpl.
  - generalize (tl_cols term) as c.
    induction wins as [|twp wins IH]; intros c r; simpl; [reflexivity|].
    destruct (w_buffer twp =? tl_buffer term); apply IH.
  - rewrite <- min_with_fold_left.
    generalize (w_width wp) as c.
    induction wins as [|twp wins IH]; intros c r; simpl; [reflexivity|].
    destruct (w_buffer twp =? tl_buffer term); simpl; apply IH.
Qed.

Lemma observers_In term wins twp :
  In twp (observers term wins) <-> In twp wins /\ w_buffer twp = tl_buffer term.
Proof.
  unfold observers. rewrite filter_In. rewrite Z.eqb_eq. split; auto.
Qed.

(** The minimum over the observers, for a dimension [dim] of a window. *)
Lemma min_over_observers (dim : win_T -> Z) term wp wins :
  In wp wins -> w_buffer wp = tl_buffer term ->
  let m := min_with (dim wp) (map dim (observers term wins)) in
  (forall twp, In twp wins -> w_buffer twp = tl_buffer term -> m <= dim twp)
  /\ (exists twp, In twp wins /\ w_buffer twp = tl_buffer term /\ m = dim twp)
  /\ (1 <= m <-> forall twp, In twp wins -> w_buffer twp = tl_buffer term -> 1 <= dim twp).
Proof.
  intros Hin Hshow m.
  assert (Hlow : forall twp, In twp wins -> w_buffer twp = tl_buffer term -> m <= dim twp).
  { intros twp H1 H2. apply min_with_lower. apply in_map.
    apply observers_In. auto. }
  assert (Hatt : exists twp, In twp wins /\ w_buffer twp = tl_buffer term /\ m = dim twp).
  { destruct (min_with_attained (dim wp) (map dim (observers term wins))) as [E|E].
    - exists wp. auto.
    - apply in_map_iff in E. destruct E as (twp & E & Ho).
      apply observers_In in Ho. destruct Ho as [Ho1 Ho2].
      exists twp. auto. }
  split; [exact Hlow|]. split; [exact Hatt|].
  split.
  - intros H1 twp Hi Hs. specialize (Hlow twp Hi Hs). lia.
  - intros Hall. destruct Hatt as (twp & Hi & Hs & E). rewrite E. auto.
Qed.

(** C4 (as amended).  When [term_update_window] finds that the window
    and the terminal differ in a dimension that is not pinned, the size
    it hands to the engine and reports to the job has, in each dimension
    that is not pinned, the minimum of that dimension over the windows
    showing the terminal (so it exceeds no observer's viewport); the code
    applies no lower bound of its own: the size is at least 1 exactly
    when every observing window is; a pinned dimension keeps the
    terminal's value whatever the windows are; with two observing windows
    of heights 24 and 30 and the rows not pinned the rows are 24. *)
Theorem term_update_window_negotiates (w : world) (wp : win_T) (vt : VTerm) (job : job_T)
    (Hin : In wp (w_wins w))
    (Hshow : w_buffer wp = tl_buffer (w_term w))
    (Hvt : tl_vterm (w_term w) = Some vt)
    (Hjob : tl_job (w_term w) = Some job)
    (Hmode : tl_terminal_mode (w_term w) = false)
    (Hresize : needs_resize (w_term w) wp = true) :
  let term := w_term w in
  let rows := fst (negotiated_size term wp (w_wins w)) in
  let cols := snd (negotiated_size term wp (w_wins w)) in
  term_update_window wp w
  = Ok (true, with_events w (w_events w ++ [vterm_set_size rows cols;
                                            ch_logn (LogResizing rows);
                                            term_report_winsize rows cols]))
  /\ (tl_rows_fixed term = false ->
      (forall twp, In twp (w_wins w) -> w_buffer twp = tl_buffer term -> rows <= w_height twp)
      /\ (exists twp, In twp (w_wins w) /\ w_buffer twp = tl_buffer term /\ rows = w_height twp)
      /\ (1 <= rows <->
          forall twp, In twp (w_wins w) -> w_buffer twp = tl_buffer term -> 1 <= w_height twp))
  /\ (tl_cols_fixed term = false ->
      (forall twp, In twp (w_wins w) -> w_buffer twp = tl_buffer term -> cols <= w_width twp)
      /\ (exists twp, In twp (w_wins w) /\ w_buffer twp = tl_buffer term /\ cols = w_width twp)
      /\ (1 <= cols <->
          forall twp, In twp (w_wins w) -> w_buffer twp = tl_buffer term -> 1 <= w_width twp))
  /\ (tl_rows_fixed term = true -> rows = tl_rows term)
  /\ (tl_cols_fixed term = true -> cols = tl_cols term)
  /\ (tl_rows_fixed term = false ->
      forall wa wb, w_wins w = [wa; wb] ->
        w_buffer wa = tl_buffer term -> w_buffer wb = tl_buffer term ->
        w_height wa = 24 -> w_height wb = 30 -> rows = 24).
Proof.
  intros term rows cols.
  assert (Hrows : tl_rows_fixed term = false ->
      (forall twp, In twp (w_wins w) -> w_buffer twp = tl_buffer term -> rows <= w_height twp)
      /\ (exists twp, In twp (w_wins w) /\ w_buffer twp = tl_buffer term /\ rows = w_height twp)
      /\ (1 <= rows <->
          forall twp, In twp (w_wins w) -> w_buffer twp = tl_buffer term -> 1 <= w_height twp)).
  { intros Hf. unfold rows. rewrite negotiated_rows, Hf.
    apply (min_over_observers w_height); assumption. }
  split; [|split; [exact Hrows|split; [|split; [|split]]]].
  - unfold term_update_window, bind, get, ret, emit. simpl.
    rewrite Hshow, Z.eqb_refl. simpl. rewrite Hvt, Hmode, Hresize.
    subst rows cols term.
    destruct (negotiated_size (w_term w) wp (w_wins w)) as [r c] eqn:E.
    simpl. rewrite Hjob. simpl.
    unfold with_events. simpl. rewrite <- !app_assoc. reflexivity.
  - intros Hf. unfold cols. rewrite negotiated_cols, Hf.
    apply (min_over_observers w_width); assumption.
  - intros Hf. unfold rows. rewrite negotiated_rows, Hf. reflexivity.
  - intros Hf. unfold cols. rewrite negotiated_cols, Hf. reflexivity.
  - intros Hf wa wb Hw Ha Hb H24 H30.
    destruct (Hrows Hf) as (Hlow & (twp & Hi & _ & E) & _).
    rewrite Hw in Hi, Hlow.
    assert (rows <= 24) by (rewrite <- H24; apply Hlow; simpl; auto).
    simpl in Hi. destruct Hi as [<-|[<-|[]]]; lia.
Qed.

(** ** Attribute lookup *)


(** ** The engine is gone *)


(** ** Key conversion *)

Lemma read_back_run (w : world) (vt : VTerm) :
  tl_vterm (w_term w) = Some vt ->
  exists buf n w',
    read_back w = Ok ((buf, n), w')
    /\ 0 <= n <= KEY_BUF_LEN /\ n = Z.of_nat (length buf)
    /\ w_events w' = w_events w
    /\ tl_job (w_term w') = tl_job (w_term w).
Proof.
  intros Hvt. unfold read_back, bind, the_vterm. rewrite Hvt.
  unfold vterm_output_read.
  assert (Hk : Z.of_nat (Z.to_nat KEY_BUF_LEN) = KEY_BUF_LEN) by reflexivity.
  revert Hk. generalize (Z.to_nat KEY_BUF_LEN) as k. intros k Hk.
  unfold put_vterm, bind, get_term, put_term, ret.
  do 3 eexists. split; [reflexivity|].
  pose proof (firstn_le_length k (vt_outbuffer vt)) as Hle.
  repeat split; try reflexivity; lia.
Qed.

Lemma put_vterm_run (w : world) (vt : VTerm) :
  put_vterm vt w = Ok (tt, with_term w (set_vterm (w_term w) (Some vt))).
Proof. reflexivity. Qed.

Lemma term_convert_key_run (c : key) (w : world) (vt : VTerm) :
  tl_vterm (w_term w) = Some vt ->
  exists buf n w',
    term_convert_key c w = Ok ((buf, n), w')
    /\ 0 <= n <= KEY_BUF_LEN /\ n = Z.of_nat (length buf)
    /\ w_events w' = w_events w
    /\ tl_job (w_term w') = tl_job (w_term w).
Proof.
  intros Hvt. unfold term_convert_key.
  destruct (convert_switch c) as [|start|c' k md|button pressed].
  - exists [], 0, w. unfold KEY_BUF_LEN. simpl. repeat split; try reflexivity; lia.
  - unfold bind, the_vterm. rewrite Hvt, put_vterm_run. simpl.
    do 3 eexists. split; [reflexivity|]. unfold KEY_BUF_LEN. simpl.
    repeat split; try reflexivity; lia.
  - unfold bind at 1. unfold the_vterm. rewrite Hvt.
    unfold bind at 1.
    destruct (negb (is_VTERM_KEY_NONE k)); rewrite put_vterm_run.
    + destruct (read_back_run
                  (with_term w (set_vterm (w_term w) (Some (vterm_keyboard_key vt k md))))
                  _ eq_refl) as (buf & n & w' & Hrun & Hb & Hn & He & Hj).
      exists buf, n, w'. auto.
    + destruct (read_back_run
                  (with_term w (set_vterm (w_term w) (Some (vterm_keyboard_unichar vt c' md))))
                  _ eq_refl) as (buf & n & w' & Hrun & Hb & Hn & He & Hj).
      exists buf, n, w'. auto.
  - unfold bind at 1. unfold term_send_mouse, bind, the_vterm. rewrite Hvt.
    unfold get. rewrite put_vterm_run. unfold ret.
    destruct (read_back_run
                (with_term w (set_vterm (w_term w)
                   (Some (vterm_mouse_button
                            (vterm_mouse_move vt (mouse_row w - w_winrow (curwin w))
                               (mouse_col w - w_wincol (curwin w)) VTERM_MOD_NONE)
                            button pressed VTERM_MOD_NONE))))
                _ eq_refl) as (buf & n & w' & Hrun & Hb & Hn & He & Hj).
    exists buf, n, w'. auto.
Qed.

Lemma catch_normal_mode_keys_run (c : key) (typed : bool) (w : world) :
  exists r w',
    catch_normal_mode_keys c typed w = Ok (r, w')
    /\ w_term w' = w_term w
    /\ exists new, w_events w' = w_events w ++ new
                   /\ forall msg, ~ In (channel_send msg) new.
Proof.
  assert (Hnil : exists new : list event, w_events w = w_events w ++ new
                   /\ forall msg, ~ In (channel_send msg) new).
  { exists []. rewrite app_nil_r. split; [reflexivity|]. intros msg []. }
  assert (Hstuff : forall k, exists new : list event,
             w_events w ++ [stuffcharReadbuff k] = w_events w ++ new
             /\ forall msg, ~ In (channel_send msg) new).
  { intros k. exists [stuffcharReadbuff k]. split; [reflexivity|].
    intros msg [H|[]]. discriminate. }
  destruct c as [z|k].
  - destruct z; destruct typed; simpl; unfold bind, emit, ret; simpl;
      do 2 eexists; (split; [reflexivity|]); simpl; auto.
  - destruct typed;
      destruct k; simpl; unfold bind, emit, ret, get, put; simpl;
      try (destruct (mouse_outside w _)); simpl;
      do 2 eexists; (split; [reflexivity|]); simpl; auto.
Qed.

(** C10.  With the engine present the conversion of any key returns: it
    writes at most KEY_BUF_LEN (200) bytes to the buffer of the caller
    and returns their number; the keys that are dropped give 0 and no
    byte; so what [send_keys_to_term] sends to the channel from its
    message buffer is never longer than 200 bytes. *)
Theorem term_convert_key_fits (c : key) (typed : bool) (w : world) (vt : VTerm) (job : job_T)
    (Hvt : tl_vterm (w_term w) = Some vt)
    (Hjob : tl_job (w_term w) = Some job) :
  (exists buf n w',
      term_convert_key c w = Ok ((buf, n), w')
      /\ 0 <= n <= KEY_BUF_LEN /\ n = Z.of_nat (length buf))
  /\ (forall k, In k dropped_keys ->
        term_convert_key (Special k) w = Ok (([], 0), w))
  /\ (exists r w' new,
        send_keys_to_term c typed w = Ok (r, w')
        /\ w_events w' = w_events w ++ new
        /\ forall msg, In (channel_send msg) new ->
             0 < Z.of_nat (length msg) <= KEY_BUF_LEN).
Proof.
  split; [|split].
  - destruct (term_convert_key_run c w vt Hvt) as (buf & n & w' & H & Hb & Hn & _).
    exists buf, n, w'. auto.
  - intros k Hin. unfold dropped_keys in Hin. simpl in Hin.
    repeat (destruct Hin as [<-|Hin]; [reflexivity|]). destruct Hin.
  - unfold send_keys_to_term.
    destruct (catch_normal_mode_keys_run c typed w)
      as (r & w1 & Hcatch & Hterm & new & Hev & Hnosend).
    unfold bind at 1. rewrite Hcatch.
    destruct r as [r|].
    + exists r, w1, new. split; [reflexivity|]. split; [exact Hev|].
      intros msg Hin. elim (Hnosend msg Hin).
    + set (w2 := if typed then with_mouse_was_outside w1 false else w1).
      assert (Hw2 : (if typed then w0 <- get;; put (with_mouse_was_outside w0 false)
                     else ret tt) w1 = Ok (tt, w2)).
      { unfold w2. destruct typed; reflexivity. }
      assert (Ht2 : w_term w2 = w_term w) by (unfold w2; destruct typed; simpl; auto).
      assert (He2 : w_events w2 = w_events w1) by (unfold w2; destruct typed; reflexivity).
      destruct (term_convert_key_run c w2 vt ltac:(rewrite Ht2; exact Hvt))
        as (buf & n & w3 & Hconv & Hb & Hn & He3 & Hj3).
      unfold bind at 1. rewrite Hw2.
      unfold bind at 1. rewrite Hconv.
      destruct (Z.gtb_spec n 0) as [Hpos|Hzero].
      * exists true, (with_events w3 (w_events w3 ++ [channel_send buf])),
               (new ++ [channel_send buf]).
        split.
        { unfold bind, get_term. rewrite Hj3, Ht2, Hjob. reflexivity. }
        split.
        { simpl. rewrite He3, He2, Hev, app_assoc. reflexivity. }
        intros msg Hin. apply in_app_or in Hin. destruct Hin as [Hin|[Hin|[]]].
        { elim (Hnosend msg Hin). }
        { inversion Hin; subst. lia. }
      * exists true, w3, new. split; [reflexivity|]. split.
        { rewrite He3, He2, Hev. reflexivity. }
        intros msg Hin. elim (Hnosend msg Hin).
Qed.

(** ** Job output *)

Lemma first_NL_le l : (first_NL l <= length l)%nat.
Proof. induction l as [|b l IH]; simpl; [lia|]. destruct (Byte.eqb b NL); simpl; lia. Qed.

Lemma first_NL_skip l : forall n,
  (n <= first_NL l)%nat -> first_NL l = (n + first_NL (skipn n l))%nat.
Proof.
  induction l as [|b l IH]; intros n Hn; simpl in *.
  - assert (n = O) by lia. subst. reflexivity.
  - destruct n as [|n]; simpl; [reflexivity|].
    destruct (Byte.eqb b NL); [lia|].
    rewrite (IH n) at 1 by lia. reflexivity.
Qed.

Lemma skipn_nth_error_cons {A} (l : list A) p b :
  nth_error l p = Some b -> skipn p l = b :: skipn (S p) l.
Proof.
  revert l. induction p as [|p IH]; intros [|a l] H; simpl in *; try discriminate.
  - congruence.
  - apply IH. exact H.
Qed.

Lemma first_NL_stops l :
  match skipn (first_NL l) l with
  | [] => first_NL l = length l
  | b :: _ => b = NL
  end.
Proof.
  induction l as [|b l IH]; simpl; [reflexivity|].
  destruct (Byte.eqb b NL) eqn:E; simpl.
  - apply Byte.byte_dec_bl. exact E.
  - destruct (skipn (first_NL l) l); congruence.
Qed.

Lemma skip_to_NL_run (msg : list byte) (Hfits : utf_fits msg) : forall fuel p,
  (p <= length msg)%nat -> (length msg - p < fuel)%nat ->
  skip_to_NL fuel msg (length msg) p = Ok (p + first_NL (skipn p msg))%nat.
Proof.
  induction fuel as [|fuel IH]; intros p Hp Hfuel; [lia|].
  cbn [skip_to_NL]. destruct (Nat.ltb_spec p (length msg)) as [Hlt|Hge].
  - destruct (nth_error msg p) as [b|] eqn:Hb.
    2:{ apply nth_error_None in Hb. lia. }
    destruct (Byte.eqb b NL) eqn:E.
    + f_equal. rewrite (skipn_nth_error_cons _ _ _ Hb). cbn [first_NL].
      rewrite E. lia.
    + assert (Hne : b <> NL) by (intros ->; discriminate).
      pose proof (Hfits p b Hb Hne) as Hn.
      set (n := utf_ptr2len_len (skipn p msg) (length msg - p)) in *.
      pose proof (first_NL_le (skipn p msg)) as Hle.
      rewrite length_skipn in Hle.
      rewrite IH by lia.
      f_equal.
      rewrite (first_NL_skip (skipn p msg) n) by lia.
      rewrite skipn_skipn.
      replace (n + p)%nat with (p + n)%nat by lia. lia.
  - assert (p = length msg) by lia. subst p.
    rewrite skipn_all. cbn [first_NL]. f_equal. lia.
Qed.

Lemma expected_writes_step (l : list byte) : forall seg,
  expected_writes seg l =
    match skipn (first_NL l) l with
    | [] => match seg ++ l with [] => [] | s => [InputWrite s] end
    | _ :: rest =>
        InputWrite (seg ++ firstn (first_NL l) l) :: InputWrite [x0d; x0a]
        :: expected_writes [] rest
    end.
Proof.
  induction l as [|b l IH]; intros seg; simpl.
  - rewrite app_nil_r. destruct seg; reflexivity.
  - destruct (Byte.eqb b NL) eqn:E; simpl.
    + rewrite app_nil_r. reflexivity.
    + rewrite IH. rewrite <- !app_assoc. simpl. reflexivity.
Qed.

Lemma fed_bytes_expected (msg : list byte) : forall seg,
  fed_bytes (expected_writes seg msg) = seg ++ crlf msg.
Proof.
  induction msg as [|b msg IH]; intros seg; simpl.
  - destruct seg; simpl; rewrite ?app_nil_r; reflexivity.
  - destruct (Byte.eqb b NL); simpl.
    + rewrite IH. reflexivity.
    + rewrite IH. rewrite <- app_assoc. reflexivity.
Qed.

Lemma write_chunks_run (msg : list byte) (Hfits : utf_fits msg) : forall fuel vt done,
  (done <= length msg)%nat -> (length msg - done < fuel)%nat ->
  write_chunks fuel vt msg (length msg) done
  = Ok (mkVTerm (vt_screen vt)
                (vt_calls vt ++ expected_writes [] (skipn done msg))
                (vt_outbuffer vt)).
Proof.
  induction fuel as [|fuel IH]; intros vt done Hdone Hfuel; [lia|].
  cbn [write_chunks].
  destruct (Nat.ltb_spec done (length msg)) as [Hlt|Hge].
  - rewrite (skip_to_NL_run msg Hfits) by lia.
    assert (Hrl : length (skipn done msg) = (length msg - done)%nat)
      by apply length_skipn.
    assert (Hsk : forall j, skipn j (skipn done msg) = skipn (done + j) msg).
    { intros j. rewrite skipn_skipn. f_equal. lia. }
    remember (skipn done msg) as rest eqn:Erest.
    pose proof (first_NL_le rest) as Hk.
    pose proof (first_NL_stops rest) as Hstop.
    rewrite (expected_writes_step rest []).
    remember (first_NL rest) as k eqn:Ek.
    destruct (Nat.ltb_spec (length msg) (done + k)) as [Hbad|_]; [lia|].
    replace (done + k - done)%nat with k by lia.
    pose proof (Hsk k) as Hskip.
    destruct (skipn k rest) as [|b rest'] eqn:Hrest.
    + (* no line feed is left *)
      destruct (Nat.ltb_spec (done + k) (length msg)) as [Hx|_]; [lia|].
      cbn [andb].
      destruct fuel as [|fuel]; [lia|].
      cbn [write_chunks].
      destruct (Nat.ltb_spec (done + k) (length msg)) as [Hx|_]; [lia|].
      unfold vterm_input_write. cbn [vt_screen vt_calls vt_outbuffer].
      rewrite firstn_all2 by lia.
      cbn [app].
      destruct rest as [|r0 rest0]; [simpl in Hrl; lia|].
      reflexivity.
    + (* a line feed at offset done + k *)
      subst b.
      assert (Hl : (done + k < length msg)%nat).
      { assert (Hn : length (skipn (done + k) msg) <> O)
          by (rewrite <- Hskip; simpl; lia).
        rewrite length_skipn in Hn. lia. }
      assert (Hnth : nth_error msg (done + k) = Some NL).
      { rewrite <- (firstn_skipn (done + k) msg) at 1.
        rewrite nth_error_app2; rewrite length_firstn; [|lia].
        replace (done + k - Nat.min (done + k) (length msg))%nat with O by lia.
        rewrite <- Hskip. reflexivity. }
      destruct (Nat.ltb_spec (done + k) (length msg)) as [_|Hx]; [|lia].
      rewrite Hnth. cbn [andb is_NL].
      change (Byte.eqb NL NL) with true. cbn iota.
      rewrite IH by lia.
      unfold vterm_input_write. cbn [vt_screen vt_calls vt_outbuffer].
      rewrite <- !app_assoc. cbn [app].
      replace (skipn (done + S k) msg) with rest'.
      * reflexivity.
      * replace (done + S k)%nat with (1 + (done + k))%nat by lia.
        rewrite <- skipn_skipn. rewrite <- Hskip. reflexivity.
  - assert (done = length msg) by lia. subst done.
    rewrite skipn_all. simpl. rewrite app_nil_r. destruct vt; reflexivity.
Qed.

(** X16.  Feeding a chunk of job output, on which [utf_ptr2len_len] gives
    character lengths that stay inside the chunk, writes to the engine
    the bytes before each line feed, then the line feed as the two bytes
    carriage return, line feed, and last the bytes after the last line
    feed; together these are the bytes of the chunk in order with every
    line feed preceded by a carriage return and nothing else changed (a
    carriage return in the chunk is passed on as it is); the last call
    before returning asks the engine to flush its damage. *)
Theorem term_write_job_output_crlf (w : world) (vt : VTerm) (msg : list byte)
    (Hvt : tl_vterm (w_term w) = Some vt)
    (Hfits : utf_fits msg) :
  term_write_job_output msg (length msg) w
  = Ok (tt, with_term w
              (set_vterm (w_term w)
                 (Some (mkVTerm (vt_screen vt)
                          (vt_calls vt ++ expected_writes [] msg ++ [FlushDamage])
                          (vt_outbuffer vt)))))
  /\ fed_bytes (expected_writes [] msg ++ [FlushDamage]) = crlf msg.
Proof.
  split.
  - unfold term_write_job_output, bind, the_vterm. rewrite Hvt.
    rewrite (write_chunks_run msg Hfits) by lia.
    unfold get_term, put_term, vterm_screen_flush_damage.
    cbn [vt_screen vt_calls vt_outbuffer skipn].
    rewrite <- app_assoc. reflexivity.
  - unfold fed_bytes. rewrite flat_map_app. simpl. rewrite app_nil_r.
    apply (fed_bytes_expected msg []).
Qed.

(** ** A chunk that ends inside a character *)

(** The inner loop on a chunk [pre ++ cut]: the bytes of [pre] are
    characters of one byte and none is a line feed, and for the character
    that starts [cut] the length is [n]. *)
Lemma skip_to_NL_past (pre cut : list byte) (b0 : byte) :
  (forall i b, nth_error pre i = Some b ->
     b <> NL
     /\ utf_ptr2len_len (skipn i (pre ++ cut)) (length (pre ++ cut) - i) = 1%nat) ->
  hd_error cut = Some b0 -> b0 <> NL ->
  (length cut < utf_ptr2len_len cut (length cut))%nat ->
  forall k i fuel,
    (i + k = length pre)%nat -> (k + 2 <= fuel)%nat ->
    skip_to_NL fuel (pre ++ cut) (length (pre ++ cut)) i
    = Ok (length pre + utf_ptr2len_len cut (length cut))%nat.
Proof.
  intros Hpre Hhd Hne Hlong.
  assert (Hcut : cut = b0 :: tl cut).
  { destruct cut; [discriminate Hhd|]. simpl in Hhd. injection Hhd as ->. reflexivity. }
  assert (Hlen : length (pre ++ cut) = (length pre + length cut)%nat)
    by apply length_app.
  assert (Hpos : (1 <= length cut)%nat) by (rewrite Hcut; simpl; lia).
  induction k as [|k IH]; intros i fuel Hi Hfuel.
  - assert (i = length pre) by lia. subst i.
    destruct fuel as [|[|fuel]]; try lia.
    cbn [skip_to_NL].
    destruct (Nat.ltb_spec (length pre) (length (pre ++ cut))); [|lia].
    rewrite nth_error_app2 by lia. rewrite Nat.sub_diag.
    rewrite Hcut at 1. cbn [nth_error].
    destruct (Byte.eqb b0 NL) eqn:E; [apply Byte.byte_dec_bl in E; contradiction|].
    rewrite skipn_app, skipn_all, Nat.sub_diag. cbn [skipn app].
    replace (length (pre ++ cut) - length pre)%nat with (length cut) by lia.
    destruct (Nat.ltb_spec (length pre + utf_ptr2len_len cut (length cut))
                (length (pre ++ cut))); [lia|reflexivity].
  - destruct fuel as [|fuel]; [lia|].
    cbn [skip_to_NL].
    destruct (Nat.ltb_spec i (length (pre ++ cut))); [|lia].
    destruct (nth_error pre i) as [b|] eqn:Hb.
    2:{ apply nth_error_None in Hb. lia. }
    rewrite nth_error_app1 by lia. rewrite Hb.
    destruct (Hpre i b Hb) as [Hnl Hone].
    destruct (Byte.eqb b NL) eqn:E; [apply Byte.byte_dec_bl in E; contradiction|].
    rewrite Hone. apply IH; lia.
Qed.

(** C6, at the input where the code departs from it.  A chunk ends
    inside a character: after characters of one byte, none a line feed,
    comes the start of a character for which [utf_ptr2len_len] gives a
    length above the bytes that are left (as it does for an incomplete
    sequence).  The inner loop steps over the end of the chunk, and the
    write that follows takes bytes from behind the chunk: the bytes fed
    to the engine are not the bytes of the chunk. *)
Theorem term_write_job_output_overrun (w : world) (vt : VTerm)
    (pre cut : list byte) (b0 : byte)
    (Hvt : tl_vterm (w_term w) = Some vt)
    (Hpre : forall i b, nth_error pre i = Some b ->
       b <> NL
       /\ utf_ptr2len_len (skipn i (pre ++ cut)) (length (pre ++ cut) - i) = 1%nat)
    (Hhd : hd_error cut = Some b0) (Hne : b0 <> NL)
    (Hlong : (length cut < utf_ptr2len_len cut (length cut))%nat) :
  skip_to_NL (S (length (pre ++ cut))) (pre ++ cut) (length (pre ++ cut)) 0
  = Ok (length pre + utf_ptr2len_len cut (length cut))%nat
  /\ (length (pre ++ cut) < length pre + utf_ptr2len_len cut (length cut))%nat
  /\ term_write_job_output (pre ++ cut) (length (pre ++ cut)) w = Fault.
Proof.
  assert (Hlen : length (pre ++ cut) = (length pre + length cut)%nat)
    by apply length_app.
  assert (Hpos : (1 <= length cut)%nat).
  { destruct cut; [discriminate Hhd|]. simpl. lia. }
  pose proof (skip_to_NL_past pre cut b0 Hpre Hhd Hne Hlong (length pre) O
                (S (length (pre ++ cut))) ltac:(lia) ltac:(lia)) as Hskip.
  split; [exact Hskip|]. split; [lia|].
  unfold term_write_job_output, bind, the_vterm. rewrite Hvt.
  cbn [write_chunks].
  destruct (Nat.ltb_spec 0 (length (pre ++ cut))); [|lia].
  rewrite Hskip.
  destruct (Nat.ltb_spec (length (pre ++ cut))
              (length pre + utf_ptr2len_len cut (length cut))); [reflexivity|lia].
Qed.

(** ** Allocation *)

Lemma alloc_request_run (w : world) :
  alloc_request w = Ok (hd true (w_alloc w), after_alloc w).
Proof.
  unfold alloc_request, after_alloc. destruct (w_alloc w); reflexivity.
Qed.

Lemma same_but_alloc_refl w : same_but_alloc w w.
Proof. reflexivity. Qed.

Lemma same_but_alloc_trans w1 w2 w3 :
  same_but_alloc w1 w2 -> same_but_alloc w2 w3 -> same_but_alloc w1 w3.
Proof. unfold same_but_alloc. congruence. Qed.

Lemma same_but_alloc_after w : same_but_alloc w (after_alloc w).
Proof.
  unfold same_but_alloc, after_alloc. destruct (w_alloc w); reflexivity.
Qed.

Lemma same_but_alloc_fields w w' :
  same_but_alloc w w' ->
  w_term w' = w_term w /\ w_lines w' = w_lines w /\ w_curbuf w' = w_curbuf w
  /\ w_wins w' = w_wins w /\ w_events w' = w_events w.
Proof.
  unfold same_but_alloc. intros H.
  change (w_term (with_alloc w' []) = w_term (with_alloc w [])
          /\ w_lines (with_alloc w' []) = w_lines (with_alloc w [])
          /\ w_curbuf (with_alloc w' []) = w_curbuf (with_alloc w [])
          /\ w_wins (with_alloc w' []) = w_wins (with_alloc w [])
          /\ w_events (with_alloc w' []) = w_events (with_alloc w [])).
  rewrite H. auto.
Qed.

Lemma alloc_request_ok (w : world) :
  alloc_ok w ->
  exists w', alloc_request w = Ok (true, w') /\ same_but_alloc w w' /\ alloc_ok w'.
Proof.
  intros Hok. exists (after_alloc w). rewrite alloc_request_run.
  unfold alloc_ok, after_alloc in *.
  destruct (w_alloc w) as [|b rest] eqn:E.
  - split; [reflexivity|]. split; [reflexivity|]. rewrite E. constructor.
  - inversion Hok; subst. split; [reflexivity|].
    split; [reflexivity|]. assumption.
Qed.

(** ** The text of a scrollback line *)

Lemma line_text_run (line : sb_line_T) (Hline : line_ok line) : forall fuel col ga w,
  alloc_ok w -> 0 <= col -> sb_cols line - col <= Z.of_nat fuel ->
  exists text w',
    line_text fuel line col ga w = Ok (Some text, w')
    /\ same_but_alloc w w' /\ alloc_ok w'.
Proof.
  induction fuel as [|fuel IH]; intros col ga w Hok Hcol Hfuel.
  - simpl. destruct (Z.ltb_spec col (sb_cols line)); [lia|].
    exists ga, w. repeat split; auto.
  - simpl. destruct (Z.ltb_spec col (sb_cols line)) as [Hlt|Hge].
    + destruct (alloc_request_ok w Hok) as (w1 & Hreq & Hsame & Hok1).
      unfold bind at 1. rewrite Hreq. cbn [negb].
      unfold line_ok in Hline.
      destruct (sb_cells line) as [cells|]; [|lia].
      destruct Hline as [Hlen Hcells].
      destruct (Z.ltb_spec col 0); [lia|].
      destruct (nth_error cells (Z.to_nat col)) as [cell|] eqn:Hcell.
      2:{ apply nth_error_None in Hcell. lia. }
      assert (Hw : 1 <= width cell).
      { unfold cells_ok in Hcells. rewrite Forall_forall in Hcells.
        apply Hcells. eapply nth_error_In; eauto. }
      destruct (IH (col + width cell) (ga ++ cell_bytes 0 (chars cell)) w1 Hok1)
        as (text & w' & Hrun & Hsame' & Hok'); try lia.
      exists text, w'. split; [exact Hrun|]. split; [|exact Hok'].
      eapply same_but_alloc_trans; eauto.
    + exists ga, w. repeat split; auto.
Qed.

(** ** The buffer *)

Lemma ml_append_buf_run (lnum : Z) (text : list byte) (w : world) :
  exists w',
    ml_append_buf lnum text w = Ok (tt, w')
    /\ w_term w' = w_term w /\ w_curbuf w' = w_curbuf w /\ w_alloc w' = w_alloc w
    /\ w_wins w' = w_wins w /\ w_events w' = w_events w
    /\ (0 <= lnum <= ml_line_count w -> ml_line_count w' = ml_line_count w + 1).
Proof.
  unfold ml_append_buf.
  destruct (Z.ltb_spec lnum 0); simpl.
  - exists w. repeat split; auto. lia.
  - destruct (Z.gtb_spec lnum (ml_line_count w)).
    + exists w. repeat split; auto. lia.
    + eexists. split; [reflexivity|]. repeat split; auto.
      intros _. unfold ml_line_count in *. simpl.
      rewrite length_app. simpl. rewrite length_firstn, length_skipn. lia.
Qed.

Lemma ml_delete_run (lnum : Z) (w : world) :
  exists w',
    ml_delete lnum w = Ok (tt, w')
    /\ w_term w' = w_term w /\ w_curbuf w' = w_curbuf w /\ w_alloc w' = w_alloc w
    /\ w_wins w' = w_wins w /\ w_events w' = w_events w
    /\ (1 <= lnum <= ml_line_count w ->
        ml_line_count w' = if ml_line_count w =? 1 then 1 else ml_line_count w - 1).
Proof.
  unfold ml_delete.
  destruct (Z.ltb_spec lnum 1); simpl.
  - exists w. repeat split; auto. lia.
  - destruct (Z.gtb_spec lnum (ml_line_count w)).
    + exists w. repeat split; auto. lia.
    + destruct (Z.eqb_spec (ml_line_count w) 1).
      * eexists. split; [reflexivity|]. repeat split; auto.
      * eexists. split; [reflexivity|]. repeat split; auto.
        intros _. unfold ml_line_count in *. simpl.
        rewrite length_app. rewrite length_firstn, length_skipn. lia.
Qed.

Lemma same_but_alloc_count w w' :
  same_but_alloc w w' -> ml_line_count w' = ml_line_count w.
Proof.
  intros H. apply same_but_alloc_fields in H. unfold ml_line_count.
  destruct H as (_ & -> & _). reflexivity.
Qed.

(** ** Storing a line *)

Lemma add_scrollback_line_to_buffer_run (w : world) (sb0 : list sb_line_T)
    (line : sb_line_T) :
  tl_scrollback (w_term w) = sb0 ++ [line] -> line_ok line -> alloc_ok w ->
  exists w',
    add_scrollback_line_to_buffer w = Ok (tt, w')
    /\ w_term w' = w_term w /\ w_curbuf w' = w_curbuf w /\ alloc_ok w'
    /\ w_wins w' = w_wins w /\ w_events w' = w_events w
    /\ ((Z.of_nat (length sb0) = 0 /\ ml_line_count w = 1)
        \/ (1 <= Z.of_nat (length sb0) /\ ml_line_count w = Z.of_nat (length sb0)) ->
        ml_line_count w' = Z.of_nat (length sb0) + 1).
Proof.
  intros Hsb Hline Hok.
  unfold add_scrollback_line_to_buffer. unfold bind at 1. unfold get_term.
  rewrite Hsb, length_app. cbn [length].
  replace (Z.of_nat (length sb0 + 1) - 1) with (Z.of_nat (length sb0)) by lia.
  rewrite Nat2Z.id.
  rewrite nth_error_app2 by lia. rewrite Nat.sub_diag. cbn [nth_error].
  destruct (Z.ltb_spec (Z.of_nat (length sb0)) 0); [lia|].
  destruct (line_text_run line Hline (Z.to_nat (sb_cols line)) 0 [] w Hok)
    as (text & w1 & Htext & Hs1 & Hok1); try lia.
  unfold bind at 1. rewrite Htext.
  destruct (alloc_request_ok w1 Hok1) as (w2 & Hreq & Hs2 & Hok2).
  unfold bind at 1. rewrite Hreq. cbn [negb].
  pose proof (same_but_alloc_trans _ _ _ Hs1 Hs2) as Hs.
  pose proof (same_but_alloc_count _ _ Hs) as Hc2.
  apply same_but_alloc_fields in Hs. destruct Hs as (Ht2 & _ & Hb2 & Hw2 & He2).
  destruct (ml_append_buf_run (Z.of_nat (length sb0)) text w2)
    as (w3 & Happ & Ht3 & Hb3 & Ha3 & Hw3 & He3 & Hc3).
  unfold bind at 1. rewrite Happ.
  destruct (Z.eqb_spec (Z.of_nat (length sb0)) 0) as [Hz|Hnz].
  - destruct (ml_delete_run 2 w3) as (w4 & Hdel & Ht4 & Hb4 & Ha4 & Hw4 & He4 & Hc4).
    exists w4. split; [exact Hdel|].
    repeat split; try congruence.
    + unfold alloc_ok in *. congruence.
    + intros [[_ Hone]|[Hpos _]]; [|lia].
      rewrite Hc4; rewrite Hc3; try lia.
      destruct (Z.eqb_spec (ml_line_count w2 + 1) 1); lia.
  - exists w3. split; [reflexivity|].
    repeat split; try congruence.
    + unfold alloc_ok in *. congruence.
    + intros [[Hzero _]|[Hpos Hcnt]]; [lia|].
      rewrite Hc3; lia.
Qed.

Lemma grow_sb_grow_sb t a b x y :
  grow_sb (grow_sb t a x) b y = grow_sb t (a ++ b) (x + y).
Proof.
  unfold grow_sb, set_scrollback. simpl. rewrite <- app_assoc, Z.add_assoc. reflexivity.
Qed.

Lemma grow_sb_nil t : grow_sb t [] 0 = t.
Proof.
  unfold grow_sb, set_scrollback. rewrite app_nil_r, Z.add_0_r. destruct t; reflexivity.
Qed.

(** Pushing a line and adding it to the buffer. *)
Lemma store_line_run (line : sb_line_T) (d : Z) (w : world) :
  line_ok line -> alloc_ok w ->
  exists w',
    (push_scrollback line d ;;; add_scrollback_line_to_buffer) w = Ok (tt, w')
    /\ w_term w' = grow_sb (w_term w) [line] d
    /\ w_curbuf w' = w_curbuf w /\ alloc_ok w'
    /\ w_wins w' = w_wins w /\ w_events w' = w_events w
    /\ (in_step w -> in_step w').
Proof.
  intros Hline Hok.
  unfold bind at 1. unfold push_scrollback, bind, get_term, put_term.
  set (w1 := with_term w (set_scrollback (w_term w) (tl_scrollback (w_term w) ++ [line])
                            (tl_scrollback_scrolled (w_term w) + d))).
  destruct (add_scrollback_line_to_buffer_run w1 (tl_scrollback (w_term w)) line
              eq_refl Hline Hok)
    as (w' & Hrun & Ht & Hb & Hok' & Hw & He & Hc).
  exists w'. split; [exact Hrun|].
  split; [exact Ht|]. split; [exact Hb|]. split; [exact Hok'|].
  split; [exact Hw|]. split; [exact He|].
  intros Hstep. unfold in_step in *. rewrite Ht. simpl.
  rewrite length_app. simpl.
  right. split; [lia|].
  rewrite Hc by exact Hstep. lia.
Qed.

Lemma in_step_same_but_alloc w w' : same_but_alloc w w' -> in_step w -> in_step w'.
Proof.
  intros H. pose proof (same_but_alloc_count _ _ H) as Hc.
  apply same_but_alloc_fields in H. destruct H as (Ht & _).
  unfold in_step. rewrite Ht, Hc. auto.
Qed.

Lemma empty_line_ok : line_ok empty_line.
Proof. reflexivity. Qed.

Lemma add_skipped_lines_run (n : nat) : forall w,
  alloc_ok w ->
  exists w',
    add_skipped_lines n w = Ok (tt, w')
    /\ w_term w' = grow_sb (w_term w) (repeat empty_line n) 0
    /\ w_curbuf w' = w_curbuf w /\ alloc_ok w'
    /\ (in_step w -> in_step w').
Proof.
  induction n as [|n IH]; intros w Hok.
  - exists w. simpl. rewrite grow_sb_nil. auto.
  - cbn [add_skipped_lines].
    destruct (alloc_request_ok w Hok) as (w1 & Hreq & Hs1 & Hok1).
    unfold bind at 1. rewrite Hreq.
    destruct (store_line_run empty_line 0 w1 empty_line_ok Hok1)
      as (w2 & Hrun & Ht2 & Hb2 & Hok2 & _ & _ & Hstep2).
    unfold bind at 1. unfold empty_line in Hrun. rewrite Hrun.
    destruct (IH w2 Hok2) as (w3 & Hrun3 & Ht3 & Hb3 & Hok3 & Hstep3).
    exists w3. split; [exact Hrun3|].
    pose proof (in_step_same_but_alloc _ _ Hs1) as Hstep1.
    apply same_but_alloc_fields in Hs1. destruct Hs1 as (Ht1 & _ & Hb1 & _).
    split.
    + rewrite Ht3, Ht2, Ht1, grow_sb_grow_sb. reflexivity.
    + repeat split; try congruence. auto.
Qed.

(** ** The rows of the screen *)

Lemma in_upto n c : In c (upto n) <-> 0 <= c < n.
Proof.
  unfold upto. rewrite in_map_iff. split.
  - intros (k & <- & Hk). apply in_seq in Hk. lia.
  - intros Hc. exists (Z.to_nat c). split; [lia|]. apply in_seq. lia.
Qed.

Lemma get_cell_inside (vt : VTerm) (r c : Z) (cell : VTermScreenCell) :
  vterm_screen_get_cell vt (mkPos r c) = Some cell -> 0 <= c < row_width vt r.
Proof.
  unfold vterm_screen_get_cell, row_width. simpl.
  destruct (Z.ltb_spec r 0); simpl; [discriminate|].
  destruct (Z.ltb_spec c 0); simpl; [discriminate|].
  destruct (nth_error (vt_screen vt) (Z.to_nat r)) as [cells|]; [|discriminate].
  intros Hc. assert (Hs : nth_error cells (Z.to_nat c) <> None) by congruence.
  apply nth_error_Some in Hs. lia.
Qed.

Lemma get_cell_below_width (vt : VTerm) (r c : Z) :
  screen_ok vt -> 0 <= c < row_width vt r ->
  exists cell, vterm_screen_get_cell vt (mkPos r c) = Some cell /\ 1 <= width cell.
Proof.
  unfold vterm_screen_get_cell, row_width, screen_ok. simpl. intros Hscreen.
  destruct (Z.ltb_spec r 0); simpl; [lia|].
  destruct (nth_error (vt_screen vt) (Z.to_nat r)) as [cells|] eqn:Hrow; [|lia].
  intros Hc. destruct (Z.ltb_spec c 0); [lia|].
  destruct (nth_error cells (Z.to_nat c)) as [cell|] eqn:Hcell.
  - exists cell. split; [reflexivity|].
    rewrite Forall_forall in Hscreen.
    pose proof (Hscreen cells (nth_error_In _ _ Hrow)) as Hcells.
    unfold cells_ok in Hcells. rewrite Forall_forall in Hcells.
    apply Hcells. eapply nth_error_In; eauto.
  - apply nth_error_None in Hcell. lia.
Qed.

Lemma row_len_bounds (vt : VTerm) (cols r : Z) :
  0 <= row_len vt cols r <= row_width vt r.
Proof.
  unfold row_len.
  assert (Hw : 0 <= row_width vt r).
  { unfold row_width. destruct (r <? 0); [lia|].
    destruct (nth_error (vt_screen vt) (Z.to_nat r)); lia. }
  assert (H : forall l init, 0 <= init <= row_width vt r ->
            0 <= fold_left
                   (fun len c =>
                      match vterm_screen_get_cell vt (mkPos r c) with
                      | Some cell => if negb (chars0 cell =? NUL) then c + 1 else len
                      | None => len
                      end) l init <= row_width vt r).
  { induction l as [|c l IH]; intros init Hinit; simpl; [exact Hinit|].
    apply IH.
    destruct (vterm_screen_get_cell vt (mkPos r c)) as [cell|] eqn:Hcell; [|exact Hinit].
    apply get_cell_inside in Hcell.
    destruct (negb (chars0 cell =? NUL)); lia. }
  apply H. lia.
Qed.

Lemma stored_row_ok (vt : VTerm) (cols r : Z) :
  screen_ok vt -> line_ok (stored_row vt cols r).
Proof.
  intros Hscreen. unfold line_ok, stored_row. simpl.
  pose proof (row_len_bounds vt cols r) as Hb.
  split.
  - unfold row_cells, upto. rewrite !length_map, length_seq. lia.
  - unfold cells_ok, row_cells. rewrite Forall_map, Forall_forall.
    intros c Hc. apply in_upto in Hc.
    destruct (get_cell_below_width vt r c Hscreen ltac:(lia)) as (cell & -> & Hw).
    exact Hw.
Qed.

Lemma repeat_shift {A} (a : A) n l : repeat a (S n) ++ l = repeat a n ++ a :: l.
Proof.
  induction n as [|n IH]; simpl; [reflexivity|].
  f_equal. exact IH.
Qed.

(** ** The flush *)

Lemma move_rows_run (vt : VTerm) (Hscreen : screen_ok vt) (rows : list Z) :
  forall s w,
  alloc_ok w -> 0 <= s ->
  exists w',
    move_rows vt rows s w = Ok (tt, w')
    /\ w_term w' = grow_sb (w_term w)
                     (pending s (flushed_lines vt (tl_cols (w_term w)) rows)) 0
    /\ w_curbuf w' = w_curbuf w /\ alloc_ok w'
    /\ (in_step w -> in_step w').
Proof.
  induction rows as [|r rest IH]; intros s w Hok Hs.
  - exists w. simpl. rewrite grow_sb_nil. auto.
  - cbn [move_rows flushed_lines]. unfold bind at 1. unfold get_term.
    destruct (Z.eqb_spec (row_len vt (tl_cols (w_term w)) r) 0) as [Hz|Hnz].
    + destruct (IH (s + 1) w Hok ltac:(lia)) as (w' & Hrun & Ht & Hb & Hok' & Hstep).
      exists w'. split; [exact Hrun|]. split; [|auto].
      rewrite Ht. f_equal.
      destruct (flushed_lines vt (tl_cols (w_term w)) rest) as [|l ls]; [reflexivity|].
      unfold pending.
      replace (Z.to_nat (s + 1)) with (S (Z.to_nat s)) by lia.
      apply repeat_shift.
    + destruct (add_skipped_lines_run (Z.to_nat s) w Hok)
        as (w1 & Hrun1 & Ht1 & Hb1 & Hok1 & Hstep1).
      unfold bind at 1. rewrite Hrun1.
      destruct (alloc_request_ok w1 Hok1) as (w2 & Hreq2 & Hs2 & Hok2).
      unfold bind at 1. unfold bind at 1. rewrite Hreq2.
      destruct (alloc_request_ok w2 Hok2) as (w3 & Hreq3 & Hs3 & Hok3).
      unfold bind at 1. rewrite Hreq3.
      destruct (store_line_run (stored_row vt (tl_cols (w_term w)) r) 0 w3
                  (stored_row_ok _ _ _ Hscreen) Hok3)
        as (w4 & Hrun4 & Ht4 & Hb4 & Hok4 & _ & _ & Hstep4).
      unfold stored_row in Hrun4. rewrite Hrun4.
      destruct (IH 0 w4 Hok4 ltac:(lia)) as (w5 & Hrun5 & Ht5 & Hb5 & Hok5 & Hstep5).
      exists w5. split; [exact Hrun5|].
      pose proof (same_but_alloc_trans _ _ _ Hs2 Hs3) as Hs23.
      pose proof (in_step_same_but_alloc _ _ Hs23) as Hstep23.
      apply same_but_alloc_fields in Hs23. destruct Hs23 as (Ht3 & _ & Hb3 & _).
      assert (Hcols : tl_cols (w_term w4) = tl_cols (w_term w)).
      { rewrite Ht4, Ht3, Ht1. reflexivity. }
      split.
      * rewrite Ht5, Hcols, Ht4, Ht3, Ht1, !grow_sb_grow_sb.
        f_equal.
        unfold pending at 2.
        destruct (flushed_lines vt (tl_cols (w_term w)) rest); simpl;
          rewrite <- ?app_assoc; reflexivity.
      * repeat split; try congruence. auto.
Qed.

Lemma move_terminal_to_buffer_run (w : world) (vt : VTerm) :
  tl_vterm (w_term w) = Some vt -> screen_ok vt -> alloc_ok w ->
  exists w',
    move_terminal_to_buffer w = Ok (tt, w')
    /\ w_term w' = grow_sb (w_term w)
                     (flushed_lines vt (tl_cols (w_term w)) (upto (tl_rows (w_term w)))) 0
    /\ w_curbuf w' = w_curbuf w /\ alloc_ok w'
    /\ (in_step w -> in_step w').
Proof.
  intros Hvt Hscreen Hok.
  unfold move_terminal_to_buffer. unfold bind at 1. unfold the_vterm. rewrite Hvt.
  unfold bind at 1. unfold get_term.
  destruct (move_rows_run vt Hscreen (upto (tl_rows (w_term w))) 0 w Hok ltac:(lia))
    as (w1 & Hrun & Ht & Hb & Hok1 & Hstep).
  unfold bind at 1. rewrite Hrun.
  unfold bind, get, put.
  eexists. split; [reflexivity|].
  cbn [w_term w_curbuf with_events with_wins w_alloc].
  split.
  - rewrite Ht. f_equal. unfold pending.
    destruct (flushed_lines vt (tl_cols (w_term w)) (upto (tl_rows (w_term w))));
      reflexivity.
  - split; [exact Hb|]. split; [exact Hok1|].
    intros H. specialize (Hstep H). exact Hstep.
Qed.

(** ** Push-line events *)

Lemma Forall_firstn {A} (P : A -> Prop) (l : list A) : forall n,
  Forall P l -> Forall P (firstn n l).
Proof.
  induction l as [|a l IH]; intros [|n] H; simpl; auto.
  inversion H; subst. constructor; auto.
Qed.

Lemma pushed_len_bounds (cols : Z) (cells : list VTermScreenCell) :
  0 <= fold_left (fun len i =>
                    if negb (chars0 (nth (Z.to_nat i) cells zero_cell) =? 0)
                    then i + 1 else len)
                 (upto cols) 0 <= Z.max 0 cols.
Proof.
  assert (H : forall l init,
             (forall i, In i l -> 0 <= i < cols) -> 0 <= init <= Z.max 0 cols ->
             0 <= fold_left (fun len i =>
                    if negb (chars0 (nth (Z.to_nat i) cells zero_cell) =? 0)
                    then i + 1 else len) l init <= Z.max 0 cols).
  { induction l as [|i l IH]; intros init Hl Hinit; simpl; [exact Hinit|].
    apply IH.
    - intros j Hj. apply Hl. right. exact Hj.
    - pose proof (Hl i (or_introl eq_refl)).
      destruct (negb (chars0 (nth (Z.to_nat i) cells zero_cell) =? 0)); lia. }
  apply H; [|lia]. intros i Hi. apply in_upto in Hi. exact Hi.
Qed.

Lemma pushed_line_run (cols : Z) (cells : list VTermScreenCell) (w : world) :
  pushline_ok (cols, cells) -> alloc_ok w ->
  exists line w',
    pushed_line cols cells w = Ok (line, w')
    /\ line_ok line /\ same_but_alloc w w' /\ alloc_ok w'.
Proof.
  intros [Hcols Hcells] Hok. simpl in Hcols, Hcells.
  unfold pushed_line.
  destruct (Z.gtb_spec cols (Z.of_nat (length cells))); [lia|].
  pose proof (pushed_len_bounds cols cells) as Hlen.
  set (len := fold_left _ (upto cols) 0) in *.
  destruct (Z.gtb_spec len 0) as [Hpos|Hzero].
  - destruct (alloc_request_ok w Hok) as (w1 & Hreq & Hs1 & Hok1).
    unfold bind at 1. unfold bind at 1. rewrite Hreq. unfold ret.
    do 2 eexists. split; [reflexivity|]. split; [|auto].
    unfold line_ok. simpl. split.
    + rewrite length_firstn. lia.
    + apply Forall_firstn. exact Hcells.
  - unfold bind, ret. do 2 eexists. split; [reflexivity|].
    split; [|split; [apply same_but_alloc_refl|exact Hok]].
    unfold line_ok. simpl. lia.
Qed.

Lemma handle_pushline_run (cols : Z) (cells : list VTermScreenCell) (w : world) :
  pushline_ok (cols, cells) -> alloc_ok w ->
  exists w' line,
    handle_pushline cols cells w = Ok (0, w')
    /\ line_ok line
    /\ w_term w' = grow_sb (w_term w) [line] 1
    /\ w_curbuf w' = w_curbuf w /\ alloc_ok w'
    /\ (in_step w -> in_step w').
Proof.
  intros Hev Hok. unfold handle_pushline.
  destruct (alloc_request_ok w Hok) as (w1 & Hreq & Hs1 & Hok1).
  unfold bind at 1. unfold bind at 1. rewrite Hreq.
  destruct (pushed_line_run cols cells w1 Hev Hok1) as (line & w2 & Hline & Hlok & Hs2 & Hok2).
  unfold bind at 1. rewrite Hline.
  destruct (store_line_run line 1 w2 Hlok Hok2)
    as (w3 & Hrun & Ht3 & Hb3 & Hok3 & _ & _ & Hstep3).
  rewrite Hrun. unfold ret.
  exists w3, line. split; [reflexivity|]. split; [exact Hlok|].
  pose proof (same_but_alloc_trans _ _ _ Hs1 Hs2) as Hs.
  pose proof (in_step_same_but_alloc _ _ Hs) as Hstep.
  apply same_but_alloc_fields in Hs. destruct Hs as (Ht2 & _ & Hb2 & _).
  repeat split; try congruence. auto.
Qed.

Lemma handle_pushlines_run (lines : list (Z * list VTermScreenCell)) : forall w,
  Forall pushline_ok lines -> alloc_ok w ->
  exists w' new,
    handle_pushlines lines w = Ok (tt, w')
    /\ w_term w' = grow_sb (w_term w) new (Z.of_nat (length lines))
    /\ length new = length lines /\ Forall line_ok new
    /\ w_curbuf w' = w_curbuf w /\ alloc_ok w'
    /\ (in_step w -> in_step w').
Proof.
  induction lines as [|[cols cells] rest IH]; intros w Hall Hok.
  - exists w, []. simpl. rewrite grow_sb_nil.
    repeat split; auto.
  - inversion Hall as [|? ? Hev Hrest]; subst.
    cbn [handle_pushlines].
    destruct (handle_pushline_run cols cells w Hev Hok)
      as (w1 & line & Hrun & Hlok & Ht1 & Hb1 & Hok1 & Hstep1).
    unfold bind at 1. rewrite Hrun.
    destruct (IH w1 Hrest Hok1) as (w2 & new & Hrun2 & Ht2 & Hlen & Hnew & Hb2 & Hok2 & Hstep2).
    exists w2, (line :: new). split; [exact Hrun2|].
    split.
    + rewrite Ht2, Ht1, grow_sb_grow_sb. f_equal. cbn [length]. lia.
    + simpl. repeat split; try congruence; auto.
Qed.

(** ** What the flush stores *)

Lemma flushed_lines_all_empty (vt : VTerm) (cols : Z) (rows : list Z) :
  (forall r, In r rows -> row_len vt cols r = 0) -> flushed_lines vt cols rows = [].
Proof.
  induction rows as [|r rest IH]; intros H; simpl; [reflexivity|].
  rewrite (H r (or_introl eq_refl)). simpl.
  rewrite IH; [reflexivity|]. intros r' Hr'. apply H. right. exact Hr'.
Qed.

Lemma flushed_lines_trailing (vt : VTerm) (cols : Z) (rows tail : list Z) :
  (forall r, In r tail -> row_len vt cols r = 0) ->
  flushed_lines vt cols (rows ++ tail) = flushed_lines vt cols rows.
Proof.
  intros H. induction rows as [|r rest IH]; simpl.
  - apply flushed_lines_all_empty. exact H.
  - rewrite IH. reflexivity.
Qed.

Lemma flushed_lines_before_row (vt : VTerm) (cols : Z) (rows : list Z) (r : Z) :
  row_len vt cols r <> 0 ->
  flushed_lines vt cols (rows ++ [r])
  = map (capture vt cols) rows ++ [stored_row vt cols r].
Proof.
  intros Hr. induction rows as [|r0 rest IH]; simpl.
  - destruct (Z.eqb_spec (row_len vt cols r) 0); [contradiction|reflexivity].
  - rewrite IH.
    assert (Hc : capture vt cols r0
                 = if row_len vt cols r0 =? 0 then empty_line
                   else stored_row vt cols r0) by reflexivity.
    rewrite Hc.
    destruct (row_len vt cols r0 =? 0); [|reflexivity].
    destruct (map (capture vt cols) rest); reflexivity.
Qed.

(** C3.  While no allocation fails: N push-line events add N lines to the
    scrollback, so a scrollback that was empty holds N lines after them
    (and [tl_scrollback_scrolled] has grown by N); the flush of the
    screen returns and appends, for the rows down to the last one that is
    not empty, one line each ([capture]: an empty row gives a line of
    width 0 without cells); rows that are empty down to the bottom of the
    screen add nothing. *)
Theorem scrollback_lines_stored (w : world) (vt : VTerm)
    (lines : list (Z * list VTermScreenCell))
    (Halloc : alloc_ok w)
    (Hlines : Forall pushline_ok lines)
    (Hvt : tl_vterm (w_term w) = Some vt)
    (Hscreen : screen_ok vt) :
  (exists w',
      handle_pushlines lines w = Ok (tt, w')
      /\ length (tl_scrollback (w_term w'))
         = (length (tl_scrollback (w_term w)) + length lines)%nat
      /\ (tl_scrollback (w_term w) = [] ->
          length (tl_scrollback (w_term w')) = length lines)
      /\ tl_scrollback_scrolled (w_term w')
         = tl_scrollback_scrolled (w_term w) + Z.of_nat (length lines))
  /\ (exists w',
      move_terminal_to_buffer w = Ok (tt, w')
      /\ tl_scrollback (w_term w')
         = tl_scrollback (w_term w)
           ++ flushed_lines vt (tl_cols (w_term w)) (upto (tl_rows (w_term w))))
  /\ (forall cols rows tail,
        (forall r, In r tail -> row_len vt cols r = 0) ->
        flushed_lines vt cols (rows ++ tail) = flushed_lines vt cols rows)
  /\ (forall cols rows r,
        row_len vt cols r <> 0 ->
        flushed_lines vt cols (rows ++ [r])
        = map (capture vt cols) rows ++ [stored_row vt cols r]).
Proof.
  split; [|split; [|split]].
  - destruct (handle_pushlines_run lines w Hlines Halloc)
      as (w' & new & Hrun & Ht & Hlen & _).
    exists w'. split; [exact Hrun|].
    rewrite Ht. simpl. rewrite length_app, Hlen.
    repeat split; try reflexivity.
    intros ->. reflexivity.
  - destruct (move_terminal_to_buffer_run w vt Hvt Hscreen Halloc)
      as (w' & Hrun & Ht & _).
    exists w'. split; [exact Hrun|]. rewrite Ht. reflexivity.
  - intros cols rows tail. apply flushed_lines_trailing.
  - intros cols rows r. apply flushed_lines_before_row.
Qed.

(** ** Allocation failure in a push-line event *)

(** C7, at the input where the code departs from it.  A line with one
    letter is pushed off the screen; growing the scrollback succeeds and
    the allocation of the cells fails.  [handle_pushline] then stores a
    line of width 1 whose cells are NULL, and the conversion of that line
    to text reads the missing cells: the run ends in an invalid access. *)
Theorem handle_pushline_alloc_failure :
  (exists w1,
      (alloc_request ;;;
       line <- pushed_line 1 [letter_cell 65] ;;
       push_scrollback line 1)
        (started_world (blank_screen 2 3) 2 3 [true; false]) = Ok (tt, w1)
      /\ tl_scrollback (w_term w1) = [mkLine 1 None])
  /\ handle_pushline 1 [letter_cell 65]
       (started_world (blank_screen 2 3) 2 3 [true; false]) = Fault.
Proof.
  split.
  - eexists. split; reflexivity.
  - reflexivity.
Qed.

(** ** Terminal-Normal mode and back *)

(** C1, at the input where the code departs from it.  A terminal has
    just been started: nothing has scrolled off and its screen is blank.
    Entering Terminal-Normal mode stores nothing and leaves the buffer
    with its one line; leaving it finds one line against zero scrolled
    lines, deletes it (the buffer keeps one empty line) and reads the
    line before the first one of the empty scrollback: the run ends in
    an invalid access instead of with the line count it began with. *)
Theorem term_leave_terminal_mode_blank_screen :
  (exists w1,
      term_enter_terminal_mode (started_world (blank_screen 2 3) 2 3 []) = Ok (tt, w1)
      /\ ml_line_count w1 = 1
      /\ tl_scrollback (w_term w1) = []
      /\ term_leave_terminal_mode w1 = Fault)
  /\ (term_enter_terminal_mode ;;; term_leave_terminal_mode)
       (started_world (blank_screen 2 3) 2 3 []) = Fault.
Proof.
  split.
  - eexists. split; [reflexivity|]. repeat split; reflexivity.
  - reflexivity.
Qed.

Lemma set_terminal_mode_run (on : bool) (w : world) :
  exists w',
    set_terminal_mode on w = Ok (tt, w')
    /\ w_term w' = set_mode_and_status (w_term w) on
    /\ w_lines w' = w_lines w /\ w_curbuf w' = w_curbuf w /\ w_alloc w' = w_alloc w.
Proof.
  unfold set_terminal_mode, bind, get_term, put_term, get. simpl.
  destruct (tl_buffer (w_term w) =? w_curbuf w); eexists; (split; [reflexivity|]);
    simpl; auto.
Qed.

Lemma in_step_count (w w' : world) :
  in_step w -> in_step w' ->
  length (tl_scrollback (w_term w')) = length (tl_scrollback (w_term w)) ->
  ml_line_count w' = ml_line_count w.
Proof. unfold in_step. intros H H' E. rewrite E in H'. lia. Qed.

Lemma remove_terminal_lines_run : forall fuel w,
  in_step w ->
  0 <= tl_scrollback_scrolled (w_term w) <= Z.of_nat (length (tl_scrollback (w_term w))) ->
  (1 <= tl_scrollback_scrolled (w_term w)
   \/ tl_scrollback_scrolled (w_term w) < Z.of_nat (length (tl_scrollback (w_term w)))) ->
  Z.of_nat (length (tl_scrollback (w_term w))) - tl_scrollback_scrolled (w_term w)
  < Z.of_nat fuel ->
  exists w',
    remove_terminal_lines fuel w = Ok (tt, w')
    /\ w_term w' = set_scrollback (w_term w)
                     (firstn (Z.to_nat (tl_scrollback_scrolled (w_term w)))
                             (tl_scrollback (w_term w)))
                     (tl_scrollback_scrolled (w_term w))
    /\ in_step w' /\ w_curbuf w' = w_curbuf w /\ w_alloc w' = w_alloc w.
Proof.
  induction fuel as [|fuel IH]; intros w Hstep Hs Hne Hfuel; [lia|].
  cbn [remove_terminal_lines]. unfold bind at 1. unfold get.
  assert (Hg : 1 <= Z.of_nat (length (tl_scrollback (w_term w)))
               /\ ml_line_count w = Z.of_nat (length (tl_scrollback (w_term w)))).
  { unfold in_step in Hstep. lia. }
  destruct Hg as [Hg Hcount].
  destruct (Z.gtb_spec (ml_line_count w) (tl_scrollback_scrolled (w_term w))) as [Hgt|Hle].
  - destruct (ml_delete_run (ml_line_count w) w)
      as (w1 & Hdel & Ht1 & Hb1 & Ha1 & _ & _ & Hc1).
    unfold bind at 1. rewrite Hdel.
    unfold bind at 1. unfold get_term. rewrite Ht1.
    destruct (tl_scrollback (w_term w)) as [|l0 sb] eqn:Hsb; [simpl in Hg; lia|].
    rewrite <- Hsb in *.
    unfold bind at 1. unfold put_term.
    unfold bind at 1. unfold get_term.
    cbn [w_term with_term set_scrollback tl_scrollback].
    assert (Hrl : length (removelast (tl_scrollback (w_term w)))
                  = (length (tl_scrollback (w_term w)) - 1)%nat).
    { rewrite removelast_firstn_len, length_firstn. lia. }
    rewrite Hrl.
    set (w2 := with_term w1 (set_scrollback (w_term w)
                 (removelast (tl_scrollback (w_term w)))
                 (tl_scrollback_scrolled (w_term w)))).
    assert (Hc2 : ml_line_count w2
                  = if ml_line_count w =? 1 then 1 else ml_line_count w - 1).
    { rewrite <- Hc1 by lia. reflexivity. }
    assert (Hstep2 : in_step w2).
    { unfold in_step. cbn [w2 w_term with_term set_scrollback tl_scrollback].
      rewrite Hrl, Hc2.
      destruct (Z.eqb_spec (ml_line_count w) 1); lia. }
    assert (Hfirst : firstn (Z.to_nat (tl_scrollback_scrolled (w_term w)))
                            (removelast (tl_scrollback (w_term w)))
                     = firstn (Z.to_nat (tl_scrollback_scrolled (w_term w)))
                              (tl_scrollback (w_term w))).
    { rewrite removelast_firstn_len, firstn_firstn. f_equal. lia. }
    destruct (Z.eqb_spec (Z.of_nat (length (tl_scrollback (w_term w)) - 1)) 0) as [Hz|Hnz].
    + exists w2. split; [reflexivity|].
      split.
      * cbn [w2 w_term with_term]. rewrite <- Hfirst.
        replace (Z.to_nat (tl_scrollback_scrolled (w_term w))) with O by lia.
        destruct (removelast (tl_scrollback (w_term w))) eqn:Hr; [reflexivity|].
        simpl in Hrl. lia.
      * split; [exact Hstep2|]. split; [exact Hb1|exact Ha1].
    + destruct (IH w2 Hstep2) as (w' & Hrun & Ht & Hstep' & Hb & Ha).
      * cbn [w2 w_term with_term set_scrollback tl_scrollback tl_scrollback_scrolled].
        rewrite Hrl. lia.
      * cbn [w2 w_term with_term set_scrollback tl_scrollback tl_scrollback_scrolled].
        rewrite Hrl. lia.
      * cbn [w2 w_term with_term set_scrollback tl_scrollback tl_scrollback_scrolled].
        rewrite Hrl. lia.
      * exists w'. split; [exact Hrun|].
        split.
        -- rewrite Ht.
           cbn [w2 w_term with_term set_scrollback tl_scrollback tl_scrollback_scrolled].
           rewrite Hfirst. reflexivity.
        -- split; [exact Hstep'|]. split; [rewrite Hb; exact Hb1|rewrite Ha; exact Ha1].
  - exists w. split; [reflexivity|].
    split.
    + replace (Z.to_nat (tl_scrollback_scrolled (w_term w)))
        with (length (tl_scrollback (w_term w))) by lia.
      rewrite firstn_all. destruct (w_term w); reflexivity.
    + auto.
Qed.

(** X15.  The round trip where the code makes it: the channel is open, buffer
    and scrollback are in step, every line of the scrollback has scrolled
    off the screen, and a line has scrolled off before or the screen has
    a row that is not empty.  Then entering Terminal-Normal mode appends
    the lines of the flush, leaving it removes as many again, and the
    line count of the buffer and the scrollback are what they were. *)
Lemma terminal_mode_round_trip (w : world) (vt : VTerm) :
  tl_vterm (w_term w) = Some vt -> screen_ok vt -> alloc_ok w ->
  tl_buffer (w_term w) = w_curbuf w ->
  tl_channel_closed (w_term w) = false ->
  in_step w ->
  tl_scrollback_scrolled (w_term w) = Z.of_nat (length (tl_scrollback (w_term w))) ->
  (1 <= tl_scrollback_scrolled (w_term w)
   \/ flushed_lines vt (tl_cols (w_term w)) (upto (tl_rows (w_term w))) <> []) ->
  exists w1 w2,
    term_enter_terminal_mode w = Ok (tt, w1)
    /\ tl_scrollback (w_term w1)
       = tl_scrollback (w_term w)
         ++ flushed_lines vt (tl_cols (w_term w)) (upto (tl_rows (w_term w)))
    /\ term_leave_terminal_mode w1 = Ok (tt, w2)
    /\ tl_scrollback (w_term w2) = tl_scrollback (w_term w)
    /\ ml_line_count w2 = ml_line_count w.
Proof.
  intros Hvt Hscreen Hok Hbuf Hopen Hstep Hscrolled Hsome.
  set (fl := flushed_lines vt (tl_cols (w_term w)) (upto (tl_rows (w_term w)))) in *.
  (* entering *)
  destruct (move_terminal_to_buffer_run w vt Hvt Hscreen Hok)
    as (wa & Hmove & Hta & Hba & Hoka & Hstepa).
  fold fl in Hta.
  destruct (set_terminal_mode_run true wa) as (w1 & Hset & Ht1 & Hl1 & Hb1 & Ha1).
  assert (Henter : term_enter_terminal_mode w = Ok (tt, w1)).
  { unfold term_enter_terminal_mode. unfold bind at 1.
    unfold curbuf_b_term, bind, get. rewrite Hbuf, Z.eqb_refl. unfold ret.
    rewrite Hmove. exact Hset. }
  assert (Hsb1 : tl_scrollback (w_term w1) = tl_scrollback (w_term w) ++ fl).
  { rewrite Ht1, Hta. reflexivity. }
  assert (Hsc1 : tl_scrollback_scrolled (w_term w1) = tl_scrollback_scrolled (w_term w)).
  { rewrite Ht1, Hta. simpl. lia. }
  assert (Hstep1 : in_step w1).
  { specialize (Hstepa Hstep). unfold in_step, ml_line_count in *.
    rewrite Hl1, Ht1. exact Hstepa. }
  assert (Hbuf1 : tl_buffer (w_term w1) = w_curbuf w1).
  { rewrite Ht1, Hta, Hb1, Hba. exact Hbuf. }
  assert (Hopen1 : tl_channel_closed (w_term w1) = false).
  { rewrite Ht1, Hta. exact Hopen. }
  (* leaving *)
  destruct (remove_terminal_lines_run (S (length (tl_scrollback (w_term w1)))) w1 Hstep1)
    as (wb & Hloop & Htb & Hstepb & Hbb & Hab).
  { rewrite Hsc1, Hsb1, length_app. lia. }
  { rewrite Hsc1, Hsb1, length_app.
    destruct Hsome as [H|H]; [left; exact H|right].
    destruct fl; [contradiction|]. simpl. lia. }
  { rewrite Hsc1, Hsb1, length_app. lia. }
  assert (Hsbb : tl_scrollback (w_term wb) = tl_scrollback (w_term w)).
  { rewrite Htb, Hsc1, Hsb1. simpl. rewrite Hscrolled, Nat2Z.id.
    rewrite firstn_app, Nat.sub_diag, firstn_all. simpl. apply app_nil_r. }
  set (wc := with_events wb (w_events wb ++ [check_cursor])).
  destruct (set_terminal_mode_run false wc) as (wd & Hsetd & Htd & Hld & Hbd & Had).
  assert (Hclosed : tl_channel_closed (w_term wd) = false).
  { rewrite Htd. cbn [wc w_term with_events]. rewrite Htb. exact Hopen1. }
  exists w1. eexists.
  split; [exact Henter|]. split; [exact Hsb1|].
  split.
  - unfold term_leave_terminal_mode. unfold bind at 1.
    unfold curbuf_b_term, bind, get. rewrite Hbuf1, Z.eqb_refl. unfold ret.
    rewrite Hloop. unfold emit at 1. fold wc. rewrite Hsetd.
    unfold get_term. rewrite Hclosed. reflexivity.
  - cbn [w_term with_events]. split.
    + rewrite Htd. cbn [wc w_term with_events]. exact Hsbb.
    + transitivity (ml_line_count wb).
      * unfold ml_line_count. cbn [w_lines with_events]. rewrite Hld. reflexivity.
      * apply in_step_count; [exact Hstep|exact Hstepb|]. rewrite Hsbb. reflexivity.
Qed.

(** ** Allocation failure during a flush *)

Lemma alloc_request_any (w : world) :
  exists b w', alloc_request w = Ok (b, w') /\ same_but_alloc w w'.
Proof.
  exists (hd true (w_alloc w)), (after_alloc w).
  split; [apply alloc_request_run|apply same_but_alloc_after].
Qed.

Lemma line_text_any (line : sb_line_T) (Hline : line_ok line) : forall fuel col ga w,
  0 <= col -> sb_cols line - col <= Z.of_nat fuel ->
  exists text w', line_text fuel line col ga w = Ok (text, w') /\ same_but_alloc w w'.
Proof.
  induction fuel as [|fuel IH]; intros col ga w Hcol Hfuel.
  - simpl. destruct (Z.ltb_spec col (sb_cols line)); [lia|].
    exists (Some ga), w. split; [reflexivity|apply same_but_alloc_refl].
  - simpl. destruct (Z.ltb_spec col (sb_cols line)) as [Hlt|Hge].
    + destruct (alloc_request_any w) as (b & w1 & Hreq & Hs1).
      unfold bind at 1. rewrite Hreq.
      destruct b; cbn [negb].
      * unfold line_ok in Hline.
        destruct (sb_cells line) as [cells|]; [|lia].
        destruct Hline as [Hlen Hcells].
        destruct (Z.ltb_spec col 0); [lia|].
        destruct (nth_error cells (Z.to_nat col)) as [cell|] eqn:Hcell.
        2:{ apply nth_error_None in Hcell. lia. }
        assert (Hw : 1 <= width cell).
        { unfold cells_ok in Hcells. rewrite Forall_forall in Hcells.
          apply Hcells. eapply nth_error_In; eauto. }
        destruct (IH (col + width cell) (ga ++ cell_bytes 0 (chars cell)) w1)
          as (text & w' & Hrun & Hs'); try lia.
        exists text, w'. split; [exact Hrun|].
        eapply same_but_alloc_trans; eauto.
      * exists None, w1. split; [reflexivity|exact Hs1].
    + exists (Some ga), w. split; [reflexivity|apply same_but_alloc_refl].
Qed.

Lemma add_scrollback_line_to_buffer_any (w : world) (sb0 : list sb_line_T)
    (line : sb_line_T) :
  tl_scrollback (w_term w) = sb0 ++ [line] -> line_ok line ->
  exists w', add_scrollback_line_to_buffer w = Ok (tt, w') /\ w_term w' = w_term w.
Proof.
  intros Hsb Hline.
  unfold add_scrollback_line_to_buffer. unfold bind at 1. unfold get_term.
  rewrite Hsb, length_app. cbn [length].
  replace (Z.of_nat (length sb0 + 1) - 1) with (Z.of_nat (length sb0)) by lia.
  rewrite Nat2Z.id.
  rewrite nth_error_app2 by lia. rewrite Nat.sub_diag. cbn [nth_error].
  destruct (Z.ltb_spec (Z.of_nat (length sb0)) 0); [lia|].
  destruct (line_text_any line Hline (Z.to_nat (sb_cols line)) 0 [] w)
    as (text & w1 & Htext & Hs1); try lia.
  unfold bind at 1. rewrite Htext.
  apply same_but_alloc_fields in Hs1. destruct Hs1 as (Ht1 & _).
  destruct text as [ga|]; [|exists w1; split; [reflexivity|exact Ht1]].
  destruct (alloc_request_any w1) as (b & w2 & Hreq & Hs2).
  unfold bind at 1. rewrite Hreq.
  apply same_but_alloc_fields in Hs2. destruct Hs2 as (Ht2 & _).
  destruct b; cbn [negb]; [|exists w2; split; [reflexivity|congruence]].
  destruct (ml_append_buf_run (Z.of_nat (length sb0)) ga w2)
    as (w3 & Happ & Ht3 & _).
  unfold bind at 1. rewrite Happ.
  destruct (Z.of_nat (length sb0) =? 0).
  - destruct (ml_delete_run 2 w3) as (w4 & Hdel & Ht4 & _).
    exists w4. split; [exact Hdel|congruence].
  - exists w3. split; [reflexivity|congruence].
Qed.

Lemma adds_good_lines_refl w w' : w_term w' = w_term w -> adds_good_lines w w'.
Proof.
  intros H. exists []. rewrite grow_sb_nil. split; [exact H|constructor].
Qed.

Lemma adds_good_lines_trans w1 w2 w3 :
  adds_good_lines w1 w2 -> adds_good_lines w2 w3 -> adds_good_lines w1 w3.
Proof.
  intros (n1 & H1 & F1) (n2 & H2 & F2). exists (n1 ++ n2).
  rewrite H2, H1, grow_sb_grow_sb. split; [reflexivity|].
  apply Forall_app. auto.
Qed.

Lemma store_line_any (line : sb_line_T) (w : world) :
  line_ok line ->
  exists w',
    (push_scrollback line 0 ;;; add_scrollback_line_to_buffer) w = Ok (tt, w')
    /\ adds_good_lines w w'.
Proof.
  intros Hline.
  unfold bind at 1. unfold push_scrollback, bind, get_term, put_term.
  destruct (add_scrollback_line_to_buffer_any
              (with_term w (set_scrollback (w_term w) (tl_scrollback (w_term w) ++ [line])
                              (tl_scrollback_scrolled (w_term w) + 0)))
              (tl_scrollback (w_term w)) line eq_refl Hline) as (w' & Hrun & Ht).
  exists w'. split; [exact Hrun|].
  exists [line]. split; [exact Ht|]. constructor; [exact Hline|constructor].
Qed.

Lemma add_skipped_lines_any (n : nat) : forall w,
  exists w', add_skipped_lines n w = Ok (tt, w') /\ adds_good_lines w w'.
Proof.
  induction n as [|n IH]; intros w.
  - exists w. split; [reflexivity|apply adds_good_lines_refl; reflexivity].
  - cbn [add_skipped_lines].
    destruct (alloc_request_any w) as (b & w1 & Hreq & Hs1).
    unfold bind at 1. rewrite Hreq.
    apply same_but_alloc_fields in Hs1. destruct Hs1 as (Ht1 & _).
    destruct b.
    + destruct (store_line_any empty_line w1 empty_line_ok) as (w2 & Hrun & Hg2).
      unfold bind at 1. unfold empty_line in Hrun. rewrite Hrun.
      destruct (IH w2) as (w3 & Hrun3 & Hg3).
      exists w3. split; [exact Hrun3|].
      eapply adds_good_lines_trans; [apply adds_good_lines_refl; exact Ht1|].
      eapply adds_good_lines_trans; eauto.
    + unfold bind at 1. unfold ret at 1.
      destruct (IH w1) as (w3 & Hrun3 & Hg3).
      exists w3. split; [exact Hrun3|].
      eapply adds_good_lines_trans; [apply adds_good_lines_refl; exact Ht1|exact Hg3].
Qed.

Lemma move_rows_any (vt : VTerm) (Hscreen : screen_ok vt) (rows : list Z) :
  forall s w,
  exists w', move_rows vt rows s w = Ok (tt, w') /\ adds_good_lines w w'.
Proof.
  induction rows as [|r rest IH]; intros s w.
  - exists w. split; [reflexivity|apply adds_good_lines_refl; reflexivity].
  - cbn [move_rows]. unfold bind at 1. unfold get_term.
    destruct (row_len vt (tl_cols (w_term w)) r =? 0).
    + apply IH.
    + destruct (add_skipped_lines_any (Z.to_nat s) w) as (w1 & Hrun1 & Hg1).
      unfold bind at 1. rewrite Hrun1.
      destruct (alloc_request_any w1) as (p & w2 & Hreq2 & Hs2).
      unfold bind at 1. unfold bind at 1. rewrite Hreq2.
      apply same_but_alloc_fields in Hs2. destruct Hs2 as (Ht2 & _).
      assert (Hg2 : adds_good_lines w w2).
      { eapply adds_good_lines_trans; [exact Hg1|].
        apply adds_good_lines_refl. exact Ht2. }
      destruct p.
      * destruct (alloc_request_any w2) as (grown & w3 & Hreq3 & Hs3).
        unfold bind at 1. rewrite Hreq3.
        apply same_but_alloc_fields in Hs3. destruct Hs3 as (Ht3 & _).
        destruct grown.
        -- destruct (store_line_any (stored_row vt (tl_cols (w_term w)) r) w3
                       (stored_row_ok _ _ _ Hscreen)) as (w4 & Hrun4 & Hg4).
           unfold stored_row in Hrun4. rewrite Hrun4.
           destruct (IH 0 w4) as (w5 & Hrun5 & Hg5).
           exists w5. split; [exact Hrun5|].
           eapply adds_good_lines_trans; [exact Hg2|].
           eapply adds_good_lines_trans; [apply adds_good_lines_refl; exact Ht3|].
           eapply adds_good_lines_trans; eauto.
        -- unfold ret at 1.
           destruct (IH 0 w3) as (w5 & Hrun5 & Hg5).
           exists w5. split; [exact Hrun5|].
           eapply adds_good_lines_trans; [exact Hg2|].
           eapply adds_good_lines_trans; [apply adds_good_lines_refl; exact Ht3|exact Hg5].
      * unfold ret at 1.
        destruct (IH 0 w2) as (w5 & Hrun5 & Hg5).
        exists w5. split; [exact Hrun5|].
        eapply adds_good_lines_trans; eauto.
Qed.

(** The flush of the screen, whatever the allocations give: it returns,
    and every line it adds to the scrollback holds its cells (a row whose
    cells or whose place in the scrollback could not be allocated is left
    out). *)
Lemma move_terminal_to_buffer_any (w : world) (vt : VTerm) :
  tl_vterm (w_term w) = Some vt -> screen_ok vt ->
  exists w' new,
    move_terminal_to_buffer w = Ok (tt, w')
    /\ tl_scrollback (w_term w') = tl_scrollback (w_term w) ++ new
    /\ Forall line_ok new.
Proof.
  intros Hvt Hscreen.
  unfold move_terminal_to_buffer. unfold bind at 1. unfold the_vterm. rewrite Hvt.
  unfold bind at 1. unfold get_term.
  destruct (move_rows_any vt Hscreen (upto (tl_rows (w_term w))) 0 w)
    as (w1 & Hrun & new & Ht & Hnew).
  unfold bind at 1. rewrite Hrun.
  unfold bind, get, put.
  eexists. exists new. split; [reflexivity|].
  cbn [w_term with_events with_wins]. rewrite Ht. split; [reflexivity|exact Hnew].
Qed.

(** A push-line event for which the scrollback cannot grow is dropped. *)
Lemma handle_pushline_not_grown (cols : Z) (cells : list VTermScreenCell)
    (w : world) (rest : list bool) :
  w_alloc w = false :: rest ->
  handle_pushline cols cells w = Ok (0, with_alloc w rest).
Proof.
  intros Ha. unfold handle_pushline, bind, alloc_request. rewrite Ha. reflexivity.
Qed.

(** ** The end of the job *)

(** [cleanup_vterm], run when the channel has closed outside of
    Terminal-Normal mode: the screen is flushed, the engine is freed and
    the terminal is back in job mode.  From then on the terminal is
    finished. *)
Lemma cleanup_vterm_finishes (w : world) (vt : VTerm) :
  tl_vterm (w_term w) = Some vt -> screen_ok vt ->
  exists w' new,
    cleanup_vterm w = Ok (tt, w')
    /\ tl_vterm (w_term w') = None
    /\ tl_terminal_mode (w_term w') = false
    /\ tl_scrollback (w_term w') = tl_scrollback (w_term w) ++ new
    /\ Forall line_ok new.
Proof.
  intros Hvt Hscreen. unfold cleanup_vterm.
  destruct (move_terminal_to_buffer_any w vt Hvt Hscreen) as (w1 & new & Hrun & Hsb & Hnew).
  unfold bind at 1. rewrite Hrun.
  unfold bind at 1. unfold term_free_vterm, bind, get_term, put_term.
  destruct (set_terminal_mode_run false
              (with_term w1 (set_vterm (w_term w1) None))) as (w2 & Hset & Ht2 & _).
  exists w2, new. split; [exact Hset|].
  rewrite Ht2. simpl. auto.
Qed.

(** * The session *)

(** ** Runs that return *)

Ltac ok_inv H := inversion H; subst; clear H.

Lemma bind_Ok {A B} (m : M A) (k : A -> M B) (w w' : world) (b : B) :
  bind m k w = Ok (b, w') ->
  exists a w1, m w = Ok (a, w1) /\ k a w1 = Ok (b, w').
Proof.
  unfold bind. destruct (m w) as [[a w1]| |]; try discriminate.
  intros H. exists a, w1. auto.
Qed.

Lemma frame_fields (w w' : world) :
  with_events w' [] = with_events w [] ->
  w_term w' = w_term w /\ w_lines w' = w_lines w /\ w_wins w' = w_wins w
  /\ w_curwin w' = w_curwin w /\ w_curbuf w' = w_curbuf w /\ w_alloc w' = w_alloc w.
Proof.
  intros H.
  change (w_term (with_events w' []) = w_term (with_events w [])
          /\ w_lines (with_events w' []) = w_lines (with_events w [])
          /\ w_wins (with_events w' []) = w_wins (with_events w [])
          /\ w_curwin (with_events w' []) = w_curwin (with_events w [])
          /\ w_curbuf (with_events w' []) = w_curbuf (with_events w [])
          /\ w_alloc (with_events w' []) = w_alloc (with_events w [])).
  rewrite H. repeat split.
Qed.

Lemma only_calls_ret {A} (a : A) : only_calls (ret a).
Proof. intros w. exists a, w. split; reflexivity. Qed.

Lemma only_calls_emit (e : event) : only_calls (emit e).
Proof. intros w. exists tt. eexists. split; reflexivity. Qed.

Lemma only_calls_bind {A B} (m : M A) (k : A -> M B) :
  only_calls m -> (forall a, only_calls (k a)) -> only_calls (bind m k).
Proof.
  intros Hm Hk w. destruct (Hm w) as (a & w1 & H1 & F1).
  destruct (Hk a w1) as (b & w2 & H2 & F2).
  exists b, w2. unfold bind. rewrite H1. split; [exact H2|congruence].
Qed.

Lemma only_calls_update_cursor (redraw : bool) : only_calls (update_cursor redraw).
Proof.
  intros w. unfold update_cursor, bind, emit, get, ret. simpl.
  destruct (redraw && (tl_buffer (w_term w) =? w_curbuf w));
    [destruct (tl_cursor_visible (w_term w)); destruct gui_in_use|];
    simpl; exists tt; eexists; split; reflexivity.
Qed.

(** ** The cursor *)

Lemma position_cursor_bounds (wp : win_T) (w_valid : Z) (pos : VTermPos) :
  0 <= row pos -> 0 <= col pos ->
  w_wrow (fst (position_cursor wp w_valid pos)) = Z.min (row pos) (Z.max 0 (w_height wp - 1))
  /\ w_wcol (fst (position_cursor wp w_valid pos)) = Z.min (col pos) (Z.max 0 (w_width wp - 1))
  /\ w_height (fst (position_cursor wp w_valid pos)) = w_height wp
  /\ w_width (fst (position_cursor wp w_valid pos)) = w_width wp
  /\ w_buffer (fst (position_cursor wp w_valid pos)) = w_buffer wp.
Proof.
  intros Hr Hc. unfold position_cursor. simpl.
  rewrite !MIN_min, !MAX_max. repeat split.
Qed.

(** X1.  [position_cursor] puts the cursor of a window where the cursor
    of the engine is when that is inside the window, and on the last row
    (the last column) of the window when it is further down (further to
    the right): in a window with at least one row and one column the
    cursor ends inside the window, and in a window without rows it ends
    on row 0.  The size and the buffer of the window stay, and both
    flags are set in [w_valid] whatever was set there. *)
Theorem position_cursor_inside (wp : win_T) (w_valid : Z) (pos : VTermPos)
    (Hrow : 0 <= row pos) (Hcol : 0 <= col pos) :
  (1 <= w_height wp -> 1 <= w_width wp ->
   cursor_inside (fst (position_cursor wp w_valid pos)))
  /\ (row pos < w_height wp -> w_wrow (fst (position_cursor wp w_valid pos)) = row pos)
  /\ (w_height wp <= row pos -> 1 <= w_height wp ->
      w_wrow (fst (position_cursor wp w_valid pos)) = w_height wp - 1)
  /\ (col pos < w_width wp -> w_wcol (fst (position_cursor wp w_valid pos)) = col pos)
  /\ (w_width wp <= col pos -> 1 <= w_width wp ->
      w_wcol (fst (position_cursor wp w_valid pos)) = w_width wp - 1)
  /\ (w_height wp <= 0 -> w_wrow (fst (position_cursor wp w_valid pos)) = 0)
  /\ Z.land (snd (position_cursor wp w_valid pos)) (Z.lor VALID_WCOL VALID_WROW)
     = Z.lor VALID_WCOL VALID_WROW.
Proof.
  destruct (position_cursor_bounds wp w_valid pos Hrow Hcol) as (Hr & Hc & Hh & Hw & _).
  unfold cursor_inside. rewrite Hr, Hc, Hh, Hw.
  repeat split; try lia.
  unfold position_cursor. simpl.
  apply Z.bits_inj'. intros n _.
  rewrite Z.land_spec, Z.lor_spec.
  destruct (Z.testbit w_valid n), (Z.testbit (Z.lor VALID_WCOL VALID_WROW) n);
    reflexivity.
Qed.

(** The loop over the windows, window by window. *)
Lemma position_cursors_nth (buf : Z) (pos : VTermPos) : forall wins i w_valid,
  length (fst (position_cursors buf pos i wins w_valid)) = length wins
  /\ (forall j, (j < i)%nat ->
        snd (position_cursors buf pos i wins w_valid) j = w_valid j)
  /\ (forall n wp, nth_error wins n = Some wp ->
        (w_buffer wp = buf ->
         nth_error (fst (position_cursors buf pos i wins w_valid)) n
         = Some (fst (position_cursor wp (w_valid (i + n)%nat) pos))
         /\ snd (position_cursors buf pos i wins w_valid) (i + n)%nat
            = snd (position_cursor wp (w_valid (i + n)%nat) pos))
        /\ (w_buffer wp <> buf ->
            nth_error (fst (position_cursors buf pos i wins w_valid)) n = Some wp
            /\ snd (position_cursors buf pos i wins w_valid) (i + n)%nat
               = w_valid (i + n)%nat)).
Proof.
  induction wins as [|wp0 rest IH]; intros i w_valid.
  - simpl. split; [reflexivity|]. split; [reflexivity|].
    intros n wp H. destruct n; discriminate H.
  - cbn [position_cursors].
    destruct (Z.eqb_spec (w_buffer wp0) buf) as [Hb|Hb].
    + destruct (position_cursor wp0 (w_valid i) pos) as [wp0' v] eqn:Hp.
      specialize (IH (S i) (fun j => if Nat.eqb j i then v else w_valid j)).
      destruct (position_cursors buf pos (S i) rest
                  (fun j => if Nat.eqb j i then v else w_valid j)) as [rest' w_valid'].
      cbn [fst snd] in *. destruct IH as (IHlen & IHlow & IHnth).
      split; [simpl; lia|].
      split.
      * intros j Hj. rewrite IHlow by lia.
        destruct (Nat.eqb_spec j i); [lia|reflexivity].
      * intros n wp Hn. destruct n as [|n].
        -- simpl in Hn. injection Hn as <-.
           rewrite Nat.add_0_r. split.
           ++ intros _. rewrite Hp. simpl. split; [reflexivity|].
              rewrite IHlow by lia. rewrite Nat.eqb_refl. reflexivity.
           ++ intros Hne. contradiction.
        -- simpl in Hn. destruct (IHnth n wp Hn) as [Hin Hout].
           replace (i + S n)%nat with (S i + n)%nat by lia.
           assert (Hv : (if Nat.eqb (S i + n) i then v else w_valid (S i + n)%nat)
                        = w_valid (S i + n)%nat).
           { destruct (Nat.eqb_spec (S i + n) i); [lia|reflexivity]. }
           rewrite Hv in Hin, Hout. split.
           ++ intros Hbuf. destruct (Hin Hbuf) as [H1 H2].
              split; [exact H1|exact H2].
           ++ intros Hbuf. destruct (Hout Hbuf) as [H1 H2].
              split; [exact H1|exact H2].
    + specialize (IH (S i) w_valid).
      destruct (position_cursors buf pos (S i) rest w_valid) as [rest' w_valid'].
      cbn [fst snd] in *. destruct IH as (IHlen & IHlow & IHnth).
      split; [simpl; lia|].
      split.
      * intros j Hj. apply IHlow. lia.
      * intros n wp Hn. destruct n as [|n].
        -- simpl in Hn. injection Hn as <-.
           rewrite Nat.add_0_r. split.
           ++ intros Heq. contradiction.
           ++ intros _. split; [reflexivity|]. apply IHlow. lia.
        -- simpl in Hn. destruct (IHnth n wp Hn) as [Hin Hout].
           replace (i + S n)%nat with (S i + n)%nat by lia.
           split; [exact Hin|exact Hout].
Qed.

(** X2.  The move-cursor callback, with a [cursor_off] that acts on the
    screen only: it returns 1, the terminal holds the new position and
    visibility of the cursor and is otherwise what it was, every window
    that shows the terminal has its cursor positioned from the new
    position (inside the window when the window has a row and a column)
    with both flags set in its [w_valid], and every other window and its
    [w_valid] are untouched. *)
Theorem handle_movecursor_positions (pos oldpos : VTermPos) (visible : bool)
    (w_valid : nat -> Z) (w : world)
    (Hoff : only_calls cursor_off)
    (Hrow : 0 <= row pos) (Hcol : 0 <= col pos) :
  exists w_valid' w',
    handle_movecursor pos oldpos visible w_valid w = Ok ((1, w_valid'), w')
    /\ w_term w' = set_cursor (w_term w) pos visible
    /\ w_lines w' = w_lines w
    /\ length (w_wins w') = length (w_wins w)
    /\ forall n wp, nth_error (w_wins w) n = Some wp ->
         (w_buffer wp = tl_buffer (w_term w) ->
          exists wp',
            nth_error (w_wins w') n = Some wp'
            /\ wp' = fst (position_cursor wp (w_valid n) pos)
            /\ (1 <= w_height wp -> 1 <= w_width wp -> cursor_inside wp')
            /\ w_valid' n = Z.lor (w_valid n) (Z.lor VALID_WCOL VALID_WROW))
         /\ (w_buffer wp <> tl_buffer (w_term w) ->
             nth_error (w_wins w') n = Some wp /\ w_valid' n = w_valid n).
Proof.
  unfold handle_movecursor.
  unfold bind at 1. unfold get_term at 1.
  unfold bind at 1. unfold put_term.
  unfold bind at 1. unfold get.
  cbn [w_wins with_term w_curbuf].
  pose proof (position_cursors_nth (tl_buffer (w_term w)) pos (w_wins w) 0 w_valid)
    as (Hlen & _ & Hnth).
  destruct (position_cursors (tl_buffer (w_term w)) pos 0 (w_wins w) w_valid)
    as [wins w_valid'] eqn:Hpc.
  cbn [fst snd] in *.
  unfold bind at 1. unfold put.
  set (w1 := with_wins (with_term w (set_cursor (w_term w) pos visible)) wins).
  assert (Hrest : only_calls
            (if tl_buffer (w_term w) =? w_curbuf w
             then may_toggle_cursor ;;; (term <- get_term ;;
                                         update_cursor (tl_cursor_visible term))
             else ret tt)).
  { destruct (tl_buffer (w_term w) =? w_curbuf w); [|apply only_calls_ret].
    apply only_calls_bind.
    - intros w0. unfold may_toggle_cursor, bind, get.
      destruct (w_curbuf w0 =? tl_buffer (w_term w0)); [|apply only_calls_ret].
      destruct (tl_cursor_visible (w_term w0)); [apply only_calls_emit|apply Hoff].
    - intros _. intros w0. unfold bind, get_term. apply only_calls_update_cursor. }
  destruct (Hrest w1) as (u & w2 & Hrun & Hframe).
  apply frame_fields in Hframe. destruct Hframe as (Ht & Hl & Hw & _).
  exists w_valid', w2. unfold bind at 1. rewrite Hrun. unfold ret.
  split; [reflexivity|].
  rewrite Ht, Hl, Hw. cbn [w1 w_term w_lines w_wins with_wins with_term].
  split; [reflexivity|]. split; [reflexivity|]. split; [exact Hlen|].
  intros n wp Hn. destruct (Hnth n wp Hn) as [Hin Hout]. simpl in Hin, Hout.
  split.
  - intros Hb. destruct (Hin Hb) as [H1 H2].
    exists (fst (position_cursor wp (w_valid n) pos)).
    split; [exact H1|]. split; [reflexivity|]. split.
    + intros Hh Hwd.
      destruct (position_cursor_bounds wp (w_valid n) pos Hrow Hcol)
        as (Hr & Hc & Hh' & Hw' & _).
      unfold cursor_inside. rewrite Hr, Hc, Hh', Hw'. lia.
    + rewrite H2. reflexivity.
  - intros Hb. apply Hout. exact Hb.
Qed.

(** ** What keeps the engine *)

Lemma engine_kept_refl (w : world) : engine_kept w w.
Proof. unfold engine_kept. repeat split; auto. Qed.

Lemma engine_kept_trans (w1 w2 w3 : world) :
  engine_kept w1 w2 -> engine_kept w2 w3 -> engine_kept w1 w3.
Proof.
  unfold engine_kept. intros (A1 & B1 & C1) (A2 & B2 & C2).
  split; [|split; congruence].
  split; intros H; [apply A1, A2, H|apply A2, A1, H].
Qed.

Lemma engine_kept_term (w w' : world) : w_term w' = w_term w -> engine_kept w w'.
Proof. intros H. unfold engine_kept. rewrite H. repeat split; auto. Qed.

Lemma engine_kept_live (w w' : world) :
  engine_kept w w' -> tl_vterm (w_term w) <> None -> tl_vterm (w_term w') <> None.
Proof. intros (A & _) H H'. apply H, A, H'. Qed.

Lemma keeps_same_term {A} (m : M A) :
  (forall w a w', m w = Ok (a, w') -> w_term w' = w_term w) -> keeps_engine m.
Proof. intros H w a w' Hrun. apply engine_kept_term. eapply H, Hrun. Qed.

Lemma keeps_ret {A} (a : A) : keeps_engine (ret a).
Proof. apply keeps_same_term. intros w a' w' H. ok_inv H. reflexivity. Qed.

Lemma keeps_fault {A} : keeps_engine (@fault A).
Proof. intros w a w' H. discriminate H. Qed.

Lemma keeps_timeout {A} : keeps_engine (@timeout A).
Proof. intros w a w' H. discriminate H. Qed.

Lemma keeps_bind {A B} (m : M A) (k : A -> M B) :
  keeps_engine m -> (forall a, keeps_engine (k a)) -> keeps_engine (bind m k).
Proof.
  intros Hm Hk w b w' H. apply bind_Ok in H. destruct H as (a & w1 & H1 & H2).
  eapply engine_kept_trans; [eapply Hm, H1|eapply Hk, H2].
Qed.

Lemma keeps_get : keeps_engine get.
Proof. apply keeps_same_term. intros w a w' H. ok_inv H. reflexivity. Qed.

Lemma keeps_get_term : keeps_engine get_term.
Proof. apply keeps_same_term. intros w a w' H. ok_inv H. reflexivity. Qed.

Lemma keeps_emit (e : event) : keeps_engine (emit e).
Proof. apply keeps_same_term. intros w a w' H. ok_inv H. reflexivity. Qed.

Lemma keeps_alloc_request : keeps_engine alloc_request.
Proof.
  apply keeps_same_term. intros w a w' H. rewrite alloc_request_run in H.
  ok_inv H. unfold after_alloc. destruct (w_alloc w); reflexivity.
Qed.

Lemma keeps_ml_append_buf (lnum : Z) (text : list byte) :
  keeps_engine (ml_append_buf lnum text).
Proof.
  apply keeps_same_term. intros w a w' H.
  destruct (ml_append_buf_run lnum text w) as (w0 & H0 & Ht & _).
  rewrite H0 in H. ok_inv H. exact Ht.
Qed.

Lemma keeps_ml_delete (lnum : Z) : keeps_engine (ml_delete lnum).
Proof.
  apply keeps_same_term. intros w a w' H.
  destruct (ml_delete_run lnum w) as (w0 & H0 & Ht & _).
  rewrite H0 in H. ok_inv H. exact Ht.
Qed.

Lemma keeps_live_of_keeps {A} (m : M A) : keeps_engine m -> keeps_live_engine m.
Proof. intros H w a w' _ Hrun. eapply H, Hrun. Qed.

Lemma keeps_the_vterm_bind {A} (k : VTerm -> M A) :
  (forall vt, keeps_live_engine (k vt)) -> keeps_engine (bind the_vterm k).
Proof.
  intros Hk w a w' H. unfold bind, the_vterm in H.
  destruct (tl_vterm (w_term w)) as [vt|] eqn:Hvt; [|discriminate H].
  eapply Hk; [|exact H]. rewrite Hvt. discriminate.
Qed.

Lemma keeps_push_scrollback (line : sb_line_T) (scrolled : Z) :
  keeps_engine (push_scrollback line scrolled).
Proof.
  intros w a w' H. unfold push_scrollback, bind, get_term, put_term in H.
  ok_inv H. unfold engine_kept. simpl. repeat split; auto.
Qed.

Lemma keeps_line_text (line : sb_line_T) : forall fuel col ga,
  keeps_engine (line_text fuel line col ga).
Proof.
  induction fuel as [|fuel IH]; intros col ga; cbn [line_text].
  - destruct (col <? sb_cols line); [apply keeps_timeout|apply keeps_ret].
  - destruct (col <? sb_cols line); [|apply keeps_ret].
    apply keeps_bind; [apply keeps_alloc_request|]. intros grown.
    destruct (negb grown); [apply keeps_ret|].
    destruct (sb_cells line); [|apply keeps_fault].
    destruct (col <? 0); [apply keeps_fault|].
    destruct (nth_error l (Z.to_nat col)); [apply IH|apply keeps_fault].
Qed.

Lemma keeps_add_scrollback_line_to_buffer : keeps_engine add_scrollback_line_to_buffer.
Proof.
  unfold add_scrollback_line_to_buffer.
  apply keeps_bind; [apply keeps_get_term|]. intros term.
  destruct (nth_error _ _) as [line|]; [|apply keeps_fault].
  destruct (_ <? 0); [apply keeps_fault|].
  apply keeps_bind; [apply keeps_line_text|]. intros [ga|]; [|apply keeps_ret].
  apply keeps_bind; [apply keeps_alloc_request|]. intros grown.
  destruct (negb grown); [apply keeps_ret|].
  apply keeps_bind; [apply keeps_ml_append_buf|]. intros _.
  destruct (_ =? 0); [apply keeps_ml_delete|apply keeps_ret].
Qed.

Lemma keeps_add_skipped_lines : forall n, keeps_engine (add_skipped_lines n).
Proof.
  induction n as [|n IH]; cbn [add_skipped_lines]; [apply keeps_ret|].
  apply keeps_bind; [apply keeps_alloc_request|]. intros grown.
  apply keeps_bind; [|intros _; exact IH].
  destruct grown; [|apply keeps_ret].
  apply keeps_bind; [apply keeps_push_scrollback|]. intros _.
  apply keeps_add_scrollback_line_to_buffer.
Qed.

Lemma keeps_move_rows (vt : VTerm) : forall rows lines_skipped,
  keeps_engine (move_rows vt rows lines_skipped).
Proof.
  induction rows as [|r rest IH]; intros lines_skipped; cbn [move_rows];
    [apply keeps_ret|].
  apply keeps_bind; [apply keeps_get_term|]. intros term.
  destruct (_ =? 0); [apply IH|].
  apply keeps_bind; [apply keeps_add_skipped_lines|]. intros _.
  apply keeps_bind; [apply keeps_alloc_request|]. intros p.
  apply keeps_bind; [|intros _; apply IH].
  destruct p; [|apply keeps_ret].
  apply keeps_bind; [apply keeps_alloc_request|]. intros grown.
  destruct grown; [|apply keeps_ret].
  apply keeps_bind; [apply keeps_push_scrollback|]. intros _.
  apply keeps_add_scrollback_line_to_buffer.
Qed.

Lemma keeps_move_terminal_to_buffer : keeps_engine move_terminal_to_buffer.
Proof.
  unfold move_terminal_to_buffer.
  apply keeps_the_vterm_bind. intros vt. apply keeps_live_of_keeps.
  apply keeps_bind; [apply keeps_get_term|]. intros term.
  apply keeps_bind; [apply keeps_move_rows|]. intros _.
  apply keeps_same_term. intros w a w' H. unfold bind, get, put in H.
  ok_inv H. reflexivity.
Qed.

Lemma keeps_pushed_line (cols : Z) (cells : list VTermScreenCell) :
  keeps_engine (pushed_line cols cells).
Proof.
  unfold pushed_line. destruct (_ >? _); [apply keeps_fault|].
  apply keeps_bind; [|intros p; apply keeps_ret].
  destruct (_ >? 0); [|apply keeps_ret].
  apply keeps_bind; [apply keeps_alloc_request|]. intros got. apply keeps_ret.
Qed.

Lemma keeps_handle_pushline (cols : Z) (cells : list VTermScreenCell) :
  keeps_engine (handle_pushline cols cells).
Proof.
  unfold handle_pushline.
  apply keeps_bind; [apply keeps_alloc_request|]. intros grown.
  apply keeps_bind; [|intros _; apply keeps_ret].
  destruct grown; [|apply keeps_ret].
  apply keeps_bind; [apply keeps_pushed_line|]. intros line.
  apply keeps_bind; [apply keeps_push_scrollback|]. intros _.
  apply keeps_add_scrollback_line_to_buffer.
Qed.

(** ** What leaves engine, scrollback and buffer alone *)

Lemma quiet_step_refl (w : world) : quiet_step w w.
Proof. unfold quiet_step. split; [apply engine_kept_refl|]. auto. Qed.

Lemma quiet_step_trans (w1 w2 w3 : world) :
  quiet_step w1 w2 -> quiet_step w2 w3 -> quiet_step w1 w3.
Proof.
  unfold quiet_step. intros (E1 & A1 & B1 & C1 & D1) (E2 & A2 & B2 & C2 & D2).
  split; [eapply engine_kept_trans; eauto|].
  repeat split; try congruence. auto.
Qed.

Lemma quiet_step_same (w w' : world) :
  w_term w' = w_term w -> w_lines w' = w_lines w -> w_alloc w' = w_alloc w ->
  quiet_step w w'.
Proof.
  intros Ht Hl Ha. unfold quiet_step, alloc_ok.
  split; [apply engine_kept_term, Ht|]. rewrite Ht, Hl, Ha. auto.
Qed.

Lemma quiet_step_live (w w' : world) :
  quiet_step w w' -> tl_vterm (w_term w) <> None -> tl_vterm (w_term w') <> None.
Proof. intros (E & _). apply engine_kept_live, E. Qed.

Lemma keeps_engine_of_quiet {A} (m : M A) : keeps_quiet m -> keeps_engine m.
Proof. intros H w a w' Hrun. apply (H w a w' Hrun). Qed.

Lemma quiet_same {A} (m : M A) :
  (forall w a w', m w = Ok (a, w') ->
     w_term w' = w_term w /\ w_lines w' = w_lines w /\ w_alloc w' = w_alloc w) ->
  keeps_quiet m.
Proof.
  intros H w a w' Hrun. destruct (H w a w' Hrun) as (Ht & Hl & Ha).
  apply quiet_step_same; assumption.
Qed.

Lemma quiet_ret {A} (a : A) : keeps_quiet (ret a).
Proof. apply quiet_same. intros w a' w' H. ok_inv H. auto. Qed.

Lemma quiet_fault {A} : keeps_quiet (@fault A).
Proof. intros w a w' H. discriminate H. Qed.

Lemma quiet_timeout {A} : keeps_quiet (@timeout A).
Proof. intros w a w' H. discriminate H. Qed.

Lemma quiet_bind {A B} (m : M A) (k : A -> M B) :
  keeps_quiet m -> (forall a, keeps_quiet (k a)) -> keeps_quiet (bind m k).
Proof.
  intros Hm Hk w b w' H. apply bind_Ok in H. destruct H as (a & w1 & H1 & H2).
  eapply quiet_step_trans; [eapply Hm, H1|eapply Hk, H2].
Qed.

Lemma quiet_get : keeps_quiet get.
Proof. apply quiet_same. intros w a w' H. ok_inv H. auto. Qed.

Lemma quiet_get_term : keeps_quiet get_term.
Proof. apply quiet_same. intros w a w' H. ok_inv H. auto. Qed.

Lemma quiet_emit (e : event) : keeps_quiet (emit e).
Proof. apply quiet_same. intros w a w' H. ok_inv H. auto. Qed.

Lemma quiet_only_calls {A} (m : M A) : only_calls m -> keeps_quiet m.
Proof.
  intros Hm. apply quiet_same. intros w a w' H.
  destruct (Hm w) as (a0 & w0 & H0 & F). rewrite H0 in H. ok_inv H.
  apply frame_fields in F. destruct F as (Ht & Hl & _ & _ & _ & Ha). auto.
Qed.

Lemma quiet_alloc_request : keeps_quiet alloc_request.
Proof.
  intros w a w' H. rewrite alloc_request_run in H. ok_inv H.
  unfold quiet_step. split.
  - apply engine_kept_term. unfold after_alloc. destruct (w_alloc w); reflexivity.
  - unfold after_alloc. destruct (w_alloc w) eqn:E; repeat split; auto.
    unfold alloc_ok. rewrite E. cbn [w_alloc with_alloc]. intros Hok.
    inversion Hok; subst. assumption.
Qed.

Lemma quiet_update_term {A} (f : term_T -> term_T) (rest : term_T -> M A) :
  quiet_update f -> (forall t, keeps_quiet (rest t)) ->
  keeps_quiet (term <- get_term ;; put_term (f term) ;;; rest term).
Proof.
  intros Hf Hrest w a w' H. unfold bind at 1 in H. unfold get_term in H.
  unfold bind at 1 in H. unfold put_term in H.
  eapply quiet_step_trans; [|eapply Hrest, H].
  destruct (Hf (w_term w)) as (Hv & Hm & Hc & Hs & Hn).
  unfold quiet_step, engine_kept. cbn [w_term with_term w_lines]. rewrite Hv, Hm, Hc, Hs, Hn.
  repeat split; auto.
Qed.

Lemma quiet_live_of_keeps {A} (m : M A) : keeps_quiet m -> keeps_live_quiet m.
Proof. intros H w a w' _ Hrun. eapply H, Hrun. Qed.

Lemma quiet_live_bind {A B} (m : M A) (k : A -> M B) :
  keeps_live_quiet m -> (forall a, keeps_live_quiet (k a)) ->
  keeps_live_quiet (bind m k).
Proof.
  intros Hm Hk w b w' Hlive H. apply bind_Ok in H. destruct H as (a & w1 & H1 & H2).
  pose proof (Hm w a w1 Hlive H1) as K1.
  eapply quiet_step_trans; [exact K1|].
  eapply Hk; [|exact H2]. eapply quiet_step_live; eauto.
Qed.

Lemma quiet_the_vterm_bind {A} (k : VTerm -> M A) :
  (forall vt, keeps_live_quiet (k vt)) -> keeps_quiet (bind the_vterm k).
Proof.
  intros Hk w a w' H. unfold bind, the_vterm in H.
  destruct (tl_vterm (w_term w)) as [vt|] eqn:Hvt; [|discriminate H].
  eapply Hk; [|exact H]. rewrite Hvt. discriminate.
Qed.

Lemma quiet_live_put_vterm (vt : VTerm) : keeps_live_quiet (put_vterm vt).
Proof.
  intros w a w' Hlive H. rewrite put_vterm_run in H. ok_inv H.
  unfold quiet_step, engine_kept.
  cbn [w_term with_term set_vterm tl_vterm tl_terminal_mode tl_channel_closed
       tl_scrollback tl_scrollback_scrolled w_lines].
  repeat split; auto; intros H; [discriminate H|contradiction].
Qed.

Lemma quiet_handle_damage (rect : VTermRect) : keeps_quiet (handle_damage rect).
Proof.
  unfold handle_damage.
  apply (quiet_update_term (fun term => set_dirty term
                         (MIN (tl_dirty_row_start term) (start_row rect))
                         (MAX (tl_dirty_row_end term) (end_row rect)))
                      (fun term => emit (redraw_buf_later (tl_buffer term) NOT_VALID)
                                   ;;; ret 1)).
  - intros t. repeat split.
  - intros t. apply quiet_bind; [apply quiet_emit|]. intros _. apply quiet_ret.
Qed.

Lemma quiet_handle_moverect (dest src : VTermRect) :
  keeps_quiet (handle_moverect dest src).
Proof.
  unfold handle_moverect.
  apply quiet_bind; [apply quiet_get_term|]. intros term.
  apply quiet_bind; [apply quiet_emit|]. intros _. apply quiet_ret.
Qed.

Lemma quiet_update_cursor (redraw : bool) : keeps_quiet (update_cursor redraw).
Proof. apply quiet_only_calls, only_calls_update_cursor. Qed.

Lemma quiet_may_toggle_cursor : only_calls cursor_off -> keeps_quiet may_toggle_cursor.
Proof.
  intros Hoff. unfold may_toggle_cursor.
  apply quiet_bind; [apply quiet_get|]. intros w.
  destruct (_ =? _); [|apply quiet_ret].
  destruct (tl_cursor_visible _); [apply quiet_emit|apply quiet_only_calls, Hoff].
Qed.

Lemma quiet_handle_movecursor (pos oldpos : VTermPos) (visible : bool)
    (w_valid : nat -> Z) :
  only_calls cursor_off -> keeps_quiet (handle_movecursor pos oldpos visible w_valid).
Proof.
  intros Hoff. unfold handle_movecursor.
  apply (quiet_update_term (fun term => set_cursor term pos visible)
           (fun term =>
              w <- get ;;
              (let '(wins, w_valid0) :=
                 position_cursors (tl_buffer term) pos 0 (w_wins w) w_valid in
               put (with_wins w wins) ;;;
               (if tl_buffer term =? w_curbuf w
                then may_toggle_cursor ;;;
                     (term0 <- get_term ;; update_cursor (tl_cursor_visible term0))
                else ret tt) ;;;
               ret (1, w_valid0)))).
  - intros t. repeat split.
  - intros t. intros w a w' H. unfold bind at 1 in H. unfold get in H.
    destruct (position_cursors (tl_buffer t) pos 0 (w_wins w) w_valid) as [wins v].
    unfold bind at 1 in H. unfold put in H.
    eapply quiet_step_trans;
      [apply (quiet_step_same w (with_wins w wins)); reflexivity|].
    revert H. apply quiet_bind; [|intros _; apply quiet_ret].
    destruct (_ =? _); [|apply quiet_ret].
    apply quiet_bind; [apply quiet_may_toggle_cursor, Hoff|]. intros _.
    apply quiet_bind; [apply quiet_get_term|]. intros term0. apply quiet_update_cursor.
Qed.

Lemma quiet_vim_strsave (s : list byte) : keeps_quiet (vim_strsave s).
Proof.
  unfold vim_strsave. apply quiet_bind; [apply quiet_alloc_request|].
  intros p. apply quiet_ret.
Qed.

Lemma quiet_handle_settermprop (prop : VTermProp) (value : VTermValue) :
  only_calls cursor_off -> keeps_quiet (handle_settermprop prop value).
Proof.
  intros Hoff. unfold handle_settermprop.
  apply quiet_bind; [|intros _; apply quiet_ret].
  destruct prop; try apply quiet_ret.
  - destruct value; try apply quiet_fault.
    apply (quiet_update_term (fun term => set_cursor term (tl_cursor_pos term) b)
             (fun _ => may_toggle_cursor ;;; emit out_flush)).
    + intros t. repeat split.
    + intros _. apply quiet_bind; [apply quiet_may_toggle_cursor, Hoff|].
      intros _. apply quiet_emit.
  - destruct value; try apply quiet_fault.
    apply quiet_bind; [apply quiet_vim_strsave|]. intros title.
    apply (quiet_update_term (fun term => set_title term title)
             (fun _ => w <- get ;;
                       match b_term w (w_curbuf w) with
                       | Some _ => emit maketitle
                       | None => ret tt
                       end)).
    + intros t. repeat split.
    + intros _. apply quiet_bind; [apply quiet_get|]. intros w.
      destruct (b_term w (w_curbuf w)); [apply quiet_emit|apply quiet_ret].
Qed.

Lemma quiet_term_write_job_output (msg : list byte) (len : nat) :
  keeps_quiet (term_write_job_output msg len).
Proof.
  unfold term_write_job_output. apply quiet_the_vterm_bind. intros vt.
  destruct (write_chunks _ _ _ _ _) as [vt'| |];
    [|apply quiet_live_of_keeps, quiet_fault|apply quiet_live_of_keeps, quiet_timeout].
  apply (quiet_live_put_vterm (vterm_screen_flush_damage vt')).
Qed.

Lemma quiet_write_to_term (msg : list byte) : keeps_quiet (write_to_term msg).
Proof.
  unfold write_to_term.
  apply quiet_bind; [apply quiet_get_term|]. intros term.
  destruct (tl_vterm term); [|apply quiet_emit].
  apply quiet_bind; [apply quiet_emit|]. intros _.
  apply quiet_bind; [apply quiet_term_write_job_output|]. intros _.
  apply quiet_bind; [apply quiet_emit|]. intros _. apply quiet_update_cursor.
Qed.

Lemma quiet_live_read_back : keeps_live_quiet read_back.
Proof.
  unfold read_back. apply quiet_live_of_keeps, quiet_the_vterm_bind. intros vt.
  destruct (vterm_output_read vt KEY_BUF_LEN) as [[vt' buf] n].
  apply quiet_live_bind; [apply quiet_live_put_vterm|]. intros _.
  apply quiet_live_of_keeps, quiet_ret.
Qed.

Lemma quiet_term_send_mouse (button : Z) (pressed : bool) :
  keeps_quiet (term_send_mouse button pressed).
Proof.
  unfold term_send_mouse. apply quiet_the_vterm_bind. intros vt.
  apply quiet_live_bind; [apply quiet_live_of_keeps, quiet_get|]. intros w.
  apply quiet_live_bind; [apply quiet_live_put_vterm|]. intros _.
  apply quiet_live_of_keeps, quiet_ret.
Qed.

Lemma quiet_term_convert_key (c : key) : keeps_quiet (term_convert_key c).
Proof.
  unfold term_convert_key.
  destruct (convert_switch c) as [|start|c' k md|button pressed].
  - apply quiet_ret.
  - apply quiet_the_vterm_bind. intros vt.
    apply quiet_live_bind; [apply quiet_live_put_vterm|]. intros _.
    apply quiet_live_of_keeps, quiet_ret.
  - apply quiet_the_vterm_bind. intros vt.
    apply quiet_live_bind; [|intros _; apply quiet_live_read_back].
    destruct (negb _); apply quiet_live_put_vterm.
  - intros w a w' H. apply bind_Ok in H. destruct H as (b & w1 & H1 & H2).
    pose proof (quiet_term_send_mouse button pressed w b w1 H1) as K1.
    eapply quiet_step_trans; [exact K1|].
    eapply quiet_live_read_back; [|exact H2].
    unfold term_send_mouse, bind, the_vterm in H1.
    destruct (tl_vterm (w_term w)) eqn:Hvt; [|discriminate H1].
    eapply quiet_step_live; [exact K1|]. rewrite Hvt. discriminate.
Qed.

Lemma quiet_catch_normal_mode_keys (c : key) (typed : bool) :
  keeps_quiet (catch_normal_mode_keys c typed).
Proof.
  apply quiet_same. intros w a w' H. revert H.
  destruct c as [z|k].
  - destruct z; destruct typed; simpl; unfold bind, emit, ret; simpl;
      intros H; ok_inv H; auto.
  - destruct typed;
      destruct k; simpl; unfold bind, emit, ret, get, put; simpl;
      try (destruct (mouse_outside w _)); simpl;
      intros H; ok_inv H; auto.
Qed.

Lemma quiet_send_keys_to_term (c : key) (typed : bool) :
  keeps_quiet (send_keys_to_term c typed).
Proof.
  unfold send_keys_to_term.
  apply quiet_bind; [apply quiet_catch_normal_mode_keys|]. intros [r|]; [apply quiet_ret|].
  apply quiet_bind.
  { destruct typed; [|apply quiet_ret].
    apply quiet_same. intros w a w' H. unfold bind, get, put in H.
    ok_inv H. auto. }
  intros _. apply quiet_bind; [apply quiet_term_convert_key|]. intros [msg len].
  apply quiet_bind; [|intros _; apply quiet_ret].
  destruct (len >? 0); [|apply quiet_ret].
  apply quiet_bind; [apply quiet_get_term|]. intros term.
  destruct (tl_job term); [apply quiet_emit|apply quiet_fault].
Qed.

Lemma quiet_term_get_status_text (b_fname : list byte) :
  keeps_quiet (term_get_status_text b_fname).
Proof.
  intros w a w' H. unfold term_get_status_text in H.
  unfold bind at 1 in H. unfold get_term in H.
  destruct (tl_status_text (w_term w)); [ok_inv H; apply quiet_step_refl|].
  apply bind_Ok in H. destruct H as (p & w1 & Hreq & H).
  pose proof (quiet_alloc_request _ _ _ Hreq) as K1.
  rewrite alloc_request_run in Hreq. injection Hreq as _ <-.
  destruct p.
  - unfold bind, put_term, ret in H. ok_inv H.
    eapply quiet_step_trans; [exact K1|].
    assert (Ht : w_term (after_alloc w) = w_term w).
    { unfold after_alloc. destruct (w_alloc w); reflexivity. }
    unfold quiet_step, engine_kept, alloc_ok.
    cbn [w_term with_term w_lines w_alloc set_status_text tl_vterm tl_terminal_mode
         tl_channel_closed tl_scrollback tl_scrollback_scrolled].
    rewrite Ht. repeat split; auto.
  - ok_inv H. exact K1.
Qed.

Lemma keeps_remove_terminal_lines : forall fuel, keeps_engine (remove_terminal_lines fuel).
Proof.
  assert (Hstep : forall fuel,
            (forall fuel', fuel = S fuel' -> keeps_engine (remove_terminal_lines fuel')) ->
            keeps_engine (remove_terminal_lines fuel)).
  { intros fuel IH w a w' H.
    destruct fuel as [|fuel']; cbn [remove_terminal_lines] in H;
      unfold bind at 1 in H; unfold get in H;
      destruct (ml_line_count w >? tl_scrollback_scrolled (w_term w));
      try discriminate H;
      try (ok_inv H; apply engine_kept_refl).
    apply bind_Ok in H. destruct H as (u & w1 & Hdel & H).
    pose proof (keeps_ml_delete _ _ _ _ Hdel) as K1.
    eapply engine_kept_trans; [exact K1|].
    unfold bind at 1 in H. unfold get_term in H.
    destruct (tl_scrollback (w_term w1)) as [|l0 sb] eqn:Hsb; [discriminate H|].
    unfold bind at 1 in H. unfold put_term in H.
    unfold bind at 1 in H. unfold get_term in H.
    set (w2 := with_term w1 (set_scrollback (w_term w1) (removelast (l0 :: sb))
                               (tl_scrollback_scrolled (w_term w1)))) in *.
    assert (K2 : engine_kept w1 w2).
    { unfold engine_kept. simpl. repeat split; auto. }
    eapply engine_kept_trans; [exact K2|].
    destruct (Z.of_nat (length (tl_scrollback (w_term w2))) =? 0).
    - ok_inv H. apply engine_kept_refl.
    - eapply (IH fuel' eq_refl), H. }
  induction fuel as [|fuel IH]; apply Hstep.
  - intros fuel' E. discriminate E.
  - intros fuel' E. injection E as <-. exact IH.
Qed.

Lemma keeps_term_change_in_curbuf : keeps_engine term_change_in_curbuf.
Proof.
  unfold term_change_in_curbuf.
  apply keeps_bind; [apply keeps_get|]. intros w.
  destruct (_ && _); [|apply keeps_ret].
  apply keeps_bind; [|intros _; apply keeps_emit].
  intros w0 a w' H. unfold free_scrollback, bind, get_term, put_term in H.
  ok_inv H. unfold engine_kept. simpl. repeat split; auto.
Qed.

(** ** Changes of mode and the end of the job *)

Lemma set_terminal_mode_Ok (on : bool) (w w' : world) :
  set_terminal_mode on w = Ok (tt, w') ->
  w_term w' = set_mode_and_status (w_term w) on.
Proof.
  intros H. destruct (set_terminal_mode_run on w) as (w0 & H0 & Ht & _).
  rewrite H0 in H. ok_inv H. exact Ht.
Qed.

Lemma cleanup_vterm_Ok (w w' : world) :
  cleanup_vterm w = Ok (tt, w') ->
  tl_vterm (w_term w') = None
  /\ tl_terminal_mode (w_term w') = false
  /\ tl_channel_closed (w_term w') = tl_channel_closed (w_term w).
Proof.
  intros H. unfold cleanup_vterm in H.
  apply bind_Ok in H. destruct H as (u & w1 & H1 & H).
  apply keeps_move_terminal_to_buffer in H1. destruct H1 as (_ & _ & Hc1).
  unfold bind at 1 in H. unfold term_free_vterm, bind, get_term, put_term in H.
  apply set_terminal_mode_Ok in H. rewrite H. simpl. auto.
Qed.

Lemma term_enter_terminal_mode_Ok (w w' : world) :
  term_enter_terminal_mode w = Ok (tt, w') ->
  tl_vterm (w_term w) <> None
  /\ tl_vterm (w_term w') <> None
  /\ tl_terminal_mode (w_term w') = true
  /\ tl_channel_closed (w_term w') = tl_channel_closed (w_term w).
Proof.
  intros H. unfold term_enter_terminal_mode in H.
  apply bind_Ok in H. destruct H as (t & w0 & H0 & H).
  assert (E0 : w0 = w).
  { unfold curbuf_b_term, bind, get in H0.
    destruct (tl_buffer (w_term w) =? w_curbuf w); [|discriminate H0].
    ok_inv H0. reflexivity. }
  subst w0.
  apply bind_Ok in H. destruct H as (u & w1 & H1 & H).
  assert (Hlive : tl_vterm (w_term w) <> None).
  { unfold move_terminal_to_buffer, bind, the_vterm in H1.
    destruct (tl_vterm (w_term w)); [discriminate|discriminate H1]. }
  apply keeps_move_terminal_to_buffer in H1.
  pose proof (engine_kept_live _ _ H1 Hlive) as Hlive1.
  destruct H1 as (_ & _ & Hc1).
  apply set_terminal_mode_Ok in H. rewrite H. simpl. auto.
Qed.

Lemma finished_ok_kept (w w' : world) :
  engine_kept w w' -> finished_ok (w_term w) -> finished_ok (w_term w').
Proof.
  unfold engine_kept, finished_ok. intros (A & B & C) H Hn.
  rewrite B, C. apply H, A, Hn.
Qed.

Lemma term_leave_terminal_mode_Ok (w w' : world) :
  term_leave_terminal_mode w = Ok (tt, w') ->
  tl_terminal_mode (w_term w') = false
  /\ tl_channel_closed (w_term w') = tl_channel_closed (w_term w)
  /\ (tl_vterm (w_term w') = None ->
      tl_channel_closed (w_term w) = true \/ tl_vterm (w_term w) = None)
  /\ (tl_vterm (w_term w) = None -> tl_vterm (w_term w') = None).
Proof.
  intros H. unfold term_leave_terminal_mode in H.
  apply bind_Ok in H. destruct H as (t & w0 & H0 & H).
  assert (E0 : w0 = w).
  { unfold curbuf_b_term, bind, get in H0.
    destruct (tl_buffer (w_term w) =? w_curbuf w); [|discriminate H0].
    ok_inv H0. reflexivity. }
  subst w0.
  apply bind_Ok in H. destruct H as (u1 & w1 & H1 & H).
  apply keeps_remove_terminal_lines in H1. destruct H1 as (Hv1 & _ & Hc1).
  apply bind_Ok in H. destruct H as (u2 & w2 & H2 & H).
  apply keeps_emit in H2. destruct H2 as (Hv2 & _ & Hc2).
  apply bind_Ok in H. destruct H as (u3 & w3 & H3 & H).
  destruct u3. apply set_terminal_mode_Ok in H3.
  unfold bind at 1 in H. unfold get_term in H.
  assert (Hv3 : tl_vterm (w_term w3) = tl_vterm (w_term w2)) by (rewrite H3; reflexivity).
  assert (Hm3 : tl_terminal_mode (w_term w3) = false) by (rewrite H3; reflexivity).
  assert (Hc3 : tl_channel_closed (w_term w3) = tl_channel_closed (w_term w2))
    by (rewrite H3; reflexivity).
  apply bind_Ok in H. destruct H as (u4 & w4 & H4 & H).
  assert (K5 : engine_kept w4 w').
  { revert H. apply keeps_bind; [apply keeps_get|]. intros w5. apply keeps_emit. }
  destruct K5 as (Hv5 & Hm5 & Hc5).
  destruct (tl_channel_closed (w_term w3)) eqn:Hclosed.
  - destruct u4. apply cleanup_vterm_Ok in H4. destruct H4 as (Hv4 & Hm4 & Hc4).
    rewrite Hm5, Hc5, Hm4, Hc4, Hclosed.
    split; [reflexivity|]. split; [congruence|]. split.
    + intros _. left. congruence.
    + intros _. apply Hv5. exact Hv4.
  - ok_inv H4. rewrite Hm5, Hc5, Hm3, Hclosed.
    split; [reflexivity|]. split; [congruence|]. split.
    + intros Hn. right. apply Hv1, Hv2. rewrite <- Hv3. apply Hv5, Hn.
    + intros Hn. apply Hv5. rewrite Hv3. apply Hv2, Hv1, Hn.
Qed.

Lemma close_terminal_Ok (w w' : world) :
  close_terminal w = Ok (tt, w') ->
  tl_channel_closed (w_term w') = true
  /\ (tl_terminal_mode (w_term w) = false ->
      tl_vterm (w_term w') = None /\ tl_terminal_mode (w_term w') = false)
  /\ (tl_terminal_mode (w_term w) = true ->
      tl_vterm (w_term w') = tl_vterm (w_term w) /\ tl_terminal_mode (w_term w') = true).
Proof.
  intros H. unfold close_terminal in H.
  unfold bind at 1 in H. unfold get_term in H.
  unfold bind at 1 in H. unfold put_term in H.
  apply bind_Ok in H. destruct H as (u & w1 & H1 & H).
  unfold emit in H. ok_inv H. cbn [w_term with_events].
  destruct (tl_terminal_mode (w_term w)) eqn:Hmode; cbn [negb] in H1.
  - ok_inv H1.
    cbn [w_term with_term close_channel tl_vterm tl_terminal_mode tl_channel_closed].
    rewrite Hmode. split; [reflexivity|]. split; [discriminate|].
    intros _. split; reflexivity.
  - destruct u. apply cleanup_vterm_Ok in H1. destruct H1 as (Hv1 & Hm1 & Hc1).
    cbn [w_term with_term close_channel tl_channel_closed] in Hc1.
    split; [exact Hc1|]. split; [|discriminate]. intros _. split; assumption.
Qed.

(** What [term_channel_closed] does after its loop only calls out. *)
Lemma after_close_only_calls :
  only_calls redraw_statuslines -> (forall c, only_calls (ins_char_typebuf c)) ->
  only_calls
    (redraw_statuslines ;;; ins_char_typebuf (Special K_IGNORE) ;;;
     (w0 <- get ;;
      match b_term w0 (w_curbuf w0) with
      | Some term => emit maketitle ;;; update_cursor (tl_cursor_visible term)
      | None => ret tt
      end)).
Proof.
  intros Hredraw Hins.
  apply only_calls_bind; [exact Hredraw|]. intros _.
  apply only_calls_bind; [apply Hins|]. intros _.
  intros w0. unfold bind at 1. unfold get.
  destruct (b_term w0 (w_curbuf w0)); [|apply only_calls_ret].
  apply only_calls_bind; [apply only_calls_emit|]. intros _.
  apply only_calls_update_cursor.
Qed.

Lemma term_channel_closed_Ok (same_job : bool) (w w' : world) :
  only_calls redraw_statuslines -> (forall c, only_calls (ins_char_typebuf c)) ->
  term_channel_closed same_job w = Ok (tt, w') ->
  (same_job = false -> w' = w)
  /\ (same_job = true ->
      tl_channel_closed (w_term w') = true
      /\ (tl_terminal_mode (w_term w) = false ->
          tl_vterm (w_term w') = None /\ tl_terminal_mode (w_term w') = false)
      /\ (tl_terminal_mode (w_term w) = true ->
          tl_vterm (w_term w') = tl_vterm (w_term w)
          /\ tl_terminal_mode (w_term w') = true)).
Proof.
  intros Hredraw Hins H. unfold term_channel_closed in H.
  apply bind_Ok in H. destruct H as (did_one & w1 & H1 & H).
  destruct same_job.
  - apply bind_Ok in H1. destruct H1 as (u & w0 & Hclose & Hret).
    ok_inv Hret. destruct u.
    destruct (after_close_only_calls Hredraw Hins w1) as (u & w2 & Hrun & F).
    rewrite Hrun in H. ok_inv H.
    apply frame_fields in F. destruct F as (Ht & _).
    split; [discriminate|]. intros _. rewrite Ht.
    apply close_terminal_Ok. exact Hclose.
  - ok_inv H1. ok_inv H. split; [reflexivity|discriminate].
Qed.

Lemma deliver_keeps (ev : session_event) (w_valid w_valid' : nat -> Z) (w w' : world) :
  only_calls cursor_off ->
  match ev with
  | EnterTerminalMode | LeaveTerminalMode | ChannelClosed _ => False
  | _ => True
  end ->
  deliver ev w_valid w = Ok (w_valid', w') -> engine_kept w w'.
Proof.
  intros Hoff Hev H. destruct ev; try contradiction; cbn [deliver] in H;
    apply bind_Ok in H; destruct H as (a & w1 & H1 & H); ok_inv H.
  - eapply keeps_engine_of_quiet; [apply quiet_write_to_term|exact H1].
  - eapply keeps_engine_of_quiet; [apply quiet_handle_damage|exact H1].
  - eapply keeps_engine_of_quiet; [apply quiet_handle_moverect|exact H1].
  - eapply keeps_engine_of_quiet; [apply quiet_handle_movecursor, Hoff|exact H1].
  - eapply keeps_engine_of_quiet; [apply quiet_handle_settermprop, Hoff|exact H1].
  - eapply keeps_handle_pushline, H1.
  - eapply keeps_engine_of_quiet; [apply quiet_send_keys_to_term|exact H1].
  - eapply keeps_term_change_in_curbuf, H1.
  - eapply keeps_engine_of_quiet; [apply quiet_term_get_status_text|exact H1].
Qed.

(** What one event does to the engine, the mode and the channel. *)
Lemma deliver_finished_ok (ev : session_event) (w_valid w_valid' : nat -> Z)
    (w w' : world) :
  only_calls cursor_off -> only_calls redraw_statuslines ->
  (forall c, only_calls (ins_char_typebuf c)) ->
  deliver ev w_valid w = Ok (w_valid', w') ->
  (finished_ok (w_term w) -> finished_ok (w_term w'))
  /\ (tl_vterm (w_term w) = None -> tl_vterm (w_term w') = None)
  /\ (tl_channel_closed (w_term w) = true -> tl_channel_closed (w_term w') = true).
Proof.
  intros Hoff Hredraw Hins H.
  assert (Hkept : engine_kept w w' ->
            (finished_ok (w_term w) -> finished_ok (w_term w'))
            /\ (tl_vterm (w_term w) = None -> tl_vterm (w_term w') = None)
            /\ (tl_channel_closed (w_term w) = true ->
                tl_channel_closed (w_term w') = true)).
  { intros K. split; [apply finished_ok_kept, K|].
    destruct K as (A & _ & C). split; [apply A|]. rewrite C. auto. }
  destruct ev; try (apply Hkept; eapply deliver_keeps; eauto; exact I).
  - (* entering Terminal-Normal mode *)
    cbn [deliver] in H. apply bind_Ok in H. destruct H as ([] & w1 & H1 & H). ok_inv H.
    apply term_enter_terminal_mode_Ok in H1. destruct H1 as (Hlive & Hlive' & Hm & Hc).
    split; [intros _ Hn; contradiction|].
    split; [intros Hn; contradiction|rewrite Hc; auto].
  - (* leaving it *)
    cbn [deliver] in H. apply bind_Ok in H. destruct H as ([] & w1 & H1 & H). ok_inv H.
    apply term_leave_terminal_mode_Ok in H1. destruct H1 as (Hm & Hc & Hfreed & Hstays).
    split; [|split; [exact Hstays|rewrite Hc; auto]].
    intros Hfin Hn. split; [exact Hm|]. rewrite Hc.
    destruct (Hfreed Hn) as [Hclosed|Hnone]; [exact Hclosed|apply Hfin, Hnone].
  - (* the channel has closed *)
    cbn [deliver] in H. apply bind_Ok in H. destruct H as ([] & w1 & H1 & H). ok_inv H.
    apply term_channel_closed_Ok in H1; [|exact Hredraw|exact Hins].
    destruct H1 as (Hother & Hsame).
    destruct same_job.
    + destruct (Hsame eq_refl) as (Hc & Hjob & Hfrozen).
      destruct (tl_terminal_mode (w_term w)) eqn:Hmode.
      * destruct (Hfrozen eq_refl) as (Hv & Hm).
        split; [|split; [rewrite Hv; auto|auto]].
        intros Hfin Hn. rewrite Hv in Hn. destruct (Hfin Hn) as [Hm0 _].
        rewrite Hmode in Hm0. discriminate Hm0.
      * destruct (Hjob eq_refl) as (Hv & Hm).
        split; [|split; auto]. intros _ _. split; assumption.
    + rewrite (Hother eq_refl). auto.
Qed.

(** X3.  Whatever happens to a session (job output, the callbacks of
    the engine, keys, changes of mode, a change of the buffer, the status
    text, the closing of a channel) and whatever the allocations give:
    when the events have been handled, a terminal without engine is not
    in Terminal-Normal mode and its channel has closed, provided that
    held before; a terminal whose engine was freed has none afterwards,
    and a channel that was closed stays closed.  [cursor_off],
    [redraw_statuslines] and [ins_char_typebuf] act on the screen only. *)
Theorem engine_freed_only_when_closed (evs : list session_event)
    (Hoff : only_calls cursor_off)
    (Hredraw : only_calls redraw_statuslines)
    (Hins : forall c, only_calls (ins_char_typebuf c)) :
  forall (w_valid w_valid' : nat -> Z) (w w' : world),
    deliver_all evs w_valid w = Ok (w_valid', w') ->
    (finished_ok (w_term w) -> finished_ok (w_term w'))
    /\ (tl_vterm (w_term w) = None -> tl_vterm (w_term w') = None)
    /\ (tl_channel_closed (w_term w) = true -> tl_channel_closed (w_term w') = true).
Proof.
  induction evs as [|ev rest IH]; intros w_valid w_valid' w w' H; cbn [deliver_all] in H.
  - ok_inv H. auto.
  - apply bind_Ok in H. destruct H as (v1 & w1 & H1 & H).
    destruct (deliver_finished_ok ev w_valid v1 w w1 Hoff Hredraw Hins H1) as (A1 & B1 & C1).
    destruct (IH v1 w_valid' w1 w' H) as (A2 & B2 & C2).
    split; [|split]; auto.
Qed.

(** ** The end of the job, run *)




(** ** Which buffer is shown how *)


(** X7.  [term_change_in_curbuf], called before the current buffer is
    changed, always returns and leaves the text of the buffer alone.  On
    a finished terminal it frees the scrollback, so that from then on
    [term_get_attr] gives 0, no highlighting, for every position, while
    the count of scrolled lines stays; a terminal that is not finished,
    and any other buffer, are left entirely as they were.  Calling it
    again changes nothing. *)
Theorem term_change_in_curbuf_drops_attributes (w : world) :
  exists w',
    term_change_in_curbuf w = Ok (tt, w')
    /\ w_lines w' = w_lines w
    /\ (term_is_finished w (w_curbuf w) = true ->
        tl_scrollback (w_term w') = []
        /\ (forall lnum col, 1 <= lnum -> term_get_attr (w_term w') lnum col = Ok 0)
        /\ tl_scrollback_scrolled (w_term w') = tl_scrollback_scrolled (w_term w)
        /\ tl_vterm (w_term w') = None)
    /\ (term_is_finished w (w_curbuf w) = false -> w' = w)
    /\ term_change_in_curbuf w' = Ok (tt, w').
Proof.
  assert (Hattr : forall t, tl_scrollback t = [] ->
            forall lnum col, 1 <= lnum -> term_get_attr t lnum col = Ok 0).
  { intros t Hsb lnum col Hl. unfold term_get_attr. rewrite Hsb. simpl.
    destruct (Z.gtb_spec lnum 0); [reflexivity|lia]. }
  unfold term_change_in_curbuf at 1. unfold bind at 1. unfold get.
  destruct (term_is_finished w (w_curbuf w)) eqn:Hfin.
  - assert (Hnull : tl_buffer (w_term w) = w_curbuf w /\ tl_vterm (w_term w) = None).
    { unfold term_is_finished, b_term in Hfin.
      destruct (Z.eqb_spec (tl_buffer (w_term w)) (w_curbuf w)); [|discriminate Hfin].
      destruct (tl_vterm (w_term w)); [discriminate Hfin|]. split; [assumption|reflexivity]. }
    destruct Hnull as [Hbuf Hnull].
    destruct (Z.gtb_spec (Z.of_nat (length (tl_scrollback (w_term w)))) 0) as [Hlen|Hlen];
      cbn [andb].
    + eexists. split; [reflexivity|]. cbn [w_lines w_term with_events with_term].
      split; [reflexivity|]. split.
      * intros _. cbn [set_scrollback tl_scrollback tl_scrollback_scrolled tl_vterm].
        split; [reflexivity|]. split; [|split; [reflexivity|exact Hnull]].
        apply Hattr. reflexivity.
      * split; [discriminate|].
        unfold term_change_in_curbuf, bind, get.
        cbn [w_term with_events with_term set_scrollback tl_scrollback length].
        rewrite andb_false_r. reflexivity.
    + exists w. split; [reflexivity|]. split; [reflexivity|].
      assert (Hsb : tl_scrollback (w_term w) = []).
      { destruct (tl_scrollback (w_term w)); [reflexivity|simpl in Hlen; lia]. }
      split.
      * intros _. split; [exact Hsb|]. split; [apply Hattr, Hsb|].
        split; [reflexivity|exact Hnull].
      * split; [discriminate|].
        unfold term_change_in_curbuf, bind, get. rewrite Hsb. cbn [length].
        rewrite andb_false_r. reflexivity.
  - cbn [andb]. exists w. split; [reflexivity|]. split; [reflexivity|].
    split; [discriminate|]. split; [reflexivity|].
    unfold term_change_in_curbuf, bind, get. rewrite Hfin. reflexivity.
Qed.

(** ** Title and status *)

Lemma status_format_fits (fname txt : list byte) :
  STRLEN (status_format fname txt) < 9 + STRLEN fname + STRLEN txt.
Proof.
  unfold STRLEN, status_format. rewrite !length_app. cbn [length]. lia.
Qed.

Lemma term_get_status_text_run (b_fname : list byte) (w : world) :
  (forall str_m text, STRLEN text < str_m -> vim_snprintf str_m text = text) ->
  tl_status_text (w_term w) = None -> hd true (w_alloc w) = true ->
  exists w',
    term_get_status_text b_fname w
    = Ok (Some (status_format b_fname (status_txt (w_term w))), w')
    /\ w_term w' = set_status_text (w_term w)
                     (Some (status_format b_fname (status_txt (w_term w))))
    /\ w_alloc w' = tl (w_alloc w).
Proof.
  intros Hfmt Hnone Hhd.
  unfold term_get_status_text at 1. unfold bind at 1. unfold get_term at 1.
  rewrite Hnone. unfold bind at 1. rewrite alloc_request_run, Hhd.
  rewrite Hfmt by apply status_format_fits.
  unfold bind, put_term, ret. eexists. split; [reflexivity|].
  cbn [w_term with_term w_alloc].
  split; [reflexivity|]. unfold after_alloc.
  destruct (w_alloc w) eqn:E; [rewrite E|]; reflexivity.
Qed.

(** X8.  The status text of a terminal, with a [vim_snprintf] that
    stores a text shorter than the size given whole.  When no text is
    cached and the allocation succeeds, the text is the name of the
    buffer, a space and in brackets: "Terminal" or "Terminal-finished"
    in Terminal-Normal mode, else the title when there is one, else
    "running" or "finished"; the buffer of 9 bytes more than name and
    text is large enough, nothing is cut off.  The text is cached: asking
    again gives the same text, allocates nothing and changes nothing.
    When the allocation fails, there is no text and nothing is cached. *)
Theorem term_get_status_text_cached (b_fname : list byte) (w : world)
    (Hfmt : forall str_m text, STRLEN text < str_m -> vim_snprintf str_m text = text)
    (Hnone : tl_status_text (w_term w) = None) :
  (hd true (w_alloc w) = true ->
   exists w',
     term_get_status_text b_fname w
     = Ok (Some (status_format b_fname (status_txt (w_term w))), w')
     /\ w_term w' = set_status_text (w_term w)
                      (Some (status_format b_fname (status_txt (w_term w))))
     /\ w_alloc w' = tl (w_alloc w)
     /\ term_get_status_text b_fname w'
        = Ok (Some (status_format b_fname (status_txt (w_term w))), w'))
  /\ (hd true (w_alloc w) = false ->
      term_get_status_text b_fname w = Ok (None, after_alloc w)
      /\ w_term (after_alloc w) = w_term w).
Proof.
  split; intros Hhd.
  - destruct (term_get_status_text_run b_fname w Hfmt Hnone Hhd) as (w' & Hrun & Ht & Ha).
    exists w'. split; [exact Hrun|]. split; [exact Ht|]. split; [exact Ha|].
    unfold term_get_status_text, bind, get_term. rewrite Ht.
    cbn [set_status_text tl_status_text]. reflexivity.
  - unfold term_get_status_text. unfold bind at 1. unfold get_term at 1.
    rewrite Hnone. unfold bind at 1. rewrite alloc_request_run, Hhd.
    split; [reflexivity|]. unfold after_alloc. destruct (w_alloc w); reflexivity.
Qed.

Lemma alloc_ok_hd (w : world) : alloc_ok w -> hd true (w_alloc w) = true.
Proof.
  unfold alloc_ok. intros H. destruct (w_alloc w) as [|b rest]; [reflexivity|].
  inversion H; subst. reflexivity.
Qed.

Lemma alloc_ok_after (w : world) : alloc_ok w -> alloc_ok (after_alloc w).
Proof.
  unfold alloc_ok, after_alloc. intros H. destruct (w_alloc w) as [|b rest] eqn:E.
  - rewrite E. constructor.
  - inversion H; subst. assumption.
Qed.

(** X9.  A title that the job sets is what the user sees.  When no
    allocation fails, the callback for the title stores the title and
    drops the cached status text; outside of Terminal-Normal mode the
    status text is then the name of the buffer with the new title in
    brackets, and "term_gettitle()" gives the title.  When the
    allocation of the copy fails the terminal has no title. *)
Theorem title_change_shows_in_status (s b_fname : list byte) (w : world)
    (Hfmt : forall str_m text, STRLEN text < str_m -> vim_snprintf str_m text = text) :
  (alloc_ok w -> tl_terminal_mode (w_term w) = false ->
   exists w1 w2 w3,
     handle_settermprop VTERM_PROP_TITLE (string s) w = Ok (1, w1)
     /\ w_term w1 = set_title (w_term w) (Some s)
     /\ term_get_status_text b_fname w1 = Ok (Some (status_format b_fname s), w2)
     /\ f_term_gettitle true w2 = Ok (Some s, w3))
  /\ (hd true (w_alloc w) = false ->
      exists w1,
        handle_settermprop VTERM_PROP_TITLE (string s) w = Ok (1, w1)
        /\ w_term w1 = set_title (w_term w) None
        /\ f_term_gettitle true w1 = Ok (None, w1)).
Proof.
  assert (Hset :
            exists w1,
              (handle_settermprop VTERM_PROP_TITLE (string s) w
               = Ok (1, w1))
              /\ w_term w1 = set_title (w_term w)
                               (if hd true (w_alloc w) then Some s else None)
              /\ w_alloc w1 = w_alloc (after_alloc w)).
  { unfold handle_settermprop, vim_strsave.
    unfold bind at 1. unfold bind at 1. unfold bind at 1.
    rewrite alloc_request_run. unfold ret at 1.
    unfold bind at 1. unfold get_term at 1.
    unfold bind at 1. unfold put_term at 1.
    unfold bind at 1. unfold get at 1.
    assert (Ht : w_term (after_alloc w) = w_term w).
    { unfold after_alloc. destruct (w_alloc w); reflexivity. }
    destruct (b_term _ _); unfold emit, ret; eexists; (split; [reflexivity|]);
      cbn [w_term w_alloc with_events with_term]; rewrite Ht; split; reflexivity. }
  destruct Hset as (w1 & Hrun1 & Ht1 & Ha1).
  split.
  - intros Halloc Hmode.
    rewrite (alloc_ok_hd w Halloc) in Ht1.
    assert (Halloc1 : alloc_ok w1).
    { unfold alloc_ok. rewrite Ha1. apply alloc_ok_after, Halloc. }
    assert (Hnone1 : tl_status_text (w_term w1) = None) by (rewrite Ht1; reflexivity).
    destruct (term_get_status_text_run b_fname w1 Hfmt Hnone1 (alloc_ok_hd w1 Halloc1))
      as (w2 & Hrun2 & Ht2 & Ha2).
    assert (Htxt : status_txt (w_term w1) = s).
    { unfold status_txt. rewrite Ht1. cbn [set_title tl_terminal_mode tl_title].
      rewrite Hmode. reflexivity. }
    rewrite Htxt in Hrun2.
    exists w1, w2. eexists. split; [exact Hrun1|]. split; [exact Ht1|].
    split; [exact Hrun2|].
    unfold f_term_gettitle. cbn [negb]. unfold bind at 1. unfold get_term at 1.
    rewrite Ht2, Ht1. cbn [set_status_text set_title tl_title].
    unfold vim_strsave, bind. rewrite alloc_request_run.
    assert (Halloc2 : alloc_ok w2).
    { unfold alloc_ok. rewrite Ha2. unfold alloc_ok in Halloc1.
      destruct (w_alloc w1); [constructor|]. inversion Halloc1; subst. assumption. }
    rewrite (alloc_ok_hd w2 Halloc2). reflexivity.
  - intros Hhd. rewrite Hhd in Ht1. exists w1.
    split; [exact Hrun1|]. split; [exact Ht1|].
    unfold f_term_gettitle. cbn [negb]. unfold bind, get_term. rewrite Ht1.
    reflexivity.
Qed.

(** ** The mouse outside of the window *)

(** X10.  A click, a release or a drag with the mouse outside of the
    current window is not for the job: [send_keys_to_term] returns FAIL,
    sends nothing to the channel and leaves the engine alone; a typed
    event is put back for Normal mode and noted, and a drag that follows
    a noted click outside is treated the same wherever the mouse is. *)
Theorem click_outside_window_not_sent (k : special_key) (typed : bool) (w : world)
    (Hk : is_drag k || is_click_or_release k = true)
    (Hout : mouse_outside w (is_drag k && mouse_was_outside w) = true) :
  send_keys_to_term (Special k) typed w
  = Ok (false,
        if typed
        then with_mouse_was_outside
               (with_events w (w_events w ++ [stuffcharReadbuff (Special k)])) true
        else w).
Proof.
  unfold send_keys_to_term, catch_normal_mode_keys.
  destruct k; try discriminate Hk;
    cbn [is_drag is_click_or_release orb andb] in *;
    unfold bind at 1; unfold bind at 1; unfold get at 1; rewrite Hout;
    destruct typed; reflexivity.
Qed.

(** ** The colour cube *)

Lemma quot51_range (x : Z) : 0 <= x <= 255 -> 0 <= round_div x 51 <= 5.
Proof.
  intros Hx. unfold round_div. split.
  - apply Z.div_pos; lia.
  - apply Z.lt_succ_r. apply Z.div_lt_upper_bound; lia.
Qed.

Lemma color2index_cube (color : VTermColor) (foreground : bool) :
  valid_color color ->
  standard_color (red color) (green color) (blue color) = None ->
  256 <= t_colors ->
  ~ (red color = blue color /\ red color = green color) ->
  color2index color foreground
  = 17 + 36 * round_div (red color) 51 + 6 * round_div (green color) 51
       + round_div (blue color) 51.
Proof.
  intros (Hr & Hg & Hb) Hnone Ht Hne. unfold color2index. rewrite Hnone.
  destruct (Z.geb_spec t_colors 256) as [_|]; [|lia].
  assert (E : (red color =? blue color) && (red color =? green color) = false).
  { destruct (Z.eqb_spec (red color) (blue color));
      destruct (Z.eqb_spec (red color) (green color)); simpl; auto.
    exfalso; apply Hne; auto. }
  rewrite E. rewrite !quot51_round by lia. lia.
Qed.

(** X11.  On a host with at least 256 colours, the colours that are
    neither standard nor grey get the numbers 17..232: none of them is
    taken for one of the 16 standard colours or for a grey (233..256),
    and two of them get the same number exactly when their components
    round to the same place in the 6x6x6 cube. *)
Theorem color2index_cube_faithful (c1 c2 : VTermColor) (foreground : bool)
    (Hcolors : 256 <= t_colors)
    (Hvalid1 : valid_color c1) (Hvalid2 : valid_color c2)
    (Hnone1 : standard_color (red c1) (green c1) (blue c1) = None)
    (Hnone2 : standard_color (red c2) (green c2) (blue c2) = None)
    (Hgrey1 : ~ (red c1 = blue c1 /\ red c1 = green c1))
    (Hgrey2 : ~ (red c2 = blue c2 /\ red c2 = green c2)) :
  17 <= color2index c1 foreground <= 232
  /\ (color2index c1 foreground = color2index c2 foreground
      <-> round_div (red c1) 51 = round_div (red c2) 51
          /\ round_div (green c1) 51 = round_div (green c2) 51
          /\ round_div (blue c1) 51 = round_div (blue c2) 51).
Proof.
  rewrite (color2index_cube c1 foreground Hvalid1 Hnone1 Hcolors Hgrey1).
  rewrite (color2index_cube c2 foreground Hvalid2 Hnone2 Hcolors Hgrey2).
  destruct Hvalid1 as (Hr1 & Hg1 & Hb1). destruct Hvalid2 as (Hr2 & Hg2 & Hb2).
  pose proof (quot51_range _ Hr1). pose proof (quot51_range _ Hg1).
  pose proof (quot51_range _ Hb1). pose proof (quot51_range _ Hr2).
  pose proof (quot51_range _ Hg2). pose proof (quot51_range _ Hb2).
  split; [lia|]. split; [intros E; lia|intros (E1 & E2 & E3); lia].
Qed.

(** ** The attributes of a line that scrolled off *)

Lemma trimmed_len_spec (cols : Z) (cells : list VTermScreenCell) :
  0 <= trimmed_len cols cells <= Z.max 0 cols
  /\ (forall i, trimmed_len cols cells <= i < cols ->
        chars0 (nth (Z.to_nat i) cells zero_cell) = 0)
  /\ (0 < trimmed_len cols cells ->
      chars0 (nth (Z.to_nat (trimmed_len cols cells - 1)) cells zero_cell) <> 0).
Proof.
  set (f := fun len i =>
              if negb (chars0 (nth (Z.to_nat i) cells zero_cell) =? 0)
              then i + 1 else len).
  assert (H : forall n a init,
             0 <= init <= Z.of_nat a ->
             (forall i, init <= i < Z.of_nat a ->
                chars0 (nth (Z.to_nat i) cells zero_cell) = 0) ->
             (0 < init -> chars0 (nth (Z.to_nat (init - 1)) cells zero_cell) <> 0) ->
             let len := fold_left f (map Z.of_nat (seq a n)) init in
             0 <= len <= Z.of_nat (a + n)
             /\ (forall i, len <= i < Z.of_nat (a + n) ->
                   chars0 (nth (Z.to_nat i) cells zero_cell) = 0)
             /\ (0 < len -> chars0 (nth (Z.to_nat (len - 1)) cells zero_cell) <> 0)).
  { induction n as [|n IH]; intros a init Hinit Hempty Hlast; cbn [seq map fold_left].
    - rewrite Nat.add_0_r. auto.
    - replace (a + S n)%nat with (S a + n)%nat by lia.
      apply IH; unfold f;
        destruct (Z.eqb_spec (chars0 (nth (Z.to_nat (Z.of_nat a)) cells zero_cell)) 0)
          as [E|E]; cbn [negb].
      + lia.
      + lia.
      + intros i Hi. destruct (Z.eq_dec i (Z.of_nat a)) as [->|Hne]; [exact E|].
        apply Hempty. lia.
      + intros i Hi. lia.
      + exact Hlast.
      + intros _. replace (Z.of_nat a + 1 - 1) with (Z.of_nat a) by lia. exact E. }
  unfold trimmed_len, upto. fold f.
  specialize (H (Z.to_nat cols) O 0 ltac:(simpl; lia)
                ltac:(intros i Hi; simpl in Hi; lia) ltac:(lia)).
  cbn zeta in H. cbn [Nat.add] in H.
  destruct H as (Hb & Hempty & Hlast).
  split; [lia|]. split; [|exact Hlast].
  intros i Hi. apply Hempty. lia.
Qed.

Lemma handle_pushline_exact (cols : Z) (cells : list VTermScreenCell) (w : world) :
  pushline_ok (cols, cells) -> alloc_ok w ->
  exists w',
    handle_pushline cols cells w = Ok (0, w')
    /\ w_term w' = grow_sb (w_term w)
                     [mkLine (trimmed_len cols cells)
                        (if trimmed_len cols cells >? 0
                         then Some (firstn (Z.to_nat (trimmed_len cols cells)) cells)
                         else None)] 1
    /\ alloc_ok w'.
Proof.
  intros [Hcols Hcells] Hok. simpl in Hcols, Hcells.
  pose proof (trimmed_len_spec cols cells) as (Hlen & _ & _).
  unfold handle_pushline.
  destruct (alloc_request_ok w Hok) as (w1 & Hreq & Hs1 & Hok1).
  unfold bind at 1. unfold bind at 1. rewrite Hreq.
  assert (Hline : exists w2,
            pushed_line cols cells w1
            = Ok (mkLine (trimmed_len cols cells)
                    (if trimmed_len cols cells >? 0
                     then Some (firstn (Z.to_nat (trimmed_len cols cells)) cells)
                     else None), w2)
            /\ same_but_alloc w1 w2 /\ alloc_ok w2).
  { unfold pushed_line.
    destruct (Z.gtb_spec cols (Z.of_nat (length cells))); [lia|].
    change (fold_left _ (upto cols) 0) with (trimmed_len cols cells).
    destruct (Z.gtb_spec (trimmed_len cols cells) 0) as [Hpos|Hzero].
    - destruct (alloc_request_ok w1 Hok1) as (w2 & Hreq2 & Hs2 & Hok2).
      unfold bind at 1. unfold bind at 1. rewrite Hreq2. unfold ret.
      exists w2. auto.
    - unfold bind, ret. exists w1. split; [reflexivity|].
      split; [apply same_but_alloc_refl|exact Hok1]. }
  destruct Hline as (w2 & Hline & Hs2 & Hok2).
  unfold bind at 1. rewrite Hline.
  set (line := mkLine (trimmed_len cols cells)
                 (if trimmed_len cols cells >? 0
                  then Some (firstn (Z.to_nat (trimmed_len cols cells)) cells)
                  else None)) in *.
  assert (Hlok : line_ok line).
  { unfold line_ok, line. cbn [sb_cells sb_cols].
    destruct (Z.gtb_spec (trimmed_len cols cells) 0); [|lia].
    split; [rewrite length_firstn; lia|apply Forall_firstn; exact Hcells]. }
  destruct (store_line_run line 1 w2 Hlok Hok2)
    as (w3 & Hrun & Ht3 & Hb3 & Hok3 & _ & _ & _).
  rewrite Hrun. unfold ret.
  exists w3. split; [reflexivity|].
  pose proof (same_but_alloc_trans _ _ _ Hs1 Hs2) as Hs.
  apply same_but_alloc_fields in Hs. destruct Hs as (Ht2 & _).
  split; [rewrite Ht3, Ht2; reflexivity|exact Hok3].
Qed.

(** X12.  The attributes of a row that scrolled off are those of its
    cells.  When no allocation fails, the push-line callback adds one
    line to the scrollback; for the buffer line of that row,
    [term_get_attr] gives at every column up to the last cell that is
    not empty the attribute of the cell that was pushed, and 0, no
    attribute, at the columns after it. *)
Theorem pushed_line_attributes (cols : Z) (cells : list VTermScreenCell) (w : world)
    (Hev : pushline_ok (cols, cells)) (Halloc : alloc_ok w) :
  exists w',
    handle_pushline cols cells w = Ok (0, w')
    /\ length (tl_scrollback (w_term w')) = S (length (tl_scrollback (w_term w)))
    /\ forall c cell,
         0 <= c < cols -> nth_error cells (Z.to_nat c) = Some cell ->
         ((exists c', c <= c' < cols
                      /\ chars0 (nth (Z.to_nat c') cells zero_cell) <> 0) ->
          term_get_attr (w_term w') (Z.of_nat (length (tl_scrollback (w_term w')))) c
          = Ok (cell2attr cell))
         /\ ((forall c', c <= c' < cols ->
                         chars0 (nth (Z.to_nat c') cells zero_cell) = 0) ->
             term_get_attr (w_term w') (Z.of_nat (length (tl_scrollback (w_term w')))) c
             = Ok 0).
Proof.
  destruct (handle_pushline_exact cols cells w Hev Halloc) as (w' & Hrun & Ht & _).
  pose proof (trimmed_len_spec cols cells) as (Hlen & Hempty & Hlast).
  exists w'. split; [exact Hrun|].
  assert (Hsb : tl_scrollback (w_term w')
                = tl_scrollback (w_term w)
                  ++ [mkLine (trimmed_len cols cells)
                        (if trimmed_len cols cells >? 0
                         then Some (firstn (Z.to_nat (trimmed_len cols cells)) cells)
                         else None)]).
  { rewrite Ht. reflexivity. }
  assert (Hcount : length (tl_scrollback (w_term w'))
                   = S (length (tl_scrollback (w_term w)))).
  { rewrite Hsb, length_app. simpl. lia. }
  split; [exact Hcount|].
  intros c cell Hc Hcell.
  assert (Hget : forall t, tl_scrollback t = tl_scrollback (w_term w') ->
            term_get_attr t (Z.of_nat (length (tl_scrollback (w_term w')))) c
            = if c >=? trimmed_len cols cells then Ok 0 else Ok (cell2attr cell)).
  { intros t Et. unfold term_get_attr. rewrite Et.
    destruct (Z.gtb_spec (Z.of_nat (length (tl_scrollback (w_term w'))))
                (Z.of_nat (length (tl_scrollback (w_term w'))))); [lia|].
    destruct (Z.ltb_spec (Z.of_nat (length (tl_scrollback (w_term w'))) - 1) 0); [lia|].
    replace (Z.to_nat (Z.of_nat (length (tl_scrollback (w_term w'))) - 1))
      with (length (tl_scrollback (w_term w))) by lia.
    rewrite Hsb, nth_error_app2 by lia. rewrite Nat.sub_diag. cbn [nth_error sb_cols].
    destruct (Z.geb_spec c (trimmed_len cols cells)) as [Hge|Hlt]; [reflexivity|].
    destruct (Z.ltb_spec c 0); [lia|]. cbn [sb_cells].
    destruct (Z.gtb_spec (trimmed_len cols cells) 0); [|lia].
    rewrite nth_error_firstn.
    destruct (Nat.ltb_spec (Z.to_nat c) (Z.to_nat (trimmed_len cols cells))); [|lia].
    rewrite Hcell. reflexivity. }
  rewrite (Hget (w_term w') eq_refl).
  split.
  - intros (c' & Hc' & Hfull).
    destruct (Z.geb_spec c (trimmed_len cols cells)) as [Hge|Hlt]; [|reflexivity].
    exfalso. apply Hfull, Hempty. lia.
  - intros Hblank.
    destruct (Z.geb_spec c (trimmed_len cols cells)) as [Hge|Hlt]; [reflexivity|].
    exfalso. apply Hlast; [lia|]. apply Hblank. lia.
Qed.

(** ** The buffer holds the text of the scrollback *)

Lemma line_text_exact (line : sb_line_T) : forall fuel col ga w a w',
  alloc_ok w -> line_text fuel line col ga w = Ok (a, w') ->
  a = Some (ga ++ cells_text fuel line col) /\ same_but_alloc w w' /\ alloc_ok w'.
Proof.
  induction fuel as [|fuel IH]; intros col ga w a w' Hok H;
    cbn [line_text cells_text] in *.
  - destruct (col <? sb_cols line); [discriminate H|]. ok_inv H.
    rewrite app_nil_r. split; [reflexivity|]. split; [apply same_but_alloc_refl|exact Hok].
  - destruct (col <? sb_cols line).
    + destruct (alloc_request_ok w Hok) as (w1 & Hreq & Hs1 & Hok1).
      unfold bind at 1 in H. rewrite Hreq in H. cbn [negb] in H.
      destruct (sb_cells line) as [cells|]; [|discriminate H].
      destruct (col <? 0); [discriminate H|].
      destruct (nth_error cells (Z.to_nat col)) as [cell|]; [|discriminate H].
      destruct (IH _ _ _ _ _ Hok1 H) as (Ea & Hs & Hok').
      split; [rewrite Ea, <- app_assoc; reflexivity|].
      split; [eapply same_but_alloc_trans; eauto|exact Hok'].
    + ok_inv H. rewrite app_nil_r.
      split; [reflexivity|]. split; [apply same_but_alloc_refl|exact Hok].
Qed.

Lemma scrollback_text_length (sb : list sb_line_T) :
  Z.of_nat (length (scrollback_text sb)) = Z.max 1 (Z.of_nat (length sb)).
Proof.
  destruct sb as [|l sb]; [reflexivity|].
  unfold scrollback_text. rewrite length_map. cbn [length]. lia.
Qed.

Lemma scrollback_text_snoc (sb0 : list sb_line_T) (line : sb_line_T) :
  scrollback_text (sb0 ++ [line])
  = match sb0 with
    | [] => [line_bytes line]
    | _ :: _ => scrollback_text sb0 ++ [line_bytes line]
    end.
Proof.
  destruct sb0 as [|l sb0]; [reflexivity|].
  unfold scrollback_text. cbn [app]. rewrite !map_cons, map_app. reflexivity.
Qed.

Lemma add_scrollback_line_mirrors (w w' : world) (sb0 : list sb_line_T)
    (line : sb_line_T) :
  tl_scrollback (w_term w) = sb0 ++ [line] -> alloc_ok w ->
  w_lines w = scrollback_text sb0 ->
  add_scrollback_line_to_buffer w = Ok (tt, w') ->
  w_term w' = w_term w /\ alloc_ok w' /\ w_lines w' = scrollback_text (sb0 ++ [line]).
Proof.
  intros Hsb Hok Hlines H.
  unfold add_scrollback_line_to_buffer in H. unfold bind at 1 in H. unfold get_term in H.
  rewrite Hsb, length_app in H. cbn [length] in H.
  replace (Z.of_nat (length sb0 + 1) - 1) with (Z.of_nat (length sb0)) in H by lia.
  rewrite Nat2Z.id in H.
  rewrite nth_error_app2 in H by lia. rewrite Nat.sub_diag in H. cbn [nth_error] in H.
  destruct (Z.ltb_spec (Z.of_nat (length sb0)) 0); [lia|].
  apply bind_Ok in H. destruct H as (text & w1 & Htext & H).
  destruct (line_text_exact line _ _ _ _ _ _ Hok Htext) as (Etext & Hs1 & Hok1).
  subst text. cbn [app] in H. fold (line_bytes line) in H.
  destruct (alloc_request_ok w1 Hok1) as (w2 & Hreq & Hs2 & Hok2).
  unfold bind at 1 in H. rewrite Hreq in H. cbn [negb] in H.
  pose proof (same_but_alloc_trans _ _ _ Hs1 Hs2) as Hs.
  apply same_but_alloc_fields in Hs. destruct Hs as (Ht2 & Hl2 & _).
  assert (Hcount : ml_line_count w2 = Z.max 1 (Z.of_nat (length sb0))).
  { unfold ml_line_count. rewrite Hl2, Hlines. apply scrollback_text_length. }
  unfold bind at 1 in H. unfold ml_append_buf at 1 in H.
  destruct (Z.ltb_spec (Z.of_nat (length sb0)) 0); [lia|].
  destruct (Z.gtb_spec (Z.of_nat (length sb0)) (ml_line_count w2)); [lia|].
  cbn [orb] in H. rewrite Nat2Z.id in H. rewrite Hl2, Hlines in H.
  rewrite scrollback_text_snoc.
  destruct sb0 as [|l0 sb0].
  - cbn [length Z.of_nat Z.eqb] in H. cbn [scrollback_text firstn skipn app] in H.
    unfold ml_delete, ml_line_count in H. cbn in H. ok_inv H.
    cbn [w_term w_lines with_lines w_alloc]. unfold alloc_ok in *.
    split; [exact Ht2|]. split; [exact Hok2|reflexivity].
  - destruct (Z.eqb_spec (Z.of_nat (length (l0 :: sb0))) 0) as [Hz|_];
      [cbn [length] in Hz; lia|].
    ok_inv H. cbn [w_term w_lines with_lines w_alloc]. unfold alloc_ok in *.
    split; [exact Ht2|]. split; [exact Hok2|].
    unfold scrollback_text. cbn [map app]. f_equal.
    rewrite <- (length_map line_bytes sb0). rewrite firstn_all, skipn_all. reflexivity.
Qed.

Lemma keeps_store_ret {A} (a : A) : keeps_store (ret a).
Proof. intros w a' w' Hs H. ok_inv H. exact Hs. Qed.

Lemma keeps_store_fault {A} : keeps_store (@fault A).
Proof. intros w a w' _ H. discriminate H. Qed.

Lemma keeps_store_timeout {A} : keeps_store (@timeout A).
Proof. intros w a w' _ H. discriminate H. Qed.

Lemma keeps_store_bind {A B} (m : M A) (k : A -> M B) :
  keeps_store m -> (forall a, keeps_store (k a)) -> keeps_store (bind m k).
Proof.
  intros Hm Hk w b w' Hs H. apply bind_Ok in H. destruct H as (a & w1 & H1 & H2).
  eapply Hk; [|exact H2]. eapply Hm; [exact Hs|exact H1].
Qed.

Lemma keeps_store_same {A} (m : M A) :
  (forall w a w', m w = Ok (a, w') ->
     tl_scrollback (w_term w') = tl_scrollback (w_term w)
     /\ w_lines w' = w_lines w /\ w_alloc w' = w_alloc w) ->
  keeps_store m.
Proof.
  intros H w a w' [Hok Hm] Hrun. destruct (H w a w' Hrun) as (Hsb & Hl & Ha).
  unfold store_ok, mirrors, alloc_ok. rewrite Hsb, Hl, Ha. split; assumption.
Qed.

Lemma keeps_store_of_quiet {A} (m : M A) : keeps_quiet m -> keeps_store m.
Proof.
  intros H w a w' [Hok Hm] Hrun. destruct (H w a w' Hrun) as (_ & Hsb & _ & Hl & Ha).
  unfold store_ok, mirrors. rewrite Hsb, Hl. split; [apply Ha, Hok|exact Hm].
Qed.

Lemma quiet_the_vterm : keeps_quiet the_vterm.
Proof.
  apply quiet_same. intros w a w' H. unfold the_vterm in H.
  destruct (tl_vterm (w_term w)); [|discriminate H]. ok_inv H. auto.
Qed.

Lemma store_line_mirrors (line : sb_line_T) (d : Z) :
  keeps_store (push_scrollback line d ;;; add_scrollback_line_to_buffer).
Proof.
  intros w a w' [Hok Hm] H. destruct a.
  unfold bind at 1 in H. unfold push_scrollback, bind, get_term, put_term in H.
  set (w1 := with_term w (set_scrollback (w_term w) (tl_scrollback (w_term w) ++ [line])
                            (tl_scrollback_scrolled (w_term w) + d))) in *.
  destruct (add_scrollback_line_mirrors w1 w' (tl_scrollback (w_term w)) line
              eq_refl Hok Hm H) as (Ht & Hok' & Hl).
  split; [exact Hok'|]. unfold mirrors. rewrite Hl, Ht. reflexivity.
Qed.

Lemma keeps_store_add_skipped_lines : forall n, keeps_store (add_skipped_lines n).
Proof.
  induction n as [|n IH]; cbn [add_skipped_lines]; [apply keeps_store_ret|].
  apply keeps_store_bind; [apply keeps_store_of_quiet, quiet_alloc_request|].
  intros grown. apply keeps_store_bind; [|intros _; exact IH].
  destruct grown; [apply store_line_mirrors|apply keeps_store_ret].
Qed.

Lemma keeps_store_move_rows (vt : VTerm) : forall rows lines_skipped,
  keeps_store (move_rows vt rows lines_skipped).
Proof.
  induction rows as [|r rest IH]; intros lines_skipped; cbn [move_rows];
    [apply keeps_store_ret|].
  apply keeps_store_bind; [apply keeps_store_of_quiet, quiet_get_term|]. intros term.
  destruct (_ =? 0); [apply IH|].
  apply keeps_store_bind; [apply keeps_store_add_skipped_lines|]. intros _.
  apply keeps_store_bind; [apply keeps_store_of_quiet, quiet_alloc_request|]. intros p.
  apply keeps_store_bind; [|intros _; apply IH].
  destruct p; [|apply keeps_store_ret].
  apply keeps_store_bind; [apply keeps_store_of_quiet, quiet_alloc_request|].
  intros grown. destruct grown; [apply store_line_mirrors|apply keeps_store_ret].
Qed.

Lemma keeps_store_move_terminal_to_buffer : keeps_store move_terminal_to_buffer.
Proof.
  unfold move_terminal_to_buffer.
  apply keeps_store_bind; [apply keeps_store_of_quiet, quiet_the_vterm|]. intros vt.
  apply keeps_store_bind; [apply keeps_store_of_quiet, quiet_get_term|]. intros term.
  apply keeps_store_bind; [apply keeps_store_move_rows|]. intros _.
  apply keeps_store_same. intros w a w' H. unfold bind, get, put in H.
  ok_inv H. auto.
Qed.

Lemma quiet_pushed_line (cols : Z) (cells : list VTermScreenCell) :
  keeps_quiet (pushed_line cols cells).
Proof.
  unfold pushed_line. destruct (_ >? _); [apply quiet_fault|].
  apply quiet_bind; [|intros p; apply quiet_ret].
  destruct (_ >? 0); [|apply quiet_ret].
  apply quiet_bind; [apply quiet_alloc_request|]. intros got. apply quiet_ret.
Qed.

Lemma keeps_store_handle_pushline (cols : Z) (cells : list VTermScreenCell) :
  keeps_store (handle_pushline cols cells).
Proof.
  unfold handle_pushline.
  apply keeps_store_bind; [apply keeps_store_of_quiet, quiet_alloc_request|].
  intros grown. apply keeps_store_bind; [|intros _; apply keeps_store_ret].
  destruct grown; [|apply keeps_store_ret].
  intros w a w' Hs H. apply bind_Ok in H. destruct H as (line & w1 & H1 & H).
  eapply store_line_mirrors; [|exact H].
  eapply keeps_store_of_quiet; [apply quiet_pushed_line|exact Hs|exact H1].
Qed.

Lemma keeps_store_set_terminal_mode (on : bool) : keeps_store (set_terminal_mode on).
Proof.
  apply keeps_store_same. intros w a w' H.
  destruct (set_terminal_mode_run on w) as (w0 & H0 & Ht & Hl & _ & Ha).
  rewrite H0 in H. ok_inv H. rewrite Ht. auto.
Qed.

Lemma keeps_store_cleanup_vterm : keeps_store cleanup_vterm.
Proof.
  unfold cleanup_vterm.
  apply keeps_store_bind; [apply keeps_store_move_terminal_to_buffer|]. intros _.
  apply keeps_store_bind; [|intros _; apply keeps_store_set_terminal_mode].
  apply keeps_store_same. intros w a w' H.
  unfold term_free_vterm, bind, get_term, put_term in H. ok_inv H. auto.
Qed.

Lemma keeps_store_curbuf_b_term : keeps_store curbuf_b_term.
Proof.
  apply keeps_store_same. intros w a w' H. unfold curbuf_b_term, bind, get in H.
  destruct (_ =? _); [|discriminate H]. ok_inv H. auto.
Qed.

Lemma keeps_store_term_enter_terminal_mode : keeps_store term_enter_terminal_mode.
Proof.
  unfold term_enter_terminal_mode.
  apply keeps_store_bind; [apply keeps_store_curbuf_b_term|]. intros _.
  apply keeps_store_bind; [apply keeps_store_move_terminal_to_buffer|]. intros _.
  apply keeps_store_set_terminal_mode.
Qed.

Lemma removelast_map {A B} (f : A -> B) (l : list A) :
  removelast (map f l) = map f (removelast l).
Proof.
  induction l as [|a l IH]; [reflexivity|].
  destruct l as [|b l]; [reflexivity|].
  cbn [map removelast] in *. rewrite IH. reflexivity.
Qed.

Lemma keeps_store_remove_terminal_lines : forall fuel,
  keeps_store (remove_terminal_lines fuel).
Proof.
  assert (Hstep : forall fuel,
            (forall fuel', fuel = S fuel' -> keeps_store (remove_terminal_lines fuel')) ->
            keeps_store (remove_terminal_lines fuel)).
  { intros fuel IH w a w' [Hok Hm] H.
    destruct fuel as [|fuel']; cbn [remove_terminal_lines] in H;
      unfold bind at 1 in H; unfold get in H;
      destruct (ml_line_count w >? tl_scrollback_scrolled (w_term w));
      try discriminate H;
      try (ok_inv H; split; assumption).
    unfold bind at 1 in H.
    destruct (tl_scrollback (w_term w)) as [|l0 sb] eqn:Hsb.
    - (* nothing in the scrollback: the line read is not there *)
      unfold mirrors in Hm. rewrite Hsb in Hm. cbn [scrollback_text] in Hm.
      unfold ml_delete, ml_line_count in H. rewrite Hm in H. cbn in H.
      unfold bind, get_term in H. cbn [w_term with_lines] in H. rewrite Hsb in H.
      discriminate H.
    - unfold mirrors in Hm. rewrite Hsb in Hm.
      assert (Hcount : ml_line_count w = Z.of_nat (length (l0 :: sb))).
      { unfold ml_line_count. rewrite Hm. unfold scrollback_text.
        rewrite length_map. reflexivity. }
      unfold ml_delete in H. rewrite Hcount in H.
      destruct (Z.ltb_spec (Z.of_nat (length (l0 :: sb))) 1);
        [cbn [length] in *; lia|].
      destruct (Z.gtb_spec (Z.of_nat (length (l0 :: sb))) (Z.of_nat (length (l0 :: sb))));
        [lia|].
      cbn [orb] in H.
      set (lines' := if Z.of_nat (length (l0 :: sb)) =? 1 then [[]]
                     else firstn (Z.to_nat (Z.of_nat (length (l0 :: sb)) - 1)) (w_lines w)
                          ++ skipn (Z.to_nat (Z.of_nat (length (l0 :: sb)))) (w_lines w)).
      assert (Hlines' : lines' = scrollback_text (removelast (l0 :: sb))).
      { unfold lines'.
        destruct (Z.eqb_spec (Z.of_nat (length (l0 :: sb))) 1) as [Hone|Hmore].
        - destruct sb; [reflexivity|cbn [length] in Hone; lia].
        - rewrite Hm. unfold scrollback_text at 1 2.
          rewrite skipn_all2 by (rewrite length_map; lia).
          rewrite app_nil_r.
          replace (Z.to_nat (Z.of_nat (length (l0 :: sb)) - 1))
            with (length (map line_bytes (l0 :: sb)) - 1)%nat
            by (rewrite length_map; lia).
          rewrite Nat.sub_1_r, <- removelast_firstn_len, removelast_map.
          destruct sb as [|l1 sb]; [cbn [length] in Hmore; lia|].
          unfold scrollback_text.
          destruct (removelast (l0 :: l1 :: sb)) eqn:E; [|reflexivity].
          cbn [removelast] in E. discriminate E. }
      assert (Hgo : (term <- get_term ;;
                     match tl_scrollback term with
                     | [] => fault
                     | _ :: _ =>
                         put_term (set_scrollback term (removelast (tl_scrollback term))
                                     (tl_scrollback_scrolled term)) ;;;
                         (term0 <- get_term ;;
                          if Z.of_nat (length (tl_scrollback term0)) =? 0 then ret tt
                          else remove_terminal_lines fuel')
                     end) (with_lines w lines') = Ok (a, w')).
      { destruct (Z.of_nat (length (l0 :: sb)) =? 1); exact H. }
      clear H. unfold bind at 1 in Hgo. unfold get_term at 1 in Hgo.
      cbn [w_term with_lines] in Hgo. rewrite Hsb in Hgo.
      unfold bind at 1 in Hgo. unfold put_term at 1 in Hgo.
      unfold bind at 1 in Hgo. unfold get_term at 1 in Hgo.
      set (w2 := with_term (with_lines w lines')
                   (set_scrollback (w_term w) (removelast (l0 :: sb))
                      (tl_scrollback_scrolled (w_term w)))) in *.
      assert (Hs2 : store_ok w2).
      { split; [exact Hok|]. unfold mirrors. exact Hlines'. }
      destruct (Z.of_nat (length (tl_scrollback (w_term w2))) =? 0).
      + ok_inv Hgo. exact Hs2.
      + eapply (IH fuel' eq_refl); [exact Hs2|exact Hgo]. }
  induction fuel as [|fuel IH]; apply Hstep.
  - intros fuel' E. discriminate E.
  - intros fuel' E. injection E as <-. exact IH.
Qed.

Lemma keeps_store_term_leave_terminal_mode : keeps_store term_leave_terminal_mode.
Proof.
  unfold term_leave_terminal_mode.
  apply keeps_store_bind; [apply keeps_store_curbuf_b_term|]. intros term.
  apply keeps_store_bind; [apply keeps_store_remove_terminal_lines|]. intros _.
  apply keeps_store_bind; [apply keeps_store_of_quiet, quiet_emit|]. intros _.
  apply keeps_store_bind; [apply keeps_store_set_terminal_mode|]. intros _.
  apply keeps_store_bind; [apply keeps_store_of_quiet, quiet_get_term|]. intros term0.
  apply keeps_store_bind.
  { destruct (tl_channel_closed term0);
      [apply keeps_store_cleanup_vterm|apply keeps_store_ret]. }
  intros _. apply keeps_store_bind; [apply keeps_store_of_quiet, quiet_get|].
  intros w. apply keeps_store_of_quiet, quiet_emit.
Qed.

Lemma keeps_store_close_terminal : keeps_store close_terminal.
Proof.
  intros w a w' Hs H. unfold close_terminal in H.
  unfold bind at 1 in H. unfold get_term in H.
  unfold bind at 1 in H. unfold put_term in H.
  assert (Hs0 : store_ok (with_term w (close_channel (w_term w)))).
  { destruct Hs as [Hok Hm]. split; [exact Hok|exact Hm]. }
  revert H. generalize (with_term w (close_channel (w_term w))) Hs0.
  intros w0 Hs0' H. revert w0 a w' Hs0' H.
  change (keeps_store
            ((if negb (tl_terminal_mode (w_term w)) then cleanup_vterm else ret tt) ;;;
             emit (redraw_buf_and_status_later (tl_buffer (w_term w)) NOT_VALID))).
  apply keeps_store_bind; [|intros _; apply keeps_store_of_quiet, quiet_emit].
  destruct (negb _); [apply keeps_store_cleanup_vterm|apply keeps_store_ret].
Qed.

Lemma keeps_store_term_channel_closed (same_job : bool) :
  only_calls redraw_statuslines -> (forall c, only_calls (ins_char_typebuf c)) ->
  keeps_store (term_channel_closed same_job).
Proof.
  intros Hredraw Hins. unfold term_channel_closed.
  apply keeps_store_bind.
  { destruct same_job; [|apply keeps_store_ret].
    apply keeps_store_bind; [apply keeps_store_close_terminal|].
    intros _. apply keeps_store_ret. }
  intros did_one. destruct did_one; [|apply keeps_store_ret].
  apply keeps_store_bind; [apply keeps_store_of_quiet, quiet_only_calls, Hredraw|].
  intros _.
  apply keeps_store_bind; [apply keeps_store_of_quiet, quiet_only_calls, Hins|].
  intros _.
  apply keeps_store_bind; [apply keeps_store_of_quiet, quiet_get|]. intros w.
  destruct (b_term w (w_curbuf w)); [|apply keeps_store_ret].
  apply keeps_store_bind; [|intros _; apply keeps_store_of_quiet, quiet_update_cursor].
  destruct same_job; [apply keeps_store_of_quiet, quiet_emit|apply keeps_store_ret].
Qed.

Lemma keeps_store_deliver (ev : session_event) (w_valid : nat -> Z) :
  only_calls cursor_off -> only_calls redraw_statuslines ->
  (forall c, only_calls (ins_char_typebuf c)) ->
  keeps_buffer ev = true -> keeps_store (deliver ev w_valid).
Proof.
  intros Hoff Hredraw Hins Hev.
  destruct ev; try discriminate Hev; cbn [deliver];
    (apply keeps_store_bind; [|intros ?; apply keeps_store_ret]).
  - apply keeps_store_of_quiet, quiet_write_to_term.
  - apply keeps_store_of_quiet, quiet_handle_damage.
  - apply keeps_store_of_quiet, quiet_handle_moverect.
  - apply keeps_store_of_quiet, quiet_handle_movecursor, Hoff.
  - apply keeps_store_of_quiet, quiet_handle_settermprop, Hoff.
  - apply keeps_store_handle_pushline.
  - apply keeps_store_of_quiet, quiet_send_keys_to_term.
  - apply keeps_store_term_enter_terminal_mode.
  - apply keeps_store_term_leave_terminal_mode.
  - apply keeps_store_of_quiet, quiet_term_get_status_text.
  - apply keeps_store_term_channel_closed; assumption.
Qed.

(** X13.  The buffer of a terminal holds the text of its scrollback.
    While no allocation fails, every event of a session other than a
    change of the buffer by the user (job output, the callbacks of the
    engine with the lines that scroll off, keys, entering and leaving
    Terminal-Normal mode, the status text, the closing of the channel)
    leaves the buffer with exactly one line for each line of the
    scrollback, in order, each the text of the cells of that line; an
    empty scrollback goes with the one empty line of an empty buffer. *)
Theorem buffer_mirrors_scrollback (evs : list session_event)
    (Hoff : only_calls cursor_off)
    (Hredraw : only_calls redraw_statuslines)
    (Hins : forall c, only_calls (ins_char_typebuf c))
    (Hevs : forallb keeps_buffer evs = true) :
  forall (w_valid w_valid' : nat -> Z) (w w' : world),
    store_ok w ->
    deliver_all evs w_valid w = Ok (w_valid', w') ->
    store_ok w'
    /\ w_lines w' = scrollback_text (tl_scrollback (w_term w'))
    /\ ml_line_count w' = Z.max 1 (Z.of_nat (length (tl_scrollback (w_term w')))).
Proof.
  assert (Hall : forall w_valid w_valid' w w',
            store_ok w -> deliver_all evs w_valid w = Ok (w_valid', w') -> store_ok w').
  { induction evs as [|ev rest IH]; intros w_valid w_valid' w w' Hs H;
      cbn [deliver_all] in H.
    - ok_inv H. exact Hs.
    - cbn [forallb] in Hevs. apply andb_prop in Hevs. destruct Hevs as [Hev Hrest].
      apply bind_Ok in H. destruct H as (v1 & w1 & H1 & H).
      eapply (IH Hrest); [|exact H].
      eapply keeps_store_deliver; eauto. }
  intros w_valid w_valid' w w' Hs H.
  pose proof (Hall w_valid w_valid' w w' Hs H) as Hs'.
  split; [exact Hs'|]. destruct Hs' as [_ Hm]. split; [exact Hm|].
  unfold ml_line_count. rewrite Hm. apply scrollback_text_length.
Qed.

(** X14.  "term_getline()" on a finished terminal whose buffer holds the
    text of its scrollback.  Row r (the row of the cursor when none is
    given) is line r + [tl_scrollback_scrolled] + 1 of the buffer: when
    that is a line of the buffer and the copy can be allocated, the
    result is the text of the scrollback line with that place, the line
    whose cells [term_get_attr] reads for the same line of the buffer;
    a row before the first or after the last line gives no text, and so
    does a failed allocation. *)
Theorem term_getline_finished (row_arg : option Z) (w : world)
    (Hfin : tl_vterm (w_term w) = None)
    (Hm : mirrors w) :
  (forall line,
     0 <= asked_row (w_term w) row_arg + tl_scrollback_scrolled (w_term w) ->
     nth_error (tl_scrollback (w_term w))
       (Z.to_nat (asked_row (w_term w) row_arg + tl_scrollback_scrolled (w_term w)))
     = Some line ->
     (hd true (w_alloc w) = true ->
      f_term_getline true row_arg w = Ok (Some (line_bytes line), after_alloc w))
     /\ (hd true (w_alloc w) = false ->
         f_term_getline true row_arg w = Ok (None, after_alloc w))
     /\ (forall col cells cell,
           0 <= col < sb_cols line -> sb_cells line = Some cells ->
           nth_error cells (Z.to_nat col) = Some cell ->
           term_get_attr (w_term w)
             (asked_row (w_term w) row_arg + tl_scrollback_scrolled (w_term w) + 1) col
           = Ok (cell2attr cell)))
  /\ (asked_row (w_term w) row_arg + tl_scrollback_scrolled (w_term w) < 0
      \/ Z.max 1 (Z.of_nat (length (tl_scrollback (w_term w))))
         <= asked_row (w_term w) row_arg + tl_scrollback_scrolled (w_term w) ->
      f_term_getline true row_arg w = Ok (None, w))
  /\ f_term_getline false row_arg w = Ok (None, w).
Proof.
  set (n := asked_row (w_term w) row_arg + tl_scrollback_scrolled (w_term w)).
  assert (Hcount : ml_line_count w = Z.max 1 (Z.of_nat (length (tl_scrollback (w_term w))))).
  { unfold ml_line_count. rewrite Hm. apply scrollback_text_length. }
  assert (Hrun : f_term_getline true row_arg w
                 = if (n + 1 >? 0) && (n + 1 <=? ml_line_count w)
                   then vim_strsave (ml_get_buf w (n + 1)) w
                   else Ok (None, w)).
  { unfold f_term_getline. cbn [negb]. unfold bind at 1. unfold get_term at 1.
    rewrite Hfin. unfold bind at 1. unfold get at 1.
    fold (asked_row (w_term w) row_arg). fold n.
    destruct ((n + 1 >? 0) && (n + 1 <=? ml_line_count w)); reflexivity. }
  split; [|split; [|reflexivity]].
  - intros line Hn Hline.
    assert (Hlt : (Z.to_nat n < length (tl_scrollback (w_term w)))%nat).
    { apply nth_error_Some. rewrite Hline. discriminate. }
    assert (Htext : ml_get_buf w (n + 1) = line_bytes line).
    { unfold ml_get_buf. replace (n + 1 - 1) with n by lia. rewrite Hm.
      destruct (tl_scrollback (w_term w)) as [|l0 sb] eqn:Hsb;
        [destruct (Z.to_nat n); discriminate Hline|].
      unfold scrollback_text. rewrite <- Hsb in *.
      rewrite (nth_indep _ [] (line_bytes (mkLine 0 None)))
        by (rewrite length_map; exact Hlt).
      rewrite map_nth. f_equal. apply nth_error_nth. exact Hline. }
    rewrite Hrun, Hcount.
    destruct (Z.gtb_spec (n + 1) 0); [|lia].
    destruct (Z.leb_spec (n + 1)
                (Z.max 1 (Z.of_nat (length (tl_scrollback (w_term w)))))); [|lia].
    cbn [andb]. rewrite Htext. unfold vim_strsave, bind, ret.
    rewrite alloc_request_run.
    split; [intros ->; reflexivity|]. split; [intros ->; reflexivity|].
    intros col cells cell Hcol Hcells Hcell. unfold term_get_attr.
    destruct (Z.gtb_spec (n + 1) (Z.of_nat (length (tl_scrollback (w_term w))))); [lia|].
    destruct (Z.ltb_spec (n + 1 - 1) 0); [lia|].
    replace (n + 1 - 1) with n by lia. rewrite Hline.
    destruct (Z.geb_spec col (sb_cols line)); [lia|].
    destruct (Z.ltb_spec col 0); [lia|].
    rewrite Hcells, Hcell. reflexivity.
  - intros Hout. rewrite Hrun, Hcount.
    destruct (Z.gtb_spec (n + 1) 0);
      destruct (Z.leb_spec (n + 1)
                  (Z.max 1 (Z.of_nat (length (tl_scrollback (w_term w))))));
      cbn [andb]; try reflexivity.
    lia.
Qed.

End Terminal.

(** * The properties on examples *)

(** ** Colour mapping *)

(** Pure red on a 256-colour host: colour 196 of the cube, returned as
    197. *)
Lemma color2index_unmatched_witness :
  valid_color (mkColor 255 0 0)
  /\ standard_color 255 0 0 = None
  /\ color2index 256 sample_lookup_color (mkColor 255 0 0) true
     = 17 + 36 * round_div 255 51 + 6 * round_div 0 51 + round_div 0 51.
Proof.
  assert (Hv : valid_color (mkColor 255 0 0)) by (unfold valid_color; simpl; lia).
  split; [exact Hv|]. split; [reflexivity|].
  destruct (color2index_unmatched 256 sample_lookup_color (mkColor 255 0 0) true
              Hv eq_refl) as [H256 _].
  destruct (H256 ltac:(lia)) as [_ Hcube].
  apply Hcube. simpl. intros [H _]. discriminate H.
Defined.

(** C5 as it was stated gives 16 + 36*5 = 196 for pure red; the code
    returns 197. *)
Lemma color2index_cube_counterexample :
  valid_color (mkColor 255 0 0)
  /\ standard_color 255 0 0 = None
  /\ color2index 256 sample_lookup_color (mkColor 255 0 0) true = 197
  /\ color2index 256 sample_lookup_color (mkColor 255 0 0) true
     <> 16 + 36 * round_div 255 51 + 6 * round_div 0 51 + round_div 0 51.
Proof.
  split; [unfold valid_color; simpl; lia|].
  split; [reflexivity|]. split; [reflexivity|].
  vm_compute. discriminate.
Qed.

(** ** Damage *)

Lemma handle_damage_union_witness :
  Permutation [mkRect 3 5 0 80; mkRect 1 2 0 80] [mkRect 1 2 0 80; mkRect 3 5 0 80]
  /\ exists w1,
       handle_damages [mkRect 3 5 0 80; mkRect 1 2 0 80]
         (with_term (started_world (blank_screen 2 3) 2 3 []) ex_terminal_term)
       = Ok (tt, w1)
       /\ dirty_range (w_term w1) = (0, 999999).
Proof.
  split; [apply perm_swap|].
  destruct (handle_damage_union (started_world (blank_screen 2 3) 2 3 [])
              [mkRect 3 5 0 80; mkRect 1 2 0 80] [mkRect 1 2 0 80; mkRect 3 5 0 80]
              (perm_swap _ _ _)) as (_ & H & _).
  exact H.
Defined.

(** C2 as it was stated gives the range [3, 5) after one damage callback
    for the rows 3 and 4 on a new terminal; the code leaves the range
    [0, 999999) that [ex_terminal] set up. *)
Lemma handle_damage_fresh_counterexample :
  exists w1,
    handle_damages [mkRect 3 5 0 80] (started_world (blank_screen 2 3) 2 3 [])
    = Ok (tt, w1)
    /\ dirty_range (w_term w1) = (0, 999999)
    /\ dirty_range (w_term w1) <> (3, 5).
Proof.
  eexists. split; [reflexivity|]. split; [reflexivity|].
  vm_compute. discriminate.
Qed.

(** ** Resize negotiation *)

(** Two windows of 24 and 30 lines show a terminal of 30 rows: the
    update of the first one resizes the engine to 24 rows. *)
Lemma term_update_window_negotiates_witness :
  In (mkWin 1 24 80 0 0 1 0 0 0) (w_wins (two_window_world 24 30))
  /\ needs_resize (w_term (two_window_world 24 30)) (mkWin 1 24 80 0 0 1 0 0 0) = true
  /\ term_update_window (mkWin 1 24 80 0 0 1 0 0 0) (two_window_world 24 30)
     = Ok (true, with_events (two_window_world 24 30)
                   [vterm_set_size 24 80; ch_logn (LogResizing 24);
                    term_report_winsize 24 80]).
Proof.
  split; [left; reflexivity|]. split; [reflexivity|].
  destruct (term_update_window_negotiates (two_window_world 24 30)
              (mkWin 1 24 80 0 0 1 0 0 0) (mkVTerm (blank_screen 2 3) [] [])
              (mkJob JOB_STARTED true)
              (or_introl eq_refl) eq_refl eq_refl eq_refl eq_refl eq_refl) as [H _].
  exact H.
Defined.

(** C4 as it was stated keeps the rows at 1 or more; with a second window
    of height 0 showing the terminal the code resizes the engine to 0
    rows. *)
Lemma term_update_window_zero_rows_counterexample :
  term_update_window (mkWin 1 24 80 0 0 1 0 0 0) (two_window_world 24 0)
  = Ok (true, with_events (two_window_world 24 0)
                [vterm_set_size 0 80; ch_logn (LogResizing 0);
                 term_report_winsize 0 80])
  /\ fst (negotiated_size (w_term (two_window_world 24 0))
            (mkWin 1 24 80 0 0 1 0 0 0) (w_wins (two_window_world 24 0))) = 0
  /\ ~ 1 <= fst (negotiated_size (w_term (two_window_world 24 0))
                   (mkWin 1 24 80 0 0 1 0 0 0) (w_wins (two_window_world 24 0))).
Proof.
  split; [reflexivity|]. split; [reflexivity|].
  vm_compute. intros H. apply H. reflexivity.
Qed.

(** ** Attribute lookup *)


(** ** The engine is gone *)


(** ** Key conversion *)

Lemma term_convert_key_fits_witness :
  tl_vterm (w_term (started_world (blank_screen 2 3) 2 3 []))
  = Some (mkVTerm (blank_screen 2 3) [] [])
  /\ exists buf n w',
       term_convert_key echo_key echo_unichar quiet_mouse_move quiet_mouse_button
         quiet_paste quiet_paste true true true true true (fun _ => -1)
         (Char 97) (started_world (blank_screen 2 3) 2 3 [])
       = Ok ((buf, n), w')
       /\ 0 <= n <= KEY_BUF_LEN /\ n = Z.of_nat (length buf).
Proof.
  split; [reflexivity|].
  destruct (term_convert_key_fits echo_key echo_unichar quiet_mouse_move
              quiet_mouse_button quiet_paste quiet_paste true true true true true
              (fun _ => -1) (Char 97) false
              (started_world (blank_screen 2 3) 2 3 [])
              (mkVTerm (blank_screen 2 3) [] []) (mkJob JOB_STARTED true)
              eq_refl eq_refl) as (H & _).
  exact H.
Defined.

(** ** Job output *)

Lemma one_byte_len_fits (msg : list byte) : utf_fits one_byte_len msg.
Proof.
  intros p b Hnth Hne. unfold one_byte_len.
  rewrite (skipn_nth_error_cons _ _ _ Hnth). simpl.
  destruct (Byte.eqb b NL) eqn:E.
  - apply Byte.byte_dec_bl in E. contradiction.
  - lia.
Defined.

(** The chunk "a", line feed, "b". *)
Lemma term_write_job_output_crlf_witness :
  utf_fits one_byte_len [x61; x0a; x62]
  /\ term_write_job_output one_byte_len [x61; x0a; x62] 3
       (started_world (blank_screen 2 3) 2 3 [])
     = Ok (tt, with_term (started_world (blank_screen 2 3) 2 3 [])
                 (set_vterm (started_term (blank_screen 2 3) 2 3)
                    (Some (mkVTerm (blank_screen 2 3)
                             [InputWrite [x61]; InputWrite [x0d; x0a];
                              InputWrite [x62]; FlushDamage] [])))).
Proof.
  split; [apply one_byte_len_fits|].
  destruct (term_write_job_output_crlf one_byte_len
              (started_world (blank_screen 2 3) 2 3 [])
              (mkVTerm (blank_screen 2 3) [] []) [x61; x0a; x62]
              eq_refl (one_byte_len_fits _)) as [H _].
  exact H.
Defined.

(** ** Scrollback *)

(** One line is pushed off the screen, then the screen, whose first row
    holds a letter and whose second row is empty, is flushed: one line
    each. *)
Lemma scrollback_lines_stored_witness :
  alloc_ok (started_world letter_screen 2 3 [])
  /\ Forall pushline_ok [(3, [letter_cell 66; blank_cell; blank_cell])]
  /\ screen_ok (mkVTerm letter_screen [] [])
  /\ (exists w',
        handle_pushlines one_byte_char [(3, [letter_cell 66; blank_cell; blank_cell])]
          (started_world letter_screen 2 3 []) = Ok (tt, w')
        /\ length (tl_scrollback (w_term w')) = 1%nat)
  /\ (exists w',
        move_terminal_to_buffer one_byte_char (started_world letter_screen 2 3 [])
        = Ok (tt, w')
        /\ tl_scrollback (w_term w') = [mkLine 1 (Some [letter_cell 65])]).
Proof.
  assert (Ha : alloc_ok (started_world letter_screen 2 3 [])) by constructor.
  assert (Hl : Forall pushline_ok [(3, [letter_cell 66; blank_cell; blank_cell])]).
  { constructor; [|constructor]. split; [simpl; lia|].
    repeat constructor; simpl; lia. }
  assert (Hs : screen_ok (mkVTerm letter_screen [] [])).
  { repeat constructor; simpl; lia. }
  split; [exact Ha|]. split; [exact Hl|]. split; [exact Hs|].
  destruct (scrollback_lines_stored one_byte_char (started_world letter_screen 2 3 [])
              (mkVTerm letter_screen [] [])
              [(3, [letter_cell 66; blank_cell; blank_cell])]
              Ha Hl eq_refl Hs) as ((w1 & H1 & H1len & _) & (w2 & H2 & H2sb) & _).
  split.
  - exists w1. split; [exact H1|exact H1len].
  - exists w2. split; [exact H2|exact H2sb].
Defined.

(** ** Terminal-Normal mode and back, on a screen with a letter *)

(** The flush stores the one row that is not empty, in place of the empty
    line of the new buffer; leaving Terminal-Normal mode removes it
    again: one line and an empty scrollback, as before. *)
Example terminal_mode_round_trip_letter :
  match term_enter_terminal_mode one_byte_char (started_world letter_screen 2 3 []) with
  | Ok (_, w1) =>
      w_lines w1 = [[x41]]
      /\ tl_scrollback (w_term w1) = [mkLine 1 (Some [letter_cell 65])]
      /\ match term_leave_terminal_mode one_byte_char w1 with
         | Ok (_, w2) => w_lines w2 = [[]] /\ tl_scrollback (w_term w2) = []
         | _ => False
         end
  | _ => False
  end.
Proof.
  vm_compute. repeat split.
Qed.

(** * More properties on examples *)

(** ** Job output that ends inside a character *)

(** The chunk "a" followed by the first two bytes of the three-byte
    UTF-8 character U+20AC. *)
Lemma term_write_job_output_overrun_witness :
  (length [xe2; x82] < utf8_ptr2len_len [xe2; x82] 2)%nat
  /\ skip_to_NL utf8_ptr2len_len 4 [x61; xe2; x82] 3 0 = Ok 4%nat
  /\ term_write_job_output utf8_ptr2len_len [x61; xe2; x82] 3
       (started_world (blank_screen 2 3) 2 3 [])
     = Fault.
Proof.
  assert (Hlong : (length [xe2; x82] < utf8_ptr2len_len [xe2; x82] (length [xe2; x82]))%nat)
    by (vm_compute; lia).
  split; [exact Hlong|].
  assert (Hpre : forall i b, nth_error [x61] i = Some b ->
            b <> NL
            /\ utf8_ptr2len_len (skipn i ([x61] ++ [xe2; x82]))
                 (length ([x61] ++ [xe2; x82]) - i) = 1%nat).
  { intros i b H. destruct i as [|[|i]]; simpl in H; try discriminate H.
    inversion H. split; [discriminate | reflexivity]. }
  assert (Hne : xe2 <> NL) by discriminate.
  destruct (term_write_job_output_overrun utf8_ptr2len_len
              (started_world (blank_screen 2 3) 2 3 [])
              (mkVTerm (blank_screen 2 3) [] []) [x61] [xe2; x82] xe2
              eq_refl Hpre eq_refl Hne Hlong) as (Hskip & _ & Hrun).
  split; [exact Hskip | exact Hrun].
Defined.

(** ** The cursor *)

(** The cursor of the engine is below a window of 2 rows and 3 columns:
    the cursor of the window is on its last row. *)
Lemma position_cursor_inside_witness :
  cursor_inside (fst (position_cursor 2 1 (mkWin 1 2 3 0 0 1 0 0 0) 0 (mkPos 5 1)))
  /\ w_wrow (fst (position_cursor 2 1 (mkWin 1 2 3 0 0 1 0 0 0) 0 (mkPos 5 1))) = 1.
Proof.
  destruct (position_cursor_inside 2 1 (mkWin 1 2 3 0 0 1 0 0 0) 0 (mkPos 5 1)
              ltac:(simpl; lia) ltac:(simpl; lia)) as (Hin & _ & Hlast & _).
  split; [apply Hin; simpl; lia | apply Hlast; simpl; lia].
Defined.

Lemma no_call_only_calls : only_calls no_call.
Proof. apply only_calls_ret. Qed.

Lemma no_key_call_only_calls (c : key) : only_calls (no_key_call c).
Proof. apply only_calls_ret. Qed.

Lemma handle_movecursor_positions_witness :
  exists w_valid' w',
    handle_movecursor false no_call 2 1 (mkPos 1 1) (mkPos 0 0) true (fun _ => 0)
      (started_world letter_screen 2 3 [])
    = Ok ((1, w_valid'), w')
    /\ tl_cursor_pos (w_term w') = mkPos 1 1
    /\ w_valid' 0%nat = 3.
Proof.
  destruct (handle_movecursor_positions false no_call 2 1 (mkPos 1 1) (mkPos 0 0) true
              (fun _ => 0) (started_world letter_screen 2 3 [])
              no_call_only_calls ltac:(simpl; lia) ltac:(simpl; lia))
    as (v & w' & Hrun & Ht & _ & _ & Hwins).
  exists v, w'. split; [exact Hrun|]. split; [rewrite Ht; reflexivity|].
  destruct (Hwins 0%nat (mkWin 1 2 3 0 0 1 0 0 0) eq_refl) as [Hshown _].
  destruct (Hshown eq_refl) as (wp' & _ & _ & _ & Hv).
  rewrite Hv. reflexivity.
Defined.

(** ** Sessions *)

Lemma engine_freed_only_when_closed_witness :
  match deliver_all false one_byte_char one_byte_len echo_key echo_unichar
          quiet_mouse_move quiet_mouse_button quiet_paste quiet_paste
          true true true true true (fun _ => -1)
          no_call no_call no_key_call 2 1 same_message whole_text
          sample_session (fun _ => 0) (started_world letter_screen 2 3 []) with
  | Ok (_, w') =>
      tl_vterm (w_term w') = None
      /\ tl_terminal_mode (w_term w') = false
      /\ tl_channel_closed (w_term w') = true
  | _ => False
  end.
Proof.
  destruct (deliver_all false one_byte_char one_byte_len echo_key echo_unichar
          quiet_mouse_move quiet_mouse_button quiet_paste quiet_paste
          true true true true true (fun _ => -1)
          no_call no_call no_key_call 2 1 same_message whole_text
          sample_session (fun _ => 0) (started_world letter_screen 2 3 []))
    as [[v' w']| |] eqn:E.
  - destruct (engine_freed_only_when_closed _ _ _ _ _ _ _ _ _ _ _ _ _ _ _ _ _ _ _ _ _ _
                sample_session no_call_only_calls no_call_only_calls
                no_key_call_only_calls _ _ _ _ E) as (Hfin & _ & _).
    assert (Hnone : tl_vterm (w_term w') = None).
    { vm_compute in E. inversion E. reflexivity. }
    split; [exact Hnone|].
    apply Hfin; [|exact Hnone]. intros H. discriminate H.
  - vm_compute in E. discriminate E.
  - vm_compute in E. discriminate E.
Defined.

(** ** The closing of the channel *)

Lemma letter_screen_ok : screen_ok (mkVTerm letter_screen [] []).
Proof. repeat constructor; simpl; lia. Qed.



(** ** The status text and the title *)

Lemma whole_text_fits (str_m : Z) (text : list byte) :
  STRLEN text < str_m -> whole_text str_m text = text.
Proof.
  unfold whole_text, STRLEN. intros H. apply firstn_all2. lia.
Qed.

(** The terminal of the buffer "sh". *)
Lemma term_get_status_text_cached_witness :
  exists w',
    term_get_status_text same_message whole_text [x73; x68]
      (started_world letter_screen 2 3 [])
    = Ok (Some (status_format [x73; x68]
                  (status_txt same_message (started_term letter_screen 2 3))), w')
    /\ term_get_status_text same_message whole_text [x73; x68] w'
       = Ok (Some (status_format [x73; x68]
                     (status_txt same_message (started_term letter_screen 2 3))), w').
Proof.
  destruct (term_get_status_text_cached same_message whole_text [x73; x68]
              (started_world letter_screen 2 3 []) whole_text_fits eq_refl)
    as (Hok & _).
  destruct (Hok eq_refl) as (w' & Hrun & _ & _ & Hagain).
  exists w'. split; [exact Hrun | exact Hagain].
Defined.

(** The job sets the title "vi". *)
Lemma title_change_shows_in_status_witness :
  exists w1 w2 w3,
    handle_settermprop no_call VTERM_PROP_TITLE (string [x76; x69])
      (started_world letter_screen 2 3 [])
    = Ok (1, w1)
    /\ term_get_status_text same_message whole_text [x73; x68] w1
       = Ok (Some (status_format [x73; x68] [x76; x69]), w2)
    /\ f_term_gettitle true w2 = Ok (Some [x76; x69], w3).
Proof.
  destruct (title_change_shows_in_status no_call same_message whole_text
              [x76; x69] [x73; x68] (started_world letter_screen 2 3 [])
              whole_text_fits) as (Hok & _).
  destruct (Hok ltac:(constructor) eq_refl) as (w1 & w2 & w3 & H1 & _ & H2 & H3).
  exists w1, w2, w3. repeat split; assumption.
Defined.

(** ** The mouse *)

Lemma click_outside_window_not_sent_witness :
  send_keys_to_term echo_key echo_unichar quiet_mouse_move quiet_mouse_button
    quiet_paste quiet_paste true true true true true (fun _ => -1)
    (Special K_LEFTMOUSE) true mouse_away_world
  = Ok (false,
        with_mouse_was_outside
          (with_events mouse_away_world [stuffcharReadbuff (Special K_LEFTMOUSE)]) true).
Proof.
  exact (click_outside_window_not_sent echo_key echo_unichar quiet_mouse_move
           quiet_mouse_button quiet_paste quiet_paste true true true true true
           (fun _ => -1) K_LEFTMOUSE true mouse_away_world eq_refl eq_refl).
Defined.

(** ** Colours *)

(** Two reds that round to the same place of the cube. *)
Lemma color2index_cube_faithful_witness :
  color2index 256 sample_lookup_color (mkColor 255 0 0) true
  = color2index 256 sample_lookup_color (mkColor 250 10 5) true
  /\ 17 <= color2index 256 sample_lookup_color (mkColor 255 0 0) true <= 232.
Proof.
  destruct (color2index_cube_faithful 256 sample_lookup_color
              (mkColor 255 0 0) (mkColor 250 10 5) true
              ltac:(lia)
              ltac:(unfold valid_color; simpl; lia)
              ltac:(unfold valid_color; simpl; lia)
              eq_refl eq_refl
              ltac:(simpl; intros [H _]; discriminate H)
              ltac:(simpl; intros [H _]; discriminate H)) as (Hrange & Hsame).
  split; [|exact Hrange].
  apply Hsame. repeat split; reflexivity.
Defined.

(** ** Scrollback and buffer *)

Lemma pushed_line_attributes_witness :
  exists w',
    handle_pushline one_byte_char 3 [letter_cell 66; blank_cell; blank_cell]
      (started_world letter_screen 2 3 [])
    = Ok (0, w')
    /\ term_get_attr 256 sample_lookup_color 2 8 4 32 1 false false
         sample_attr_idx sample_attr_idx sample_attr_idx sample_rgb sample_rgb
         (w_term w') (Z.of_nat (length (tl_scrollback (w_term w')))) 0
       = Ok (cell2attr 256 sample_lookup_color 2 8 4 32 1 false false
               sample_attr_idx sample_attr_idx sample_attr_idx sample_rgb sample_rgb
               (letter_cell 66)).
Proof.
  destruct (pushed_line_attributes 256 sample_lookup_color 2 8 4 32 1 false false
              sample_attr_idx sample_attr_idx sample_attr_idx sample_rgb sample_rgb
              one_byte_char 3 [letter_cell 66; blank_cell; blank_cell]
              (started_world letter_screen 2 3 [])
              ltac:(split; [simpl; lia | repeat constructor; simpl; lia])
              ltac:(constructor))
    as (w' & Hrun & _ & Hattr).
  exists w'. split; [exact Hrun|].
  destruct (Hattr 0 (letter_cell 66) ltac:(lia) eq_refl) as [Hseen _].
  apply Hseen. exists 0. split; [lia|]. simpl. discriminate.
Defined.

Lemma buffer_mirrors_scrollback_witness :
  match deliver_all false one_byte_char one_byte_len echo_key echo_unichar
          quiet_mouse_move quiet_mouse_button quiet_paste quiet_paste
          true true true true true (fun _ => -1)
          no_call no_call no_key_call 2 1 same_message whole_text
          sample_session (fun _ => 0) (started_world letter_screen 2 3 []) with
  | Ok (_, w') =>
      w_lines w' = scrollback_text one_byte_char (tl_scrollback (w_term w'))
      /\ w_lines w' = [[x42]; [x41]]
  | _ => False
  end.
Proof.
  destruct (deliver_all false one_byte_char one_byte_len echo_key echo_unichar
          quiet_mouse_move quiet_mouse_button quiet_paste quiet_paste
          true true true true true (fun _ => -1)
          no_call no_call no_key_call 2 1 same_message whole_text
          sample_session (fun _ => 0) (started_world letter_screen 2 3 []))
    as [[v' w']| |] eqn:E.
  - assert (Hstore : store_ok one_byte_char (started_world letter_screen 2 3 []))
      by (split; [constructor | reflexivity]).
    destruct (buffer_mirrors_scrollback _ _ _ _ _ _ _ _ _ _ _ _ _ _ _ _ _ _ _ _ _ _
                sample_session no_call_only_calls no_call_only_calls
                no_key_call_only_calls eq_refl _ _ _ _ Hstore E) as (_ & Htext & _).
    split; [exact Htext|].
    vm_compute in E. inversion E. reflexivity.
  - vm_compute in E. discriminate E.
  - vm_compute in E. discriminate E.
Defined.

(** Row 0 of the finished terminal whose one line holds a letter. *)
Lemma term_getline_finished_witness :
  f_term_getline 21 no_text true (Some 0) finished_world
  = Ok (Some [x41], finished_world).
Proof.
  destruct (term_getline_finished 256 sample_lookup_color 2 8 4 32 1 false false
              sample_attr_idx sample_attr_idx sample_attr_idx sample_rgb sample_rgb
              one_byte_char 21 no_text (Some 0) finished_world
              eq_refl ltac:(reflexivity)) as (Hline & _).
  destruct (Hline (mkLine 1 (Some [letter_cell 65])) ltac:(simpl; lia) eq_refl)
    as (Hok & _).
  exact (Hok eq_refl).
Defined.

(** ** Terminal-Normal mode and back *)

Lemma terminal_mode_round_trip_witness :
  exists w1 w2,
    term_enter_terminal_mode one_byte_char (started_world letter_screen 2 3 [])
    = Ok (tt, w1)
    /\ term_leave_terminal_mode one_byte_char w1 = Ok (tt, w2)
    /\ tl_scrollback (w_term w2) = []
    /\ ml_line_count w2 = 1.
Proof.
  destruct (terminal_mode_round_trip one_byte_char
              (started_world letter_screen 2 3 []) (mkVTerm letter_screen [] [])
              eq_refl letter_screen_ok ltac:(constructor) eq_refl eq_refl
              ltac:(left; unfold ml_line_count; simpl; lia)
              ltac:(reflexivity)
              ltac:(right; vm_compute; discriminate))
    as (w1 & w2 & Henter & _ & Hleave & Hsb & Hcount).
  exists w1, w2. repeat split; assumption.
Defined.
